(** * aishort: the short-clip extraction and rendering pipeline

    A shallow embedding of the client-side pipeline of the repository:
    - [utils/fileUtils]: [audioBufferToWav], [extractAudioFromVideo],
      [extractVideoFrames];
    - [components/ShortsCreator]: [parseSrt], [handleFileChange],
      [handleSubmit] and the per-frame fade and the encoder set-up of
      [handleDownload];
    - further down, [decode] and [decodeAudioData] of [utils/fileUtils],
      [handleSubmit] of [components/TextToSpeech], [handleTimeUpdate] and
      the preview style of [components/ShortsCreator], the zoom, the crop,
      the captions and the end of the recording of [handleDownload], the
      request of [analyzeVideoForClipping] of [services/geminiService], and
      the handlers of [components/VideoAnalyzer].

    Conventions of the embedding.
    - A JavaScript number is a [JS.number]: NaN, the two infinities, or a
      finite value carried as an exact rational.  Rounding of binary64 (and
      of the binary32 stores of a [Float32Array]) and the sign of zero are
      not modelled.
    - A JavaScript string is the list of its UTF-16 code units
      ([JS.jsstring]); [JS.lit] turns a literal of this file (UTF-8) into
      code units.
    - Integers written to a [DataView] are [Z] with the wrap-around of the
      store written out.
    - Browser objects (media elements, audio decoding, the canvas, the
      recorder) appear as explicit environment records whose fields give
      the outcomes the browser reports. *)

From Stdlib Require Import ZArith QArith Qround List String Ascii Lia Lqa Bool NArith.
From stdpp Require Import base list.
Import ListNotations.
Open Scope Z_scope.

(* ================================================================== *)
(** * JavaScript values used by the sources *)
(* ================================================================== *)

Module JS.

(** ** Numbers *)

Inductive number : Type :=
| NaN
| PInf
| NInf
| Fin (q : Q).

Definition ofZ (z : Z) : number := Fin (inject_Z z).

(** Equality of numbers up to the representation of the rational. *)
Definition eqv (a b : number) : Prop :=
  match a, b with
  | NaN, NaN | PInf, PInf | NInf, NInf => True
  | Fin x, Fin y => (x == y)%Q
  | _, _ => False
  end.

Definition Qltb (x y : Q) : bool := negb (Qle_bool y x).

Definition neg (a : number) : number :=
  match a with
  | NaN => NaN
  | PInf => NInf
  | NInf => PInf
  | Fin x => Fin (- x)
  end.

Definition add (a b : number) : number :=
  match a, b with
  | NaN, _ | _, NaN => NaN
  | PInf, NInf | NInf, PInf => NaN
  | PInf, _ | _, PInf => PInf
  | NInf, _ | _, NInf => NInf
  | Fin x, Fin y => Fin (x + y)
  end.

Definition sub (a b : number) : number := add a (neg b).

Definition inf_of_sign (c : comparison) (positive : number) : number :=
  match c with
  | Eq => NaN
  | Gt => positive
  | Lt => neg positive
  end.

Definition mul (a b : number) : number :=
  match a, b with
  | NaN, _ | _, NaN => NaN
  | Fin x, Fin y => Fin (x * y)
  | Fin x, PInf | PInf, Fin x => inf_of_sign (x ?= 0)%Q PInf
  | Fin x, NInf | NInf, Fin x => inf_of_sign (x ?= 0)%Q NInf
  | PInf, PInf | NInf, NInf => PInf
  | PInf, NInf | NInf, PInf => NInf
  end.

Definition div (a b : number) : number :=
  match a, b with
  | NaN, _ | _, NaN => NaN
  | Fin x, Fin y =>
      if Qeq_bool y 0 then inf_of_sign (x ?= 0)%Q PInf else Fin (x / y)
  | Fin _, PInf | Fin _, NInf => Fin 0
  | PInf, Fin y => if Qltb y 0 then NInf else PInf
  | NInf, Fin y => if Qltb y 0 then PInf else NInf
  | _, _ => NaN
  end.

(** [a < b]; false as soon as one side is NaN. *)
Definition ltb (a b : number) : bool :=
  match a, b with
  | NaN, _ | _, NaN => false
  | Fin x, Fin y => Qltb x y
  | NInf, NInf | PInf, PInf => false
  | NInf, _ => true
  | _, PInf => true
  | _, _ => false
  end.

(** [a === b] on numbers. *)
Definition eqb (a b : number) : bool :=
  match a, b with
  | Fin x, Fin y => Qeq_bool x y
  | PInf, PInf | NInf, NInf => true
  | _, _ => false
  end.

Definition gtb (a b : number) : bool := ltb b a.
Definition leb (a b : number) : bool := ltb a b || eqb a b.
Definition geb (a b : number) : bool := leb b a.

(** [Math.max] and [Math.min] of two arguments. *)
Definition Math_max (a b : number) : number :=
  match a, b with
  | NaN, _ | _, NaN => NaN
  | _, _ => if ltb a b then b else a
  end.

Definition Math_min (a b : number) : number :=
  match a, b with
  | NaN, _ | _, NaN => NaN
  | _, _ => if ltb b a then b else a
  end.

(** [Math.round]: the nearest integer, ties towards +Infinity. *)
Definition Math_round (a : number) : number :=
  match a with
  | Fin x => Fin (inject_Z (Qfloor (x + (1 # 2))))
  | _ => a
  end.

(** Truthiness of a number: [0] and NaN are falsy. *)
Definition truthy (a : number) : bool :=
  match a with
  | NaN => false
  | Fin x => negb (Qeq_bool x 0)
  | _ => true
  end.

(** The integer part, rounding towards zero. *)
Definition Qtrunc (x : Q) : Z := Z.quot (Qnum x) (Z.pos (Qden x)).

(** [ToInt16]: the conversion applied by a store into an [Int16Array]. *)
Definition ToInt16 (a : number) : Z :=
  match a with
  | Fin x =>
      let int16bit := (Qtrunc x) mod 65536 in
      if int16bit >=? 32768 then int16bit - 65536 else int16bit
  | _ => 0
  end.

(** ** Strings as UTF-16 code units *)

Definition jsstring : Type := list N.

(** Code points of a UTF-8 byte sequence of the Basic Multilingual Plane. *)
Fixpoint utf8_decode (bs : list N) : list N :=
  match bs with
  | [] => []
  | b0 :: rest =>
      if (b0 <? 128)%N then b0 :: utf8_decode rest
      else if (b0 <? 224)%N then
        match rest with
        | b1 :: rest' =>
            ((b0 - 192) * 64 + (b1 - 128))%N :: utf8_decode rest'
        | [] => []
        end
      else
        match rest with
        | b1 :: b2 :: rest' =>
            ((b0 - 224) * 4096 + (b1 - 128) * 64 + (b2 - 128))%N
              :: utf8_decode rest'
        | _ => []
        end
  end.

Definition lit (s : string) : jsstring :=
  utf8_decode (List.map N_of_ascii (list_ascii_of_string s)).

Fixpoint streq (a b : jsstring) : bool :=
  match a, b with
  | [], [] => true
  | x :: a', y :: b' => (x =? y)%N && streq a' b'
  | _, _ => false
  end.

(** Truthiness of a string: only the empty string is falsy. *)
Definition nonempty (s : jsstring) : bool :=
  match s with [] => false | _ => true end.

(** White space and line terminators: what [\s] matches and what
    [String.prototype.trim] strips. *)
Definition isWhiteSpace (c : N) : bool :=
  ((9 <=? c) && (c <=? 13) || (c =? 32) || (c =? 160) || (c =? 5760)
   || (8192 <=? c) && (c <=? 8202) || (c =? 8232) || (c =? 8233)
   || (c =? 8239) || (c =? 8287) || (c =? 12288) || (c =? 65279))%N.

(** [\d] without the unicode flag: the ten ASCII digits. *)
Definition isDigit (c : N) : bool := ((48 <=? c) && (c <=? 57))%N.

Fixpoint dropWhile (p : N -> bool) (s : jsstring) : jsstring :=
  match s with
  | [] => []
  | c :: s' => if p c then dropWhile p s' else s
  end.

Fixpoint takeWhile (p : N -> bool) (s : jsstring) : jsstring :=
  match s with
  | [] => []
  | c :: s' => if p c then c :: takeWhile p s' else []
  end.

Definition trim (s : jsstring) : jsstring :=
  rev (dropWhile isWhiteSpace (rev (dropWhile isWhiteSpace s))).

Fixpoint isPrefix (p s : jsstring) : bool :=
  match p, s with
  | [], _ => true
  | _ :: _, [] => false
  | a :: p', b :: s' => (a =? b)%N && isPrefix p' s'
  end.

(** [s.includes(needle)]. *)
Fixpoint includes (needle s : jsstring) : bool :=
  isPrefix needle s
  || match s with
     | [] => false
     | _ :: s' => includes needle s'
     end.

(** [s.toLowerCase()], on the letters A-Z; other code units are kept. *)
Definition toLowerCase (s : jsstring) : jsstring :=
  List.map (fun c => if ((65 <=? c) && (c <=? 90))%N then (c + 32)%N else c) s.

(** [s.split(sep)] for a non-empty string separator: [skip] counts the code
    units of a separator just matched that are still to be passed over,
    [cur] holds the current piece, last code unit first. *)
Fixpoint split_go (sep s : jsstring) (skip : nat) (cur : jsstring)
  : list jsstring :=
  match s with
  | [] => [rev cur]
  | c :: s' =>
      match skip with
      | S k => split_go sep s' k cur
      | O =>
          if isPrefix sep s
          then rev cur :: split_go sep s' (Nat.pred (List.length sep)) []
          else split_go sep s' O (c :: cur)
      end
  end.

Definition split (sep s : jsstring) : list jsstring := split_go sep s O [].

(** [s.split(/[...]/)] for a single-character class. *)
Fixpoint splitClass_go (isSep : N -> bool) (s : jsstring) (cur : jsstring)
  : list jsstring :=
  match s with
  | [] => [rev cur]
  | c :: s' =>
      if isSep c then rev cur :: splitClass_go isSep s' []
      else splitClass_go isSep s' (c :: cur)
  end.

Definition splitClass (isSep : N -> bool) (s : jsstring) : list jsstring :=
  splitClass_go isSep s [].

(** [pieces.join(sep)]. *)
Fixpoint join (sep : jsstring) (pieces : list jsstring) : jsstring :=
  match pieces with
  | [] => []
  | [p] => p
  | p :: rest => p ++ sep ++ join sep rest
  end.

(** [s.replace(/c/g, '')] for one code unit [c]. *)
Definition removeAll (c : N) (s : jsstring) : jsstring :=
  List.filter (fun d => negb (d =? c)%N) s.

Fixpoint digitsValue (acc : Z) (ds : jsstring) : Z :=
  match ds with
  | [] => acc
  | d :: ds' => digitsValue (10 * acc + (Z.of_N d - 48)) ds'
  end.

(** [parseInt(s, 10)]: leading white space, an optional sign, then the
    longest run of decimal digits; NaN when that run is empty. *)
Definition parseInt (s : jsstring) : number :=
  let s1 := dropWhile isWhiteSpace s in
  let '(negative, s2) :=
    match s1 with
    | c :: r =>
        if (c =? 45)%N then (true, r)
        else if (c =? 43)%N then (false, r)
        else (false, s1)
    | [] => (false, s1)
    end in
  match takeWhile isDigit s2 with
  | [] => NaN
  | ds => let v := digitsValue 0 ds in ofZ (if negative then - v else v)
  end.

(** [s.endsWith(suffix)]. *)
Definition endsWith (suffix s : jsstring) : bool :=
  isPrefix (rev suffix) (rev s).

(** ** Exceptions and completions *)

Inductive exnKind : Type :=
| SyntaxError
| TypeError
| RangeError
| DOMException
| PlainError.

(** A thrown value: the class it is an instance of and its [message]. *)
Record exn : Type := mkExn { kind : exnKind; message : jsstring }.

(** The outcome of running a piece of code: it completes with a value or
    throws. *)
Inductive completion (A : Type) : Type :=
| Normal (a : A)
| Throw (e : exn).

Arguments Normal {A} a.
Arguments Throw {A} e.

Definition bind {A B : Type} (m : completion A) (k : A -> completion B)
  : completion B :=
  match m with
  | Normal a => k a
  | Throw e => Throw e
  end.

(** [try { body } catch (e) { handler(e) }]. *)
Definition tryCatch {A : Type} (body : completion A) (handler : exn -> A) : A :=
  match body with
  | Normal a => a
  | Throw e => handler e
  end.

End JS.

Notation "x <- m ;; k" := (JS.bind m (fun x => k))
  (at level 100, m at next level, right associativity).

(* ================================================================== *)
(** * utils/fileUtils *)
(* ================================================================== *)

Module FileUtils.

Import JS.

(** ** ArrayBuffer, DataView and typed-array stores *)

(** The contents of an [ArrayBuffer]: one [Z] in [0, 256) per byte. *)
Definition ArrayBuffer_new (byteLength : Z) : list Z :=
  replicate (Z.to_nat byteLength) 0.

Definition outOfBounds : exn :=
  mkExn RangeError (lit "Offset is outside the bounds of the DataView").

(** The [k]-th byte of [v], least significant first. *)
Definition byteOf (v : Z) (k : Z) : Z := Z.land (Z.shiftr v (8 * k)) 255.

Definition setUint8 (view : list Z) (offset : nat) (v : Z)
  : completion (list Z) :=
  if (offset <? length view)%nat
  then Normal (<[offset := byteOf v 0]> view)
  else Throw outOfBounds.

Definition setUint16 (view : list Z) (offset : nat) (v : Z)
    (littleEndian : bool) : completion (list Z) :=
  if (offset + 2 <=? length view)%nat
  then
    let '(b0, b1) :=
      if littleEndian then (byteOf v 0, byteOf v 1)
      else (byteOf v 1, byteOf v 0) in
    Normal (<[S offset := b1]> (<[offset := b0]> view))
  else Throw outOfBounds.

Definition setUint32 (view : list Z) (offset : nat) (v : Z)
    (littleEndian : bool) : completion (list Z) :=
  if (offset + 4 <=? length view)%nat
  then
    let '(b0, b1, b2, b3) :=
      if littleEndian
      then (byteOf v 0, byteOf v 1, byteOf v 2, byteOf v 3)
      else (byteOf v 3, byteOf v 2, byteOf v 1, byteOf v 0) in
    Normal (<[S (S (S offset)) := b3]> (<[S (S offset) := b2]>
              (<[S offset := b1]> (<[offset := b0]> view))))
  else Throw outOfBounds.

(** [samples[i] = x] for [samples = new Int16Array(buffer, byteOffset, n)]:
    the element is stored in the byte order of the platform, taken to be
    little-endian. *)
Definition Int16Array_set (buffer : list Z) (byteOffset : nat) (i : nat)
    (x : number) : list Z :=
  let v := ToInt16 x in
  <[S (byteOffset + 2 * i) := byteOf v 1]>
    (<[(byteOffset + 2 * i)%nat := byteOf v 0]> buffer).

(** Helper to write strings to DataView *)
Fixpoint writeString (view : list Z) (offset : nat) (string : jsstring)
  : completion (list Z) :=
  match string with
  | [] => Normal view
  | c :: rest =>
      view' <- setUint8 view offset (Z.of_N c) ;;
      writeString view' (S offset) rest
  end.

(** ** AudioBuffer *)

Record AudioBuffer : Type := mkAudioBuffer {
  sampleRate : Z;
  bufferLength : nat;
  channels : list (list number)
}.

Definition numberOfChannels (b : AudioBuffer) : Z :=
  Z.of_nat (length (channels b)).

Definition duration (b : AudioBuffer) : number :=
  div (ofZ (Z.of_nat (bufferLength b))) (ofZ (sampleRate b)).

(** The invariants every [AudioBuffer] of the Web Audio API has. *)
Definition wfAudioBuffer (b : AudioBuffer) : Prop :=
  0 < sampleRate b /\ (0 < bufferLength b)%nat /\ channels b <> [] /\
  Forall (fun ch => length ch = bufferLength b) (channels b).

Definition indexSizeError : exn :=
  mkExn DOMException (lit "channel index exceeds number of channels").

Definition notSupportedError : exn :=
  mkExn DOMException (lit "value outside the nominal range").

Definition getChannelData (b : AudioBuffer) (c : nat)
  : completion (list number) :=
  match channels b !! c with
  | Some ch => Normal ch
  | None => Throw indexSizeError
  end.

(** [audioContext.createBuffer(numberOfChannels, length, sampleRate)]:
    zero-filled channels; arguments outside the nominal range throw. *)
Definition createBuffer (nChannels : nat) (len : Z) (rate : Z)
  : completion AudioBuffer :=
  if (1 <=? nChannels)%nat && (1 <=? len) && (0 <? rate)
  then Normal (mkAudioBuffer rate (Z.to_nat len)
                 (replicate nChannels (replicate (Z.to_nat len) (Fin 0))))
  else Throw notSupportedError.

(** [b.copyToChannel(source, channelNumber)]. *)
Definition copyToChannel (b : AudioBuffer) (source : list number)
    (channelNumber : nat) : completion AudioBuffer :=
  match channels b !! channelNumber with
  | Some ch =>
      let ch' := take (length ch) (source ++ drop (length source) ch) in
      Normal (mkAudioBuffer (sampleRate b) (bufferLength b)
                (<[channelNumber := ch']> (channels b)))
  | None => Throw indexSizeError
  end.

(** ** audioBufferToWav *)

(** [result[i * 2] = left[i]; result[i * 2 + 1] = right[i]] for every [i]
    below [left.length]; a missing [right[i]] is stored as NaN. *)
Fixpoint interleave (left right : list number) : list number :=
  match left with
  | [] => []
  | l :: left' => l :: hd NaN right :: interleave left' (tl right)
  end.

(** Clamp and scale to 16-bit integer *)
Definition scaleSample (x : number) : number :=
  let s := Math_max (ofZ (-1)) (Math_min (ofZ 1) x) in
  if ltb s (ofZ 0) then mul s (ofZ 32768) else mul s (ofZ 32767).

(** The loop [samples[i] = ...] over [result], from index [i] on. *)
Fixpoint writeSamples (wavBuffer : list Z) (headerSize : nat) (i : nat)
    (result : list number) : list Z :=
  match result with
  | [] => wavBuffer
  | x :: rest =>
      writeSamples (Int16Array_set wavBuffer headerSize i (scaleSample x))
        headerSize (S i) rest
  end.

(** The channel data that is serialized: both channels interleaved for a
    stereo buffer, channel 0 otherwise. *)
Definition wavResult (buffer : AudioBuffer) : completion (list number) :=
  if numberOfChannels buffer =? 2
  then
    left <- getChannelData buffer 0 ;;
    right <- getChannelData buffer 1 ;;
    Normal (interleave left right)
  else getChannelData buffer 0.

(** The bytes of [wavBuffer] when [audioBufferToWav] has filled it. *)
Definition wavBytes (buffer : AudioBuffer) : completion (list Z) :=
  let numChannels := numberOfChannels buffer in
  let sampleRate := sampleRate buffer in
  let format := 1 in
  let bitDepth := 16 in
  result <- wavResult buffer ;;
  let bytesPerSample := bitDepth / 8 in
  let blockAlign := numChannels * bytesPerSample in
  let byteRate := sampleRate * blockAlign in
  let dataSize := Z.of_nat (length result) * bytesPerSample in
  let headerSize := 44 in
  let wavBuffer := ArrayBuffer_new (headerSize + dataSize) in
  view <- writeString wavBuffer 0 (lit "RIFF") ;;
  view <- setUint32 view 4 (36 + dataSize) true ;;
  view <- writeString view 8 (lit "WAVE") ;;
  view <- writeString view 12 (lit "fmt ") ;;
  view <- setUint32 view 16 16 true ;;
  view <- setUint16 view 20 format true ;;
  view <- setUint16 view 22 numChannels true ;;
  view <- setUint32 view 24 sampleRate true ;;
  view <- setUint32 view 28 byteRate true ;;
  view <- setUint16 view 32 blockAlign true ;;
  view <- setUint16 view 34 bitDepth true ;;
  view <- writeString view 36 (lit "data") ;;
  view <- setUint32 view 40 dataSize true ;;
  Normal (writeSamples view (Z.to_nat headerSize) 0 result).

(** [String.fromCharCode] applied to a run of bytes. *)
Definition fromCharCode (bytes : list Z) : jsstring := List.map Z.to_N bytes.

Definition chunkSize : nat := Z.to_nat 8192.

(** The loop building [binary], one chunk of [chunkSize] bytes per turn;
    [fuel] bounds the number of turns. *)
Fixpoint binaryString (fuel : nat) (bytes : list Z) : jsstring :=
  match fuel with
  | O => []
  | S fuel' =>
      match bytes with
      | [] => []
      | _ => fromCharCode (take chunkSize bytes)
               ++ binaryString fuel' (drop chunkSize bytes)
      end
  end.

Definition base64Alphabet : jsstring :=
  lit "ABCDEFGHIJKLMNOPQRSTUVWXYZabcdefghijklmnopqrstuvwxyz0123456789+/".

Definition base64Char (v : N) : N := nth (N.to_nat v) base64Alphabet 61%N.

Fixpoint base64 (s : jsstring) : jsstring :=
  match s with
  | [] => []
  | [a] =>
      [base64Char (a / 4); base64Char ((a mod 4) * 16); 61; 61]%N
  | [a; b] =>
      [base64Char (a / 4); base64Char ((a mod 4) * 16 + b / 16);
       base64Char ((b mod 16) * 4); 61]%N
  | a :: b :: c :: rest =>
      [base64Char (a / 4); base64Char ((a mod 4) * 16 + b / 16);
       base64Char ((b mod 16) * 4 + c / 64); base64Char (c mod 64)]%N
        ++ base64 rest
  end.

Definition invalidCharacterError : exn :=
  mkExn DOMException (lit "The string to be encoded contains characters outside of the Latin1 range.").

(** [btoa(s)]. *)
Definition btoa (s : jsstring) : completion jsstring :=
  if forallb (fun c => (c <? 256)%N) s
  then Normal (base64 s)
  else Throw invalidCharacterError.

(** Convert AudioBuffer to WAV (16-bit PCM) base64 string *)
Definition audioBufferToWav (buffer : AudioBuffer) : completion jsstring :=
  bytes <- wavBytes buffer ;;
  btoa (binaryString (length bytes) bytes).

(** ** extractAudioFromVideo *)

Definition MAX_DURATION : Z := 120.

(** Average all channels *)
Definition mixSample (chs : list (list number)) (i : nat) : number :=
  let sum := fold_left (fun sum ch => add sum (nth i ch NaN)) chs (ofZ 0) in
  div sum (ofZ (Z.of_nat (length chs))).

(** Merge to mono if needed to further reduce size *)
Definition mergeToMono (audioBuffer : AudioBuffer) : completion AudioBuffer :=
  if 1 <? numberOfChannels audioBuffer
  then
    let len := bufferLength audioBuffer in
    newBuffer <- createBuffer 1 (Z.of_nat len) (sampleRate audioBuffer) ;;
    let outputData := List.map (mixSample (channels audioBuffer)) (seq 0 len) in
    copyToChannel newBuffer outputData 0
  else Normal audioBuffer.

(** Limit duration to 120 seconds *)
Definition truncateBuffer (monoBuffer : AudioBuffer) : completion AudioBuffer :=
  if gtb (duration monoBuffer) (ofZ MAX_DURATION)
  then
    let truncatedLength := MAX_DURATION * sampleRate monoBuffer in
    truncatedBuffer <- createBuffer 1 truncatedLength (sampleRate monoBuffer) ;;
    data <- getChannelData monoBuffer 0 ;;
    copyToChannel truncatedBuffer (take (Z.to_nat truncatedLength) data) 0
  else Normal monoBuffer.

(** The buffer handed to [audioBufferToWav]. *)
Definition normalizedBuffer (audioBuffer : AudioBuffer)
  : completion AudioBuffer :=
  monoBuffer <- mergeToMono audioBuffer ;;
  truncateBuffer monoBuffer.

(** [decoded] is what creating the 16 kHz audio context, reading the file
    and [decodeAudioData] yield: the decoded buffer, or the exception raised
    on the way.  The result is the base64 text, or [None] for [null]. *)
Definition extractAudioFromVideo (decoded : completion AudioBuffer)
  : completion (option jsstring) :=
  Normal (tryCatch
    (audioBuffer <- decoded ;;
     monoBuffer <- normalizedBuffer audioBuffer ;;
     wavBase64 <- audioBufferToWav monoBuffer ;;
     Normal (Some wavBase64))
    (fun e => None)).

(** ** extractVideoFrames *)

Record Frame : Type := mkFrame { data : jsstring; mimeType : jsstring }.

(** What the detached video element reports after [src] is set. *)
Inductive LoadOutcome : Type :=
| CanPlay
| LoadFailed (code : option N).

(** The browser side of a frame extraction: whether a 2d context exists,
    how loading ends, the intrinsic size and duration of the video, and the
    data URL the canvas yields after the [i]-th seek, to [time], has
    settled and the frame is drawn. *)
Record VideoEnv : Type := mkVideoEnv {
  hasContext : bool;
  loadOutcome : LoadOutcome;
  videoWidth : number;
  videoHeight : number;
  videoDuration : number;
  toDataURL : nat -> number -> jsstring
}.

(** The observable actions of a frame extraction, in program order. *)
Inductive FrameEvent : Type :=
| Seek (time : number)
| DrawImage (width height : number)
| Warn (time : number)
| Progress (progress : number)
| RevokeObjectURL.

Definition MAX_DIMENSION : number := ofZ 512.

(** Downscale logic: Limit max dimension to 512px *)
Definition canvasSize (width height : number) : number * number :=
  if gtb width MAX_DIMENSION || gtb height MAX_DIMENSION
  then
    let ratio := div width height in
    if gtb width height
    then (MAX_DIMENSION, Math_round (div MAX_DIMENSION ratio))
    else (Math_round (mul MAX_DIMENSION ratio), MAX_DIMENSION)
  else (width, height).

(** [dataUrl.split(',')[1]], [None] for [undefined]. *)
Definition base64Part (dataUrl : jsstring) : option jsstring :=
  split (lit ",") dataUrl !! 1%nat.

(** [!base64Data || base64Data.length < 100] *)
Definition nearEmpty (base64Data : option jsstring) : bool :=
  match base64Data with
  | None => true
  | Some d => negb (nonempty d) || (length d <? 100)%nat
  end.

Definition progressOf (i frameCount : nat) : number :=
  mul (div (ofZ (Z.of_nat i + 1)) (ofZ (Z.of_nat frameCount))) (ofZ 100).

(** The body of [for (let i = 0; i < frameCount; i++)], run for the
    indices [todo] in turn. *)
Fixpoint sampleFrames (env : VideoEnv) (frameCount : nat) (interval : number)
    (width height : number) (todo : list nat)
    (frames : list Frame) (log : list FrameEvent)
  : list Frame * list FrameEvent :=
  match todo with
  | [] => (frames, log)
  | i :: rest =>
      let time := mul (ofZ (Z.of_nat i)) interval in
      let log := log ++ [Seek time; DrawImage width height] in
      let dataUrl := toDataURL env i time in
      let base64Data := base64Part dataUrl in
      if nearEmpty base64Data
      then
        sampleFrames env frameCount interval width height rest frames
          (log ++ [Warn time; Progress (progressOf i frameCount)])
      else
        sampleFrames env frameCount interval width height rest
          (frames ++ [mkFrame (default [] base64Data) (lit "image/jpeg")])
          (log ++ [Progress (progressOf i frameCount)])
  end.

Definition loadErrorMessage (code : option N) : jsstring :=
  match code with
  | None => lit "Failed to load video file."
  | Some 1%N => lit "Video playback aborted."
  | Some 2%N => lit "A network error caused the video download to fail."
  | Some 3%N => lit "The video could not be decoded, possibly due to corruption or unsupported format."
  | Some 4%N => lit "The video source format is not supported."
  | Some _ => lit "An unknown error occurred while loading the video."
  end.

(** Video frame extraction helper: how the returned promise settles
    ([Normal] resolved, [Throw] rejected) and what was done on the way. *)
Definition extractVideoFrames (env : VideoEnv) (frameCount : nat)
  : completion (list Frame) * list FrameEvent :=
  if negb (hasContext env)
  then (Throw (mkExn PlainError (lit "Could not get canvas context.")), [])
  else
    match loadOutcome env with
    | LoadFailed code =>
        (Throw (mkExn PlainError (loadErrorMessage code)), [RevokeObjectURL])
    | CanPlay =>
        let '(width, height) :=
          canvasSize (videoWidth env) (videoHeight env) in
        let duration := videoDuration env in
        if negb (truthy duration) || eqb duration PInf
        then (Throw (mkExn PlainError
                       (lit "Could not determine video duration.")),
              [RevokeObjectURL])
        else
          let interval := div duration (ofZ (Z.of_nat frameCount)) in
          let '(frames, log) :=
            sampleFrames env frameCount interval width height
              (seq 0 frameCount) [] [] in
          (Normal frames, log ++ [RevokeObjectURL])
    end.

End FileUtils.

(* ================================================================== *)
(** * components/ShortsCreator *)
(* ================================================================== *)

Module ShortsCreator.

Import JS.

Definition FRAME_COUNT : nat := 10.

(** ** Data *)

Inductive Position : Type := top | middle | bottom.

Record Subtitle : Type := mkSubtitle {
  text : jsstring;
  start : number;
  end_ : number;
  fontSize : option number;
  position : option Position
}.

(** A value produced by [JSON.parse]. *)
#[warnings="-register-all"]
Inductive json : Type :=
| JNull
| JBool (b : bool)
| JNumber (n : number)
| JString (s : jsstring)
| JArray (items : list json)
| JObject (fields : list (jsstring * json)).

(** The object literal [{ text, start, end }] as a value. *)
Definition subtitleValue (s : Subtitle) : json :=
  JObject [(lit "text", JString (text s));
           (lit "start", JNumber (start s));
           (lit "end", JNumber (end_ s))].

(** [ClipAnalysis]: on the analysis path the parsed response is used as it
    is (a cast), so the elements of [subtitles] are kept as values. *)
Record ClipAnalysis : Type := mkClipAnalysis {
  startTime : number;
  endTime : number;
  subtitles : list json
}.

(** ** parseSrt *)

Definition isTimeSeparator (c : N) : bool :=
  ((c =? 58) || (c =? 44) || (c =? 46))%N.

Definition timeToSeconds (time : jsstring) : number :=
  (* Handle both comma (SRT standard) and dot (VTT/some SRT) separators *)
  let parts := splitClass isTimeSeparator time in
  if (length parts <? 3)%nat then ofZ 0
  else
    let h := parseInt (nth 0 parts []) in
    let m := parseInt (nth 1 parts []) in
    let s := parseInt (nth 2 parts []) in
    let ms :=
      match parts !! 3%nat with
      | Some p => if nonempty p then parseInt p else ofZ 0
      | None => ofZ 0
      end in
    add (add (add (mul h (ofZ 3600)) (mul m (ofZ 60))) s) (div ms (ofZ 1000)).

Definition isColon (c : N) : bool := (c =? 58)%N.
Definition isCommaOrDot (c : N) : bool := ((c =? 44) || (c =? 46))%N.

(** [\d{2}:\d{2}:\d{2}[,.]\d{3}], one class per code unit. *)
Definition stampPattern : list (N -> bool) :=
  [isDigit; isDigit; isColon; isDigit; isDigit; isColon; isDigit; isDigit;
   isCommaOrDot; isDigit; isDigit; isDigit].

(** Match a sequence of classes at the head of [s]: the matched code units
    and what follows. *)
Fixpoint matchClasses (pat : list (N -> bool)) (s : jsstring)
  : option (jsstring * jsstring) :=
  match pat with
  | [] => Some ([], s)
  | p :: pat' =>
      match s with
      | c :: s' =>
          if p c
          then match matchClasses pat' s' with
               | Some (m, r) => Some (c :: m, r)
               | None => None
               end
          else None
      | [] => None
      end
  end.

(** The whole pattern [(stamp)\s*-->\s*(stamp)] anchored at the head of
    [s]: the two captured groups. *)
Definition matchHere (s : jsstring) : option (jsstring * jsstring) :=
  match matchClasses stampPattern s with
  | Some (g1, r1) =>
      let r2 := dropWhile isWhiteSpace r1 in
      if isPrefix (lit "-->") r2
      then
        let r3 := dropWhile isWhiteSpace (drop 3 r2) in
        match matchClasses stampPattern r3 with
        | Some (g2, _) => Some (g1, g2)
        | None => None
        end
      else None
  | None => None
  end.

(** [line.match(/.../)]: the leftmost match, [None] for [null]. *)
Fixpoint timeMatch (line : jsstring) : option (jsstring * jsstring) :=
  match matchHere line with
  | Some g => Some g
  | None =>
      match line with
      | [] => None
      | _ :: line' => timeMatch line'
      end
  end.

(** One turn of [for (const block of blocks)]. *)
Definition parseBlock (subtitles : list Subtitle) (block : jsstring)
  : list Subtitle :=
  if negb (nonempty (trim block)) then subtitles
  else
    let lines := split (lit "
") block in
    if (3 <=? length lines)%nat
    then
      match timeMatch (nth 1 lines []) with
      | Some (g1, g2) =>
          let start := timeToSeconds g1 in
          let end_ := timeToSeconds g2 in
          let text := trim (join (lit " ") (drop 2 lines)) in
          if nonempty text
          then subtitles ++ [mkSubtitle text start end_ None None]
          else subtitles
      | None => subtitles
      end
    else subtitles.

(** Standardize line endings and split into blocks *)
Definition srtBlocks (srtText : jsstring) : list jsstring :=
  split (lit "

") (removeAll 13 srtText).

Definition parseSrt (srtText : jsstring) : list Subtitle :=
  fold_left parseBlock (srtBlocks srtText) [].

(** ** Component state *)

Record File : Type := mkFile {
  fileName : jsstring;
  (** what a video element loading this file reports: [Some d] when
      [loadedmetadata] fires with [duration = d], [None] when [error]
      fires *)
  fileMetadata : option number
}.

Definition ObjectURL : Type := nat.

Record State : Type := mkState {
  videoFile : option File;
  srtFile : option File;
  isLoading : bool;
  isRendering : bool;
  error : option jsstring;
  analysisResult : option ClipAnalysis;
  progressMessage : jsstring;
  videoPreviewUrl : option ObjectURL;
  activeSubtitle : option json;
  useDynamicStyling : bool;
  useFadeTransition : bool
}.

Definition setVideoFile (v : option File) (s : State) : State :=
  mkState v (srtFile s) (isLoading s) (isRendering s) (error s)
    (analysisResult s) (progressMessage s) (videoPreviewUrl s)
    (activeSubtitle s) (useDynamicStyling s) (useFadeTransition s).

Definition setSrtFile (v : option File) (s : State) : State :=
  mkState (videoFile s) v (isLoading s) (isRendering s) (error s)
    (analysisResult s) (progressMessage s) (videoPreviewUrl s)
    (activeSubtitle s) (useDynamicStyling s) (useFadeTransition s).

Definition setIsLoading (v : bool) (s : State) : State :=
  mkState (videoFile s) (srtFile s) v (isRendering s) (error s)
    (analysisResult s) (progressMessage s) (videoPreviewUrl s)
    (activeSubtitle s) (useDynamicStyling s) (useFadeTransition s).

Definition setIsRendering (v : bool) (s : State) : State :=
  mkState (videoFile s) (srtFile s) (isLoading s) v (error s)
    (analysisResult s) (progressMessage s) (videoPreviewUrl s)
    (activeSubtitle s) (useDynamicStyling s) (useFadeTransition s).

Definition setError (v : option jsstring) (s : State) : State :=
  mkState (videoFile s) (srtFile s) (isLoading s) (isRendering s) v
    (analysisResult s) (progressMessage s) (videoPreviewUrl s)
    (activeSubtitle s) (useDynamicStyling s) (useFadeTransition s).

Definition setAnalysisResult (v : option ClipAnalysis) (s : State) : State :=
  mkState (videoFile s) (srtFile s) (isLoading s) (isRendering s) (error s)
    v (progressMessage s) (videoPreviewUrl s)
    (activeSubtitle s) (useDynamicStyling s) (useFadeTransition s).

Definition setProgressMessage (v : jsstring) (s : State) : State :=
  mkState (videoFile s) (srtFile s) (isLoading s) (isRendering s) (error s)
    (analysisResult s) v (videoPreviewUrl s)
    (activeSubtitle s) (useDynamicStyling s) (useFadeTransition s).

Definition setVideoPreviewUrl (v : option ObjectURL) (s : State) : State :=
  mkState (videoFile s) (srtFile s) (isLoading s) (isRendering s) (error s)
    (analysisResult s) (progressMessage s) v
    (activeSubtitle s) (useDynamicStyling s) (useFadeTransition s).

Definition setActiveSubtitle (v : option json) (s : State) : State :=
  mkState (videoFile s) (srtFile s) (isLoading s) (isRendering s) (error s)
    (analysisResult s) (progressMessage s) (videoPreviewUrl s)
    v (useDynamicStyling s) (useFadeTransition s).

Definition setUseDynamicStyling (v : bool) (s : State) : State :=
  mkState (videoFile s) (srtFile s) (isLoading s) (isRendering s) (error s)
    (analysisResult s) (progressMessage s) (videoPreviewUrl s)
    (activeSubtitle s) v (useFadeTransition s).

Definition initialState : State :=
  mkState None None false false None None [] None None true true.

(** ** handleFileChange *)

(** The component together with the browser resources its handlers touch:
    the object URLs that are live, the next URL [createObjectURL] hands
    out, and the detached video elements whose metadata is still loading,
    each with the URL and the file its callbacks have captured. *)
Record World : Type := mkWorld {
  ui : State;
  objectUrls : list ObjectURL;
  nextUrl : ObjectURL;
  pendingLoads : list (ObjectURL * File)
}.

Definition withUi (f : State -> State) (w : World) : World :=
  mkWorld (f (ui w)) (objectUrls w) (nextUrl w) (pendingLoads w).

Definition revokeObjectURL (u : ObjectURL) (w : World) : World :=
  mkWorld (ui w) (List.filter (fun v => negb (Nat.eqb v u)) (objectUrls w))
    (nextUrl w) (pendingLoads w).

Definition tooShortMessage : jsstring :=
  lit "ویدیو برای ساخت کلیپ ۳۰ تا ۶۰ ثانیه‌ای بسیار کوتاه است. لطفاً ویدیویی با مدت زمان حداقل ۳۰ ثانیه انتخاب کنید.".

Definition loadFailedMessage : jsstring :=
  lit "خطا در بارگذاری فایل ویدیو. ممکن است فایل خراب یا فرمت آن پشتیبانی نشود.".

Definition handleFileChange (file : option File) (w : World) : World :=
  (* Reset everything first *)
  let w :=
    withUi (fun s =>
      setSrtFile None (setActiveSubtitle None (setError None
        (setAnalysisResult None (setVideoPreviewUrl None
          (setVideoFile None s)))))) w in
  match file with
  | Some f =>
      let videoUrl := nextUrl w in
      mkWorld (ui w) (videoUrl :: objectUrls w) (S videoUrl)
        (pendingLoads w ++ [(videoUrl, f)])
  | None => w
  end.

(** [videoElement.onloadedmetadata] of the element created for [file]. *)
Definition onloadedmetadata (videoUrl : ObjectURL) (file : File)
    (duration : number) (w : World) : World :=
  if ltb duration (ofZ 30)
  then revokeObjectURL videoUrl (withUi (setError (Some tooShortMessage)) w)
  else
    withUi (fun s => setVideoPreviewUrl (Some videoUrl)
                       (setVideoFile (Some file) s)) w.

(** [videoElement.onerror] of the element created for a file. *)
Definition onerror (videoUrl : ObjectURL) (w : World) : World :=
  revokeObjectURL videoUrl (withUi (setError (Some loadFailedMessage)) w).

(** The browser finishes loading the metadata of a pending element and
    fires the callback that applies. *)
Definition settle (p : ObjectURL * File) (w : World) : World :=
  let w :=
    mkWorld (ui w) (objectUrls w) (nextUrl w)
      (List.filter (fun q => negb (Nat.eqb (fst q) (fst p)))
         (pendingLoads w)) in
  match fileMetadata (snd p) with
  | Some duration => onloadedmetadata (fst p) (snd p) duration w
  | None => onerror (fst p) w
  end.

(** ** handleSrtFileChange *)

Definition notSrtMessage : jsstring :=
  lit "لطفاً یک فایل با فرمت .srt انتخاب کنید.".

Definition handleSrtFileChange (file : option File) (s : State) : State :=
  match file with
  | Some f =>
      if endsWith (lit ".srt") (toLowerCase (fileName f))
      then setError None (setUseDynamicStyling false (setSrtFile (Some f) s))
      else setSrtFile None (setError (Some notSrtMessage) s)
  | None => setSrtFile None s
  end.

(** ** handleSubmit *)

Record InlineData : Type := mkInlineData {
  inlineData : jsstring;
  inlineMimeType : jsstring
}.

(** The arguments of one call of [analyzeVideoForClipping]. *)
Record AnalysisRequest : Type := mkAnalysisRequest {
  reqFrames : list FileUtils.Frame;
  reqAudioData : option InlineData;
  reqSrtContent : option jsstring;
  reqDynamicStyling : bool
}.

(** What the collaborators of one submission yield: the text of the
    subtitle file, the decoded audio, the video element used for frame
    extraction, and the answer of the analysis service to a request. *)
Record SubmitEnv : Type := mkSubmitEnv {
  srtFileText : completion jsstring;
  decodedAudio : completion FileUtils.AudioBuffer;
  videoEnv : FileUtils.VideoEnv;
  analyzeVideoForClipping : AnalysisRequest -> completion jsstring
}.

(** The fields of a parsed object have distinct keys; [lookupField] finds
    the value of a key. *)
Fixpoint lookupField (key : jsstring) (fields : list (jsstring * json))
  : option json :=
  match fields with
  | [] => None
  | (k, v) :: rest => if streq k key then Some v else lookupField key rest
  end.

(** [value.key] for a parsed value and one of the keys [startTime],
    [endTime], [subtitles]: [Normal None] is [undefined]; reading a property
    of [null] throws. *)
Definition getProperty (value : json) (key : jsstring)
  : completion (option json) :=
  match value with
  | JNull =>
      Throw (mkExn TypeError
               (lit "Cannot read properties of null (reading '" ++ key
                  ++ lit "')"))
  | JObject fields => Normal (lookupField key fields)
  | _ => Normal None
  end.

(** [typeof v !== 'number'] *)
Definition notNumber (v : option json) : bool :=
  match v with
  | Some (JNumber _) => false
  | _ => true
  end.

(** [!Array.isArray(v)] *)
Definition notArray (v : option json) : bool :=
  match v with
  | Some (JArray _) => false
  | _ => true
  end.

Definition numberOf (v : option json) : number :=
  match v with
  | Some (JNumber n) => n
  | _ => NaN
  end.

Definition itemsOf (v : option json) : list json :=
  match v with
  | Some (JArray l) => l
  | _ => []
  end.

Definition invalidTimingMessage : jsstring :=
  lit "هوش مصنوعی ساختار داده نامعتبری را برای زمان‌بندی برگرداند.".

Definition invalidStructureMessage : jsstring :=
  lit "هوش مصنوعی ساختار داده نامعتبری را برگرداند.".

Definition invalidJsonMessage : jsstring :=
  lit "پاسخ JSON دریافت شده از هوش مصنوعی نامعتبر بود. لطفاً دوباره تلاش کنید.".

Definition payloadTooLargeMessage : jsstring :=
  lit "خطا در ارسال به API: حجم ویدیو یا صدا بیش از حد مجاز است. سیستم به طور خودکار صدا را کوتاه می‌کند، اما اگر مشکل ادامه داشت، لطفاً از ویدیوی کوتاه‌تری استفاده کنید.".

Definition internalErrorMessage : jsstring :=
  lit "یک خطای داخلی در سرور هوش مصنوعی رخ داد. لطفاً چند لحظه بعد دوباره تلاش کنید.".

Definition unknownErrorMessage : jsstring :=
  lit "خطای ناشناخته‌ای در حین تحلیل ویدیو رخ داد.".

(** [if (srtContent)]: the content is there and is not the empty string. *)
Definition hasSrt (srtContent : option jsstring) : bool :=
  match srtContent with
  | Some s => nonempty s
  | None => false
  end.

(** From the parsed response to the final result.  The operands of each
    [||] are read from left to right and only as far as needed. *)
Definition buildResult (srtContent : option jsstring) (partialResult : json)
  : completion ClipAnalysis :=
  if hasSrt srtContent
  then
    st <- getProperty partialResult (lit "startTime") ;;
    en <- (if notNumber st then Normal None
           else getProperty partialResult (lit "endTime")) ;;
    if notNumber st || notNumber en
    then Throw (mkExn PlainError invalidTimingMessage)
    else
      let subtitles := parseSrt (default [] srtContent) in
      Normal (mkClipAnalysis (numberOf st) (numberOf en)
                (List.map subtitleValue subtitles))
  else
    st <- getProperty partialResult (lit "startTime") ;;
    en <- (if notNumber st then Normal None
           else getProperty partialResult (lit "endTime")) ;;
    subs <- (if notNumber st || notNumber en then Normal None
             else getProperty partialResult (lit "subtitles")) ;;
    if notNumber st || notNumber en || notArray subs
    then Throw (mkExn PlainError invalidStructureMessage)
    else Normal (mkClipAnalysis (numberOf st) (numberOf en) (itemsOf subs)).

(** The [catch] clause of [handleSubmit]: the message shown for [err]. *)
Definition submitErrorMessage (err : exn) : jsstring :=
  match kind err with
  | SyntaxError => invalidJsonMessage
  | _ =>
      let m := message err in
      if includes (lit "Rpc failed") m || includes (lit "xhr error") m
         || includes (lit "400") m
      then payloadTooLargeMessage
      else if includes (lit "500") m
              || includes (lit "internal error") (toLowerCase m)
      then internalErrorMessage
      else if nonempty m then m else unknownErrorMessage
  end.

(** [srtContent]: the text of the subtitle file when there is one. *)
Definition readSrt (env : SubmitEnv) (s : State)
  : completion (option jsstring) :=
  match srtFile s with
  | Some _ => text <- srtFileText env ;; Normal (Some text)
  | None => Normal None
  end.

(** [audioWavBase64 ? { inlineData: ... } : null] *)
Definition audioDataOf (audioWavBase64 : option jsstring)
  : option InlineData :=
  match audioWavBase64 with
  | Some d => if nonempty d then Some (mkInlineData d (lit "audio/wav"))
              else None
  | None => None
  end.

Section Submit.

(** [JSON.parse]; it throws a [SyntaxError] on text that is not JSON. *)
Variable JSON_parse : jsstring -> completion json.

(** The [try] block of [handleSubmit] for the state [s]: its completion and
    the requests sent to the analysis service. *)
Definition submitBody (env : SubmitEnv) (s : State)
  : completion ClipAnalysis * list AnalysisRequest :=
  match readSrt env s with
  | Throw e => (Throw e, [])
  | Normal srtContent =>
      match FileUtils.extractAudioFromVideo (decodedAudio env) with
      | Throw e => (Throw e, [])
      | Normal audioWavBase64 =>
          let audioData := audioDataOf audioWavBase64 in
          match fst (FileUtils.extractVideoFrames (videoEnv env) FRAME_COUNT)
          with
          | Throw e => (Throw e, [])
          | Normal frames =>
              let request :=
                mkAnalysisRequest frames audioData srtContent
                  (useDynamicStyling s && negb (hasSrt srtContent)) in
              (resultText <- analyzeVideoForClipping env request ;;
               partialResult <- JSON_parse resultText ;;
               buildResult srtContent partialResult,
               [request])
          end
      end
  end.

(** The state after a submission has run to its end, and the requests it
    sent.  The progress messages shown on the way and the playback of the
    preview are left out. *)
Definition handleSubmit (env : SubmitEnv) (s : State)
  : State * list AnalysisRequest :=
  match videoFile s with
  | None => (s, [])
  | Some _ =>
      if isLoading s then (s, [])
      else
        let s := setAnalysisResult None (setError None (setIsLoading true s)) in
        let '(body, requests) := submitBody env s in
        let s :=
          match body with
          | Normal finalResult => setAnalysisResult (Some finalResult) s
          | Throw err => setError (Some (submitErrorMessage err)) s
          end in
        (setProgressMessage [] (setIsLoading false s), requests)
  end.

End Submit.

(** ** handleDownload *)

(** [if (!videoFile || !analysisResult || isRendering) return;] *)
Definition downloadStarts (s : State) : bool :=
  match videoFile s, analysisResult s with
  | Some _, Some _ => negb (isRendering s)
  | _, _ => false
  end.

(** Robust MimeType detection *)
Definition mimeTypes : list jsstring :=
  [lit "video/webm;codecs=vp9,opus";
   lit "video/webm;codecs=vp8,opus";
   lit "video/webm";
   lit "video/mp4"].

Definition selectMimeType (isTypeSupported : jsstring -> bool) : jsstring :=
  match List.find isTypeSupported mimeTypes with
  | Some type => type
  | None => lit "video/webm"
  end.





(** *** The fade of the render loop *)

Definition FADE_DURATION : number := Fin (3 # 4).

(** Alpha for Fade *)
Definition frameAlpha (useFadeTransition : bool)
    (currentTimeInClip clipDuration : number) : number :=
  if useFadeTransition
  then
    if ltb currentTimeInClip FADE_DURATION
    then div currentTimeInClip FADE_DURATION
    else if gtb currentTimeInClip (sub clipDuration FADE_DURATION)
    then div (sub clipDuration currentTimeInClip) FADE_DURATION
    else ofZ 1
  else ofZ 1.

(** [ctx.globalAlpha = v]: the canvas ignores a value that is not a finite
    number of [0, 1] and keeps the [current] one. *)
Definition setGlobalAlpha (current v : number) : number :=
  match v with
  | Fin x => if Qle_bool 0 x && Qle_bool x 1 then v else current
  | _ => current
  end.

(** The alpha with which the frame is drawn, on a canvas that enters every
    call of [render] with [globalAlpha = 1]:
    [ctx.globalAlpha = Math.max(0, Math.min(1, frameAlpha))]. *)
Definition appliedAlpha (useFadeTransition : bool)
    (currentTimeInClip clipDuration : number) : number :=
  let frameAlpha := frameAlpha useFadeTransition currentTimeInClip clipDuration in
  setGlobalAlpha (ofZ 1) (Math_max (ofZ 0) (Math_min (ofZ 1) frameAlpha)).

(** What one call of [render] does about the frame. *)
Inductive RenderStep : Type :=
| Skipped
| Stopped
| Drawn (globalAlpha : number).

(** One call of [render]: [rendering] is the [isRendering] the closure
    reads, [ended] is [videoElement.ended]. *)
Definition render (rendering fade ended : bool)
    (analysis : ClipAnalysis) (currentTime : number) : RenderStep :=
  if negb rendering then Skipped
  else
    let clipDuration := sub (endTime analysis) (startTime analysis) in
    let currentTimeInClip := sub currentTime (startTime analysis) in
    if geb currentTimeInClip clipDuration || ended then Stopped
    else Drawn (appliedAlpha fade currentTimeInClip clipDuration).

End ShortsCreator.

(* ================================================================== *)
(** * The PCM container format, as the specification words it *)
(* ================================================================== *)

Module WavFormat.

(** Little-endian unsigned fields, two's complement for negative values. *)
Definition u16le (v : Z) : list Z := [v mod 256; v / 256 mod 256].

Definition u32le (v : Z) : list Z :=
  [v mod 256; v / 256 mod 256; v / 65536 mod 256; v / 16777216 mod 256].

(** The bytes of a four-character tag. *)
Definition tag (s : string) : list Z :=
  List.map (fun c => Z.of_N (N_of_ascii c)) (list_ascii_of_string s).

(** The 44-byte header of section 6 of the specification. *)
Definition wavHeader (channelCount sampleRate dataSize : Z) : list Z :=
  tag "RIFF" ++ u32le (36 + dataSize) ++ tag "WAVE"
  ++ tag "fmt " ++ u32le 16 ++ u16le 1 ++ u16le channelCount
  ++ u32le sampleRate ++ u32le (sampleRate * (channelCount * 2))
  ++ u16le (channelCount * 2) ++ u16le 16
  ++ tag "data" ++ u32le dataSize.

(** Clamp to [-1, 1]; scale by 32768 when negative, by 32767 otherwise;
    keep the integer part. *)
Definition clamp (x : Q) : Q :=
  if JS.Qltb x (-1) then (-1)%Q else if JS.Qltb 1 x then 1%Q else x.

Definition pcm16 (x : Q) : Z :=
  let c := clamp x in
  JS.Qtrunc (if JS.Qltb c 0 then c * 32768 else c * 32767)%Q.







Definition isByte (b : Z) : Prop := 0 <= b < 256.



End WavFormat.

(* ================================================================== *)
(** * The mono mix, as the specification words it *)
(* ================================================================== *)

Module AudioSpec.




(** A stereo source at 1 Hz lasting 122 s. *)
Definition longStereo : FileUtils.AudioBuffer :=
  FileUtils.mkAudioBuffer 1 122
    [replicate 122 (JS.Fin 1); replicate 122 (JS.Fin (1 # 2))].

End AudioSpec.

(* ================================================================== *)
(** * Reading the log of a frame extraction *)
(* ================================================================== *)

Module SamplerSpec.

Import FileUtils.

(** The timestamps sought, in order. *)
Definition seekTimes (log : list FrameEvent) : list JS.number :=
  flat_map (fun ev => match ev with Seek t => [t] | _ => [] end) log.

(** The values passed to the progress callback, in order. *)
Definition progressValues (log : list FrameEvent) : list JS.number :=
  flat_map (fun ev => match ev with Progress p => [p] | _ => [] end) log.

(** The intended timestamp of frame [i] among [frameCount] frames of a
    source lasting [D] seconds. *)
Definition intendedTime (D : Q) (frameCount i : nat) : Q :=
  (inject_Z (Z.of_nat i) * (D / inject_Z (Z.of_nat frameCount)))%Q.

(** The progress after index [i]. *)
Definition percentAfter (frameCount i : nat) : Q :=
  (inject_Z (Z.of_nat i + 1) / inject_Z (Z.of_nat frameCount) * 100)%Q.

(** Whether the frame captured at index [i] is skipped as near-empty. *)
Definition skipped (env : VideoEnv) (D : Q) (frameCount i : nat) : bool :=
  nearEmpty
    (base64Part (toDataURL env i (JS.Fin (intendedTime D frameCount i)))).

(** What the loop does at index [i]. *)
Definition eventsAt (env : VideoEnv) (D : Q) (width height : JS.number)
    (frameCount i : nat) : list FrameEvent :=
  [Seek (JS.Fin (intendedTime D frameCount i)); DrawImage width height]
  ++ (if skipped env D frameCount i
      then [Warn (JS.Fin (intendedTime D frameCount i))] else [])
  ++ [Progress (JS.Fin (percentAfter frameCount i))].

(** A source of 40 s at 1280x720 whose canvas yields a payload of 120
    characters after each seek, except an empty one at index 3. *)
Definition sampleSource : VideoEnv :=
  mkVideoEnv true CanPlay (JS.ofZ 1280) (JS.ofZ 720) (JS.ofZ 40)
    (fun i _ =>
       JS.lit "data:image/jpeg;base64,"
       ++ (if Nat.eqb i 3 then [] else replicate 120 65%N)).

End SamplerSpec.

(* ================================================================== *)
(** * SRT timestamps and caption lists, as the specification words them *)
(* ================================================================== *)

Module SrtSpec.

Import JS ShortsCreator.

(** The value of a digit character. *)
Definition digit (c : N) : Z := Z.of_N c - 48.

(** The characters of a timestamp [HH:MM:SS,mmm] (or with a dot). *)
Record Stamp : Type := mkStamp {
  h1 : N; h2 : N; m1 : N; m2 : N; s1 : N; s2 : N;
  sep : N;
  f1 : N; f2 : N; f3 : N
}.

Definition stampText (st : Stamp) : jsstring :=
  [h1 st; h2 st; 58%N; m1 st; m2 st; 58%N; s1 st; s2 st; sep st;
   f1 st; f2 st; f3 st].

Definition wellFormed (st : Stamp) : Prop :=
  Forall (fun c => isDigit c = true)
    [h1 st; h2 st; m1 st; m2 st; s1 st; s2 st; f1 st; f2 st; f3 st]
  /\ (sep st = 44%N \/ sep st = 46%N).

(** [h * 3600 + m * 60 + s + ms / 1000] *)
Definition stampSeconds (st : Stamp) : Q :=
  (inject_Z (10 * digit (h1 st) + digit (h2 st)) * 3600
   + inject_Z (10 * digit (m1 st) + digit (m2 st)) * 60
   + inject_Z (10 * digit (s1 st) + digit (s2 st))
   + inject_Z (100 * digit (f1 st) + 10 * digit (f2 st) + digit (f3 st))
     / 1000)%Q.

Definition newline : jsstring := [10%N].

(** The example of the specification:
    ["1\n00:00:01,000 --> 00:00:02,500\nHello world\n\n"]. *)
Definition exampleSrt : jsstring :=
  lit "1" ++ newline ++ lit "00:00:01,000 --> 00:00:02,500" ++ newline
  ++ lit "Hello world" ++ newline ++ newline.

(** The example with a block in front whose timestamp line is malformed. *)
Definition malformedFirstSrt : jsstring :=
  lit "1" ++ newline ++ lit "00:00:01 -> 00:00:02" ++ newline
  ++ lit "dropped" ++ newline ++ newline ++ exampleSrt.

(** Two blocks, the later one first, the first one ending before it
    starts. *)
Definition unorderedSrt : jsstring :=
  lit "1" ++ newline ++ lit "00:00:05,000 --> 00:00:02,000" ++ newline
  ++ lit "later" ++ newline ++ newline
  ++ lit "2" ++ newline ++ lit "00:00:01,000 --> 00:00:03,000" ++ newline
  ++ lit "earlier" ++ newline.

(** A caption list is ordered by start time. *)
Fixpoint startsAscending (subs : list Subtitle) : bool :=
  match subs with
  | a :: ((b :: _) as rest) => leb (start a) (start b) && startsAscending rest
  | _ => true
  end.

(** The invariant [start < end] of a caption. *)
Definition validInterval (c : Subtitle) : bool := ltb (start c) (end_ c).

End SrtSpec.

(* ================================================================== *)
(** * The analysis response, as the specification words it *)
(* ================================================================== *)

Module ResponseSpec.

Import JS ShortsCreator.

Definition isArray (v : option json) : bool := negb (notArray v).


(** What [handleSubmit] checks: the same without the comparison of the
    two times. *)
Definition checked (srtSupplied : bool) (response : json) : bool :=
  match response with
  | JObject fields =>
      match lookupField (lit "startTime") fields,
            lookupField (lit "endTime") fields with
      | Some (JNumber _), Some (JNumber _) =>
          srtSupplied || isArray (lookupField (lit "subtitles") fields)
      | _, _ => false
      end
  | _ => false
  end.



(** A submission with a video of 40 s and no subtitle file, after which
    the service answers with some text. *)
Definition readyState : State :=
  setVideoFile (Some (mkFile (lit "clip.mp4") (Some (ofZ 40)))) initialState.

Definition silentVideo : FileUtils.VideoEnv :=
  FileUtils.mkVideoEnv true FileUtils.CanPlay (ofZ 1280) (ofZ 720) (ofZ 40)
    (fun _ _ => lit "data:,").

Definition undecodable : exn :=
  mkExn DOMException (lit "Unable to decode audio data").

Definition sampleEnv : SubmitEnv :=
  mkSubmitEnv (Normal []) (Throw undecodable) silentVideo
    (fun _ => Normal (lit "{}")).

(** An environment like [sampleEnv] whose video element fails to load. *)
Definition brokenVideoEnv : SubmitEnv :=
  mkSubmitEnv (Normal []) (Throw undecodable)
    (FileUtils.mkVideoEnv true (FileUtils.LoadFailed (Some 3%N))
       (ofZ 0) (ofZ 0) NaN (fun _ _ => []))
    (fun _ => Normal (lit "{}")).

End ResponseSpec.

(* ================================================================== *)
(** * Sessions of the component, and sample recorders *)
(* ================================================================== *)

Module Session.

Import JS ShortsCreator.

Definition initialWorld : World := mkWorld initialState [] 0%nat [].

Section Steps.

Variable JSON_parse : jsstring -> completion json.

(** What can happen to the component: a video is chosen, the metadata of
    a pending element settles, a subtitle file is chosen, the form is
    submitted. *)
Inductive step : World -> World -> Prop :=
| step_fileChange (file : option File) (w : World) :
    step w (handleFileChange file w)
| step_settle (p : ObjectURL * File) (w : World) :
    In p (pendingLoads w) -> step w (settle p w)
| step_srtFileChange (file : option File) (w : World) :
    step w (withUi (handleSrtFileChange file) w)
| step_submit (env : SubmitEnv) (w : World) :
    step w (withUi (fun s => fst (handleSubmit JSON_parse env s)) w).

Inductive reachable : World -> Prop :=
| reachable_initial : reachable initialWorld
| reachable_step (w w' : World) :
    reachable w -> step w w' -> reachable w'.

End Steps.

(** The file was reported with a duration that is not below 30 s. *)
Definition longEnough (f : File) : Prop :=
  exists d : number, fileMetadata f = Some d /\ ltb d (ofZ 30) = false.

Definition shortClip : File := mkFile (lit "short.mp4") (Some (ofZ 12)).
Definition longClip : File := mkFile (lit "long.mp4") (Some (ofZ 40)).



End Session.

(* ================================================================== *)
(** * utils/fileUtils: the audio decoding helpers *)
(* ================================================================== *)

Module Decoding.

Import JS FileUtils.

(** ** atob *)

(** ASCII white space, which [atob] removes before it decodes. *)
Definition isAsciiWhitespace (c : N) : bool :=
  ((c =? 9) || (c =? 10) || (c =? 12) || (c =? 13) || (c =? 32))%N.

Fixpoint indexOf (c : N) (s : jsstring) : option N :=
  match s with
  | [] => None
  | d :: s' =>
      if (c =? d)%N then Some 0%N else option_map N.succ (indexOf c s')
  end.

(** The position of a code unit in the base64 alphabet. *)
Definition sextetOf (c : N) : option N := indexOf c base64Alphabet.

Fixpoint sextetsOf (data : jsstring) : option (list N) :=
  match data with
  | [] => Some []
  | c :: data' =>
      match sextetOf c, sextetsOf data' with
      | Some v, Some vs => Some (v :: vs)
      | _, _ => None
      end
  end.

(** When the length is a multiple of four, one or two [=] at the end are
    removed. *)
Definition removePadding (data : jsstring) : jsstring :=
  if (length data mod 4 =? 0)%nat
  then
    match rev data with
    | c1 :: c2 :: r =>
        if (c1 =? 61)%N
        then if (c2 =? 61)%N then rev r else rev (c2 :: r)
        else data
    | _ => data
    end
  else data.

(** Six bits per character, eight bits per byte; the bits left over at the
    end (four after two characters, two after three) are dropped. *)
Fixpoint bytesOfSextets (vs : list N) : jsstring :=
  match vs with
  | s0 :: s1 :: s2 :: s3 :: rest =>
      (s0 * 4 + s1 / 16)%N :: ((s1 mod 16) * 16 + s2 / 4)%N
        :: ((s2 mod 4) * 64 + s3)%N :: bytesOfSextets rest
  | [s0; s1; s2] => [(s0 * 4 + s1 / 16)%N; ((s1 mod 16) * 16 + s2 / 4)%N]
  | [s0; s1] => [(s0 * 4 + s1 / 16)%N]
  | _ => []
  end.

Definition notCorrectlyEncoded : exn :=
  mkExn DOMException (lit "The string to be decoded is not correctly encoded.").

(** [atob(data)]: the forgiving base64 decoding of the platform. *)
Definition atob (data : jsstring) : completion jsstring :=
  let data := List.filter (fun c => negb (isAsciiWhitespace c)) data in
  let data := removePadding data in
  if (length data mod 4 =? 1)%nat then Throw notCorrectlyEncoded
  else
    match sextetsOf data with
    | Some vs => Normal (bytesOfSextets vs)
    | None => Throw notCorrectlyEncoded
    end.

(** ** decode *)

(** The loop [bytes[i] = binaryString.charCodeAt(i)] from index [i] on,
    [rest] being the code units from [i] on; a store into a [Uint8Array]
    keeps the value modulo 256. *)
Fixpoint fillBytes (rest : jsstring) (i : nat) (bytes : list Z) : list Z :=
  match rest with
  | [] => bytes
  | c :: rest' => fillBytes rest' (S i) (<[i := Z.of_N c mod 256]> bytes)
  end.

Definition decode (base64 : jsstring) : completion (list Z) :=
  binaryString <- atob base64 ;;
  let len := length binaryString in
  let bytes := replicate len 0 in
  Normal (fillBytes binaryString 0 bytes).

(** ** decodeAudioData *)

(** A 16-bit element read from two bytes, least significant first. *)
Definition int16At (b0 b1 : Z) : Z :=
  let u := b0 + 256 * b1 in
  if u >=? 32768 then u - 65536 else u.

Fixpoint int16Elements (bytes : list Z) : list Z :=
  match bytes with
  | b0 :: b1 :: rest => int16At b0 b1 :: int16Elements rest
  | _ => []
  end.

Definition oddByteLength : exn :=
  mkExn RangeError (lit "byte length of Int16Array should be a multiple of 2").

(** [new Int16Array(data.buffer)] for a [Uint8Array] that spans its buffer,
    as the one [decode] returns: the elements are read in the byte order of
    the platform, taken to be little-endian; a buffer of odd length is
    refused. *)
Definition Int16Array_new (buffer : list Z) : completion (list Z) :=
  if Nat.even (length buffer) then Normal (int16Elements buffer)
  else Throw oddByteLength.

(** The conversion of a number to an [unsigned long] argument. *)
Definition ToUint32 (a : number) : Z :=
  match a with
  | Fin x => Qtrunc x mod 4294967296
  | _ => 0
  end.

(** [dataInt16[k] / 32768.0]; a read past the end yields [undefined]. *)
Definition sampleAt (dataInt16 : list Z) (k : nat) : number :=
  match dataInt16 !! k with
  | Some v => div (ofZ v) (ofZ 32768)
  | None => NaN
  end.

(** The loop [for (let i = 0; i < frameCount; i++)] from index [i] on; a
    store past the end of the channel is ignored.  [fuel] bounds the number
    of turns. *)
Fixpoint fillChannel (dataInt16 : list Z) (numChannels channel : nat)
    (frameCount : number) (fuel i : nat) (channelData : list number)
  : list number :=
  match fuel with
  | O => channelData
  | S fuel' =>
      if ltb (ofZ (Z.of_nat i)) frameCount
      then
        fillChannel dataInt16 numChannels channel frameCount fuel' (S i)
          (<[i := sampleAt dataInt16 (i * numChannels + channel)]> channelData)
      else channelData
  end.

(** The channel data is a view of the buffer: what is stored into it is
    stored into the buffer. *)
Definition setChannelData (b : AudioBuffer) (channel : nat)
    (channelData : list number) : AudioBuffer :=
  mkAudioBuffer (sampleRate b) (bufferLength b)
    (<[channel := channelData]> (channels b)).

(** The loop over the channels [todo]. *)
Fixpoint fillChannels (dataInt16 : list Z) (numChannels : nat)
    (frameCount : number) (todo : list nat) (buffer : AudioBuffer)
  : completion AudioBuffer :=
  match todo with
  | [] => Normal buffer
  | channel :: rest =>
      channelData <- getChannelData buffer channel ;;
      fillChannels dataInt16 numChannels frameCount rest
        (setChannelData buffer channel
           (fillChannel dataInt16 numChannels channel frameCount
              (S (length dataInt16)) 0 channelData))
  end.

(** [numChannels] is a count, as the literal the callers pass. *)
Definition decodeAudioData (data : list Z) (sampleRate : Z)
    (numChannels : nat) : completion AudioBuffer :=
  dataInt16 <- Int16Array_new data ;;
  let frameCount :=
    div (ofZ (Z.of_nat (length dataInt16))) (ofZ (Z.of_nat numChannels)) in
  buffer <- createBuffer numChannels (ToUint32 frameCount) sampleRate ;;
  fillChannels dataInt16 numChannels frameCount (seq 0 numChannels) buffer.

End Decoding.

(* ================================================================== *)
(** * components/TextToSpeech *)
(* ================================================================== *)

Module TextToSpeech.

Import JS.

Record State : Type := mkState {
  text : jsstring;
  isLoading : bool;
  error : option jsstring;
  audioBuffer : option FileUtils.AudioBuffer
}.

Definition unknownSpeechError : jsstring :=
  lit "خطای ناشناخته‌ای در حین ساخت گفتار رخ داد.".

(** The [try] block of [handleSubmit]: [generateSpeech] is the answer of
    the speech service, [hasContext] tells whether [audioContextRef.current]
    is set.  [None] is the case in which no buffer is stored. *)
Definition speechBody (generateSpeech : jsstring -> completion jsstring)
    (hasContext : bool) (s : State)
  : completion (option FileUtils.AudioBuffer) :=
  base64Audio <- generateSpeech (text s) ;;
  audioBytes <- Decoding.decode base64Audio ;;
  if hasContext
  then
    buffer <- Decoding.decodeAudioData audioBytes 24000 1 ;;
    Normal (Some buffer)
  else Normal None.

(** The state after a submission has run to its end.  The playback, which
    the handler stops first, is left out. *)
Definition handleSubmit (generateSpeech : jsstring -> completion jsstring)
    (hasContext : bool) (s : State) : State :=
  if negb (nonempty (text s)) || isLoading s then s
  else
    let s := mkState (text s) true None None in
    let s :=
      match speechBody generateSpeech hasContext s with
      | Normal (Some buffer) =>
          mkState (text s) (isLoading s) (error s) (Some buffer)
      | Normal None => s
      | Throw err =>
          mkState (text s) (isLoading s)
            (Some (if nonempty (message err) then message err
                   else unknownSpeechError))
            (audioBuffer s)
      end in
    mkState (text s) false (error s) (audioBuffer s).

End TextToSpeech.

(* ================================================================== *)
(** * components/ShortsCreator: the preview *)
(* ================================================================== *)

Module Preview.

Import JS ShortsCreator.

(** [a || b] on the value of a property ([None] is [undefined]): the first
    operand when it is truthy. *)
Definition jsonTruthy (v : option json) : bool :=
  match v with
  | None | Some JNull => false
  | Some (JBool b) => b
  | Some (JNumber n) => truthy n
  | Some (JString s) => nonempty s
  | Some (JArray _) | Some (JObject _) => true
  end.

Definition isFinite (a : number) : bool :=
  match a with
  | Fin _ => true
  | _ => false
  end.

(** [video.currentTime = v] refuses a value that is not finite. *)
Definition nonFiniteTime : exn :=
  mkExn TypeError
    (lit "Failed to set the 'currentTime' property on 'HTMLMediaElement': The provided double value is non-finite.").

Section Lookup.

(** The conversions to a number that are left to the language: of the text
    of a string, and of an array or an object (through its [valueOf] and
    [toString], which may throw). *)
Variable StringToNumber : jsstring -> number.
Variable ArrayToNumber : list json -> completion number.
Variable ObjectToNumber : list (jsstring * json) -> completion number.

(** The operand of a comparison with a number. *)
Definition ToNumber (v : option json) : completion number :=
  match v with
  | None => Normal NaN
  | Some JNull => Normal (ofZ 0)
  | Some (JBool b) => Normal (if b then ofZ 1 else ofZ 0)
  | Some (JNumber n) => Normal n
  | Some (JString s) => Normal (StringToNumber s)
  | Some (JArray items) => ArrayToNumber items
  | Some (JObject fields) => ObjectToNumber fields
  end.

(** [sub => currentTime >= sub.start && currentTime <= sub.end] *)
Definition covers (currentTime : number) (sub : json) : completion bool :=
  st <- getProperty sub (lit "start") ;;
  st <- ToNumber st ;;
  if geb currentTime st
  then
    en <- getProperty sub (lit "end") ;;
    en <- ToNumber en ;;
    Normal (leb currentTime en)
  else Normal false.

(** [items.find(predicate)]: the first element the predicate holds of. *)
Fixpoint find (predicate : json -> completion bool) (items : list json)
  : completion (option json) :=
  match items with
  | [] => Normal None
  | item :: rest =>
      found <- predicate item ;;
      if found then Normal (Some item) else find predicate rest
  end.

Definition findSubtitle (currentTime : number) (subtitles : list json)
  : completion (option json) :=
  find (covers currentTime) subtitles.

(** One call of [handleTimeUpdate]: [video] is the playback position of
    the preview element ([None] when there is no element).  The result is
    the value assigned to [currentTime], if any, and how the call ends. *)
Definition handleTimeUpdate (video : option number) (s : State)
  : option number * completion State :=
  match video, analysisResult s with
  | Some currentTime, Some analysisResult =>
      (* Loop the clip *)
      let seeks :=
        geb currentTime (endTime analysisResult)
        || ltb currentTime (startTime analysisResult) in
      if seeks && negb (isFinite (startTime analysisResult))
      then (None, Throw nonFiniteTime)
      else
        (if seeks then Some (startTime analysisResult) else None,
         foundSubtitle <- findSubtitle currentTime (subtitles analysisResult) ;;
         Normal (setActiveSubtitle
                   (if jsonTruthy foundSubtitle then foundSubtitle else None)
                   s))
  | _, _ => (None, Normal (setActiveSubtitle None s))
  end.

End Lookup.

(** *** The style of the caption in the preview *)

Definition positionName (p : Position) : jsstring :=
  match p with
  | top => lit "top"
  | middle => lit "middle"
  | bottom => lit "bottom"
  end.

(** [activeSubtitle?.key] *)
Definition optionalProperty (activeSubtitle : option json) (key : jsstring)
  : option json :=
  match activeSubtitle with
  | Some (JObject fields) => lookupField key fields
  | _ => None
  end.

(** [(useDynamicStyling && activeSubtitle?.position)
     ? activeSubtitle.position : subtitlePosition] *)
Definition previewPosition (useDynamicStyling : bool)
    (activeSubtitle : option json) (subtitlePosition : Position) : json :=
  let own := optionalProperty activeSubtitle (lit "position") in
  if useDynamicStyling && jsonTruthy own
  then default JNull own
  else JString (positionName subtitlePosition).

(** [currentPreviewFontSize] *)
Definition currentPreviewFontSize (useDynamicStyling : bool)
    (activeSubtitle : option json) (fontSize : number) : json :=
  let own := optionalProperty activeSubtitle (lit "fontSize") in
  if useDynamicStyling && jsonTruthy own
  then default JNull own
  else JNumber fontSize.

End Preview.

(* ================================================================== *)
(** * components/ShortsCreator: the frames of the download *)
(* ================================================================== *)

Module RenderLoop.

Import JS ShortsCreator.

Definition RENDER_WIDTH : number := ofZ 720.
Definition RENDER_HEIGHT : number := ofZ 1280.

(** *** Ken Burns Effect *)

Definition ZOOM_AMOUNT : number := Fin (11 # 10).

Definition kenBurnsScale (useKenBurns : bool)
    (currentTimeInClip clipDuration : number) : number :=
  if useKenBurns
  then add (ofZ 1)
         (mul (sub ZOOM_AMOUNT (ofZ 1)) (div currentTimeInClip clipDuration))
  else ofZ 1.

(** *** Center Crop *)

(** The arguments of [ctx.drawImage(videoElement, sx, sy, sWidth, sHeight,
    dx, dy, destWidth, destHeight)]. *)
Record DrawImage : Type := mkDrawImage {
  sx : number; sy : number; sWidth : number; sHeight : number;
  dx : number; dy : number; destWidth : number; destHeight : number
}.

Definition drawArguments (videoWidth videoHeight scale : number)
  : DrawImage :=
  let videoAspect := div videoWidth videoHeight in
  let canvasAspect := div RENDER_WIDTH RENDER_HEIGHT in
  let '(sWidth, sHeight, sx, sy) :=
    if gtb videoAspect canvasAspect
    then
      let sWidth := mul videoHeight canvasAspect in
      (sWidth, videoHeight, div (sub videoWidth sWidth) (ofZ 2), ofZ 0)
    else
      let sHeight := div videoWidth canvasAspect in
      (videoWidth, sHeight, ofZ 0, div (sub videoHeight sHeight) (ofZ 2)) in
  let destWidth := mul RENDER_WIDTH scale in
  let destHeight := mul RENDER_HEIGHT scale in
  let dx := div (sub RENDER_WIDTH destWidth) (ofZ 2) in
  let dy := div (sub RENDER_HEIGHT destHeight) (ofZ 2) in
  mkDrawImage sx sy sWidth sHeight dx dy destWidth destHeight.

(** *** Draw Subtitles *)

Definition ANIMATION_DURATION : number := Fin (1 # 5).

(** [textScale] and [textAlpha] of a caption shown since
    [timeIntoSubtitle] seconds. *)
Definition captionAnimation (useSubtitleAnimation : bool)
    (timeIntoSubtitle : number) : number * number :=
  if useSubtitleAnimation && ltb timeIntoSubtitle ANIMATION_DURATION
  then
    let progress := div timeIntoSubtitle ANIMATION_DURATION in
    (add (Fin (4 # 5)) (mul (Fin (1 # 5)) progress), progress)
  else (ofZ 1, ofZ 1).

(** The alpha with which the caption is drawn; the alpha of the canvas was
    reset to 1 after the frame:
    [ctx.globalAlpha = Math.max(0, Math.min(1, frameAlpha * textAlpha))]. *)
Definition captionAlpha (frameAlpha textAlpha : number) : number :=
  setGlobalAlpha (ofZ 1)
    (Math_max (ofZ 0) (Math_min (ofZ 1) (mul frameAlpha textAlpha))).

(** [a === 'literal'] for the value of a property. *)
Definition isString (s : jsstring) (v : json) : bool :=
  match v with
  | JString t => streq t s
  | _ => false
  end.

(** [currentSub.position || subtitlePosition] *)
Definition currentPosition (currentSub : json) (subtitlePosition : Position)
  : json :=
  let own := Preview.optionalProperty (Some currentSub) (lit "position") in
  if Preview.jsonTruthy own then default JNull own
  else JString (Preview.positionName subtitlePosition).

(** [currentSub.fontSize || fontSize] *)
Definition currentFontSize (currentSub : json) (fontSize : number) : json :=
  let own := Preview.optionalProperty (Some currentSub) (lit "fontSize") in
  if Preview.jsonTruthy own then default JNull own else JNumber fontSize.

(** [yPos], the height at which the caption is drawn. *)
Definition captionY (currentPosition : json) : number :=
  let yPos := sub RENDER_HEIGHT (ofZ 100) in
  let yPos := if isString (lit "top") currentPosition then ofZ 120 else yPos in
  let yPos :=
    if isString (lit "middle") currentPosition
    then div RENDER_HEIGHT (ofZ 2) else yPos in
  yPos.

(** *** Progress *)

(** [Math.min(99, (currentTimeInClip / clipDuration) * 100)] *)
Definition renderProgress (currentTimeInClip clipDuration : number)
  : number :=
  Math_min (ofZ 99) (mul (div currentTimeInClip clipDuration) (ofZ 100)).

(** *** The end of the recording *)

(** [mediaRecorder.ondataavailable]: the sizes of the chunks kept. *)
Definition ondataavailable (chunks : list N) (size : N) : list N :=
  if (0 <? size)%N then chunks ++ [size] else chunks.

(** [new Blob(chunks).size] *)
Definition blobSize (chunks : list N) : N := fold_left N.add chunks 0%N.

Definition emptyFileMessage : jsstring :=
  lit "خطا در تولید فایل ویدیو: فایل خالی است.".

(** [mimeType.includes('mp4') ? 'mp4' : 'webm'] *)
Definition fileExtension (mimeType : jsstring) : jsstring :=
  if includes (lit "mp4") mimeType then lit "mp4" else lit "webm".

(** The decimal digits of a count of milliseconds, as a template literal
    prints it. *)
Fixpoint decimal_go (fuel : nat) (n : N) (acc : jsstring) : jsstring :=
  match fuel with
  | O => acc
  | S fuel' =>
      let acc := (48 + n mod 10)%N :: acc in
      if (n <? 10)%N then acc else decimal_go fuel' (n / 10)%N acc
  end.

Definition decimal (n : N) : jsstring := decimal_go (S (N.to_nat (N.log2 n))) n [].

(** What [mediaRecorder.onstop] does: it reports an empty file, or offers
    a file of [size] bytes for download under the name [download]. *)
Inductive StopOutcome : Type :=
| EmptyFile (errorMessage : jsstring)
| Offered (download : jsstring) (size : N).

Definition onstop (chunks : list N) (mimeType : jsstring) (now : N)
  : StopOutcome :=
  let size := blobSize chunks in
  if (size =? 0)%N then EmptyFile emptyFileMessage
  else
    let ext := fileExtension mimeType in
    Offered (lit "shorts-clip-" ++ decimal now ++ lit "." ++ ext) size.

End RenderLoop.

(* ================================================================== *)
(** * Reading the log of a frame extraction, and line endings *)
(* ================================================================== *)

Module FrameLog.

Import FileUtils.

(** The timestamps of the frames skipped with a warning, in order. *)
Definition warnings (log : list FrameEvent) : list JS.number :=
  flat_map (fun ev => match ev with Warn t => [t] | _ => [] end) log.

(** How often the object URL of the video was revoked. *)
Definition revocations (log : list FrameEvent) : nat :=
  length (flat_map (fun ev => match ev with
                              | RevokeObjectURL => [tt]
                              | _ => []
                              end) log).

End FrameLog.

Module SrtLines.

(** Windows line endings: a carriage return in front of every line
    feed. *)
Definition toCRLF (text : JS.jsstring) : JS.jsstring :=
  flat_map (fun c => if (c =? 10)%N then [13%N; 10%N] else [c]) text.

End SrtLines.

(* ================================================================== *)
(** * The resources of a session *)
(* ================================================================== *)

Module Selection.

Import JS ShortsCreator.

(** The component and the object URLs agree: the preview plays a URL that
    is live; a video file is held exactly when there is a preview; live
    URLs are distinct and were handed out earlier; every element that is
    still loading has a live URL of its own, which is not the one of the
    preview; the subtitle file, if any, is named [*.srt]. *)
Definition consistent (w : World) : Prop :=
  (forall u, videoPreviewUrl (ui w) = Some u -> In u (objectUrls w)) /\
  (videoFile (ui w) = None <-> videoPreviewUrl (ui w) = None) /\
  NoDup (objectUrls w) /\
  (forall u, In u (objectUrls w) -> (u < nextUrl w)%nat) /\
  (forall p, In p (pendingLoads w) ->
             In (fst p) (objectUrls w) /\
             videoPreviewUrl (ui w) <> Some (fst p)) /\
  NoDup (List.map fst (pendingLoads w)) /\
  (forall f, srtFile (ui w) = Some f ->
             endsWith (lit ".srt") (toLowerCase (fileName f)) = true).

(** A service that answers every request with the same window. *)
Definition fixedAnswer (text : jsstring) : completion json :=
  Normal (JObject [(lit "startTime", JNumber (ofZ 10));
                   (lit "endTime", JNumber (ofZ 20));
                   (lit "subtitles", JArray [])]).

End Selection.

(* ================================================================== *)
(** * services/geminiService: the request of the clip analysis *)
(* ================================================================== *)

Module GeminiService.

Import JS ShortsCreator.

(** The [Type] of a schema node. *)
Inductive SchemaType : Type := STRING | NUMBER | ARRAY | OBJECT.

(** A schema literal: its type, its description, and, where given, the
    properties with the list of those required, or the schema of the
    items. *)
#[warnings="-register-all"]
Inductive Schema : Type :=
| mkSchema (type : SchemaType) (description : option jsstring)
    (properties : list (jsstring * Schema)) (required : list jsstring)
    (items : option Schema).

Definition type (s : Schema) : SchemaType :=
  match s with mkSchema t _ _ _ _ => t end.
Definition properties (s : Schema) : list (jsstring * Schema) :=
  match s with mkSchema _ _ p _ _ => p end.
Definition required (s : Schema) : list jsstring :=
  match s with mkSchema _ _ _ r _ => r end.
Definition items (s : Schema) : option Schema :=
  match s with mkSchema _ _ _ _ i => i end.

(** [{ type, description }] *)
Definition leaf (t : SchemaType) (description : string) : Schema :=
  mkSchema t (Some (lit description)) [] [] None.

Definition subtitleProperties (useDynamicStyling : bool)
  : list (jsstring * Schema) :=
  [(lit "text", leaf STRING "متن زیرنویس.");
   (lit "start", leaf NUMBER "زمان شروع زیرنویس به ثانیه.");
   (lit "end", leaf NUMBER "زمان پایان زیرنویس به ثانیه.")]
  ++ (if useDynamicStyling
      then [(lit "fontSize", leaf NUMBER "اندازه فونت پیشنهادی برای تاکید (مثلاً بین ۴۸ تا ۶۴).");
            (lit "position", leaf STRING "موقعیت پیشنهادی ('top', 'middle', 'bottom') برای جلوگیری از پوشاندن عناصر مهم.")]
      else []).

Definition requiredSubtitleProperties : list jsstring :=
  [lit "text"; lit "start"; lit "end"].

Definition srtPrompt (srtContent : jsstring) : jsstring :=
  lit "این ویدیو را به همراه زیرنویس‌های ارائه شده تحلیل کرده و جذاب‌ترین و وایرال‌ترین بخش آن را که بین ۳۰ تا ۶۰ ثانیه است، شناسایی کنید.
زیرنویس‌ها به شرح زیر است:
---
" ++ srtContent ++ lit "
---
زمان شروع و پایان کلیپ را بر اساس محتوای زیرنویس و جذابیت بصری/صوتی ویدیو انتخاب کنید.".

Definition dynamicPrompt : jsstring :=
  lit "این ویدیو (تصویر و صدا) را تحلیل کرده و جذاب‌ترین بخش آن (بین ۳۰ تا ۶۰ ثانیه) را برای یک Short انتخاب کنید. گفتار را با دقت رونویسی کرده و به صورت زیرنویس فارسی با زمان‌بندی دقیق ارائه دهید. برای هر زیرنویس، یک استایل پویا پیشنهاد دهید:
- `fontSize`: برای تاکید بر کلمات هیجان‌انگیز یا مهم، اندازه فونت را بزرگتر کنید.
- `position`: موقعیت ('top', 'middle', 'bottom') را برای جلوگیری از پوشاندن چهره‌ها یا عناصر کلیدی در ویدیو تغییر دهید.".

Definition plainPrompt : jsstring :=
  lit "این ویدیو (تصویر و صدا) را تحلیل کرده و جذاب‌ترین و وایرال‌ترین بخش آن را که بین ۳۰ تا ۶۰ ثانیه است، شناسایی کنید. همزمان، گفتار ویدیو را رونویسی کرده و به صورت زیرنویس فارسی با زمان‌بندی دقیق ارائه دهید.".

Definition prompt (srtContent : option jsstring) (useDynamicStyling : bool)
  : jsstring :=
  if hasSrt srtContent then srtPrompt (default [] srtContent)
  else if useDynamicStyling then dynamicPrompt else plainPrompt.

Definition timeProperties : list (jsstring * Schema) :=
  [(lit "startTime", leaf NUMBER "زمان شروع کلیپ به ثانیه.");
   (lit "endTime", leaf NUMBER "زمان پایان کلیپ به ثانیه.")].

Definition schema (srtContent : option jsstring) (useDynamicStyling : bool)
  : Schema :=
  if hasSrt srtContent
  then mkSchema OBJECT None timeProperties [lit "startTime"; lit "endTime"]
         None
  else
    mkSchema OBJECT None
      (timeProperties
       ++ [(lit "subtitles",
            mkSchema ARRAY (Some (lit "آرایه‌ای از اشیاء زیرنویس برای کلیپ شناسایی شده.")) [] []
              (Some (mkSchema OBJECT None
                       (subtitleProperties useDynamicStyling)
                       requiredSubtitleProperties None)))])
      [lit "startTime"; lit "endTime"; lit "subtitles"]
      None.

(** A part of the content sent: the prompt, a frame or the audio. *)
Inductive Part : Type :=
| TextPart (text : jsstring)
| InlinePart (data : jsstring) (mimeType : jsstring).

(** The call [ai.models.generateContent] of [analyzeVideoForClipping]. *)
Record GenerateContent : Type := mkGenerateContent {
  model : jsstring;
  parts : list Part;
  responseMimeType : jsstring;
  responseSchema : Schema
}.

Definition clippingRequest (request : AnalysisRequest) : GenerateContent :=
  let videoFrames := reqFrames request in
  let audioData := reqAudioData request in
  let srtContent := reqSrtContent request in
  let useDynamicStyling := reqDynamicStyling request in
  let textPart := TextPart (prompt srtContent useDynamicStyling) in
  let parts :=
    textPart
    :: List.map (fun f => InlinePart (FileUtils.data f) (FileUtils.mimeType f))
         videoFrames in
  let parts :=
    match audioData with
    | Some a => parts ++ [InlinePart (inlineData a) (inlineMimeType a)]
    | None => parts
    end in
  mkGenerateContent (lit "gemini-2.5-flash") parts (lit "application/json")
    (schema srtContent useDynamicStyling).

(** *** Reading a schema *)

Fixpoint lookupSchema (key : jsstring) (props : list (jsstring * Schema))
  : option Schema :=
  match props with
  | [] => None
  | (k, v) :: rest => if streq k key then Some v else lookupSchema key rest
  end.

(** The value has the type a schema node names. *)
Definition hasType (t : SchemaType) (v : option json) : bool :=
  match t, v with
  | STRING, Some (JString _) => true
  | NUMBER, Some (JNumber _) => true
  | ARRAY, Some (JArray _) => true
  | OBJECT, Some (JObject _) => true
  | _, _ => false
  end.

(** The response is an object that holds every required property of the
    schema with the type declared for it. *)
Definition meetsRequired (s : Schema) (response : json) : bool :=
  match response with
  | JObject fields =>
      forallb (fun key =>
                 match lookupSchema key (properties s) with
                 | Some p => hasType (type p) (lookupField key fields)
                 | None => false
                 end)
        (required s)
  | _ => false
  end.

End GeminiService.

(* ================================================================== *)
(** * components/VideoAnalyzer *)
(* ================================================================== *)

Module VideoAnalyzer.

Import JS.

Definition FRAME_COUNT : nat := 16.

Record State : Type := mkState {
  videoFile : option ShortsCreator.File;
  prompt : jsstring;
  isLoading : bool;
  error : option jsstring;
  analysisResult : option jsstring;
  progressMessage : jsstring;
  videoPreviewUrl : option ShortsCreator.ObjectURL
}.

(** The component together with the object URLs that are live and the next
    URL [createObjectURL] hands out. *)
Record World : Type := mkWorld {
  ui : State;
  objectUrls : list ShortsCreator.ObjectURL;
  nextUrl : ShortsCreator.ObjectURL
}.

Definition handleFileChange (file : option ShortsCreator.File) (w : World)
  : World :=
  match file with
  | Some f =>
      let url := nextUrl w in
      let s := ui w in
      mkWorld
        (mkState (Some f) (prompt s) (isLoading s) None None
           (progressMessage s) (Some url))
        (url :: objectUrls w) (S url)
  | None => w
  end.

Definition unknownAnalysisError : jsstring :=
  lit "خطای ناشناخته‌ای در حین تحلیل ویدیو رخ داد.".

(** The state after a submission has run to its end, and the calls of
    [analyzeVideo] it made, each with its prompt and its frames.  The
    progress messages shown on the way are left out. *)
Definition handleSubmit (videoEnv : FileUtils.VideoEnv)
    (analyzeVideo : jsstring -> list FileUtils.Frame -> completion jsstring)
    (s : State) : State * list (jsstring * list FileUtils.Frame) :=
  match videoFile s with
  | None => (s, [])
  | Some _ =>
      if negb (nonempty (prompt s)) || isLoading s then (s, [])
      else
        let '(body, calls) :=
          match fst (FileUtils.extractVideoFrames videoEnv FRAME_COUNT) with
          | Throw e => (Throw e, [])
          | Normal frames =>
              (analyzeVideo (prompt s) frames, [(prompt s, frames)])
          end in
        let '(error, analysisResult) :=
          match body with
          | Normal result => (None, Some result)
          | Throw err =>
              (Some (if nonempty (message err) then message err
                     else unknownAnalysisError),
               None)
          end in
        (mkState (videoFile s) (prompt s) false error analysisResult []
           (videoPreviewUrl s),
         calls)
  end.

End VideoAnalyzer.

(* ================================================================== *)
(** * Proofs: comparisons of numbers *)
(* ================================================================== *)

Section NumberFacts.

Import JS.

Lemma Qltb_lt (x y : Q) : Qltb x y = true <-> (x < y)%Q.
Proof.
  unfold Qltb. rewrite negb_true_iff.
  split.
  - intros H. apply Qnot_le_lt. intros Hle.
    apply Qle_bool_iff in Hle. congruence.
  - intros H. destruct (Qle_bool y x) eqn:E; [|reflexivity].
    apply Qle_bool_iff in E. exfalso. apply (Qlt_not_le _ _ H E).
Qed.

Lemma Qltb_ge (x y : Q) : Qltb x y = false <-> (y <= x)%Q.
Proof.
  unfold Qltb. rewrite negb_false_iff. apply Qle_bool_iff.
Qed.

Lemma ltb_Fin (x y : Q) : ltb (Fin x) (Fin y) = Qltb x y.
Proof. reflexivity. Qed.

Lemma geb_Fin (x y : Q) : geb (Fin x) (Fin y) = true <-> (y <= x)%Q.
Proof.
  unfold geb, leb, eqb, ltb. rewrite orb_true_iff, Qltb_lt, Qeq_bool_iff.
  split.
  - intros [H|H]; [apply Qlt_le_weak; exact H | rewrite H; apply Qle_refl].
  - intros H. apply Qle_lt_or_eq in H. tauto.
Qed.


End NumberFacts.

(* ================================================================== *)
(** * Proofs: the WAV serializer *)
(* ================================================================== *)

Section WavProofs.

Import JS FileUtils WavFormat.

Lemma byteOf_div (v k : Z) : 0 <= k -> byteOf v k = v / 2 ^ (8 * k) mod 256.
Proof.
  intros Hk. unfold byteOf.
  change 255 with (Z.ones 8).
  rewrite Z.land_ones by lia.
  rewrite Z.shiftr_div_pow2 by lia.
  reflexivity.
Qed.

Lemma byteOf_0 v : byteOf v 0 = v mod 256.
Proof. rewrite byteOf_div by lia. change (2 ^ (8 * 0)) with 1. now rewrite Z.div_1_r. Qed.

Lemma byteOf_1 v : byteOf v 1 = v / 256 mod 256.
Proof. now rewrite byteOf_div by lia. Qed.

Lemma byteOf_2 v : byteOf v 2 = v / 65536 mod 256.
Proof. now rewrite byteOf_div by lia. Qed.

Lemma byteOf_3 v : byteOf v 3 = v / 16777216 mod 256.
Proof. now rewrite byteOf_div by lia. Qed.

Lemma byteOf_range v k : 0 <= k -> 0 <= byteOf v k < 256.
Proof. intros Hk. rewrite byteOf_div by lia. apply Z.mod_pos_bound. lia. Qed.

(** The thirteen header stores on a buffer of at least 44 bytes, followed
    by whatever comes next. *)
Lemma header_stores {A : Type} (numChannels rate size : Z) (rest : list Z)
    (k : list Z -> completion A) :
  (view <- writeString (replicate 44 0 ++ rest) 0 (lit "RIFF") ;;
   view <- setUint32 view 4 (36 + size) true ;;
   view <- writeString view 8 (lit "WAVE") ;;
   view <- writeString view 12 (lit "fmt ") ;;
   view <- setUint32 view 16 16 true ;;
   view <- setUint16 view 20 1 true ;;
   view <- setUint16 view 22 numChannels true ;;
   view <- setUint32 view 24 rate true ;;
   view <- setUint32 view 28 (rate * (numChannels * 2)) true ;;
   view <- setUint16 view 32 (numChannels * 2) true ;;
   view <- setUint16 view 34 16 true ;;
   view <- writeString view 36 (lit "data") ;;
   view <- setUint32 view 40 size true ;;
   k view)
  = k (wavHeader numChannels rate size ++ rest).
Proof.
  repeat match goal with
         | |- context [lit ?s] =>
             let v := eval vm_compute in (lit s) in change (lit s) with v
         end.
  cbn -[byteOf Z.mul Z.add Z.div Z.modulo].
  rewrite !byteOf_0, !byteOf_1, !byteOf_2, !byteOf_3.
  reflexivity.
Qed.

(** Filling the data chunk: every sample lands as two bytes, low byte
    first, right after what has been written so far. *)
Lemma writeSamples_fill (result : list number) :
  forall (pre post : list Z) (i : nat),
    length pre = (44 + 2 * i)%nat ->
    length post = (2 * length result)%nat ->
    writeSamples (pre ++ post) 44 i result
    = pre ++ flat_map (fun x => u16le (ToInt16 (scaleSample x))) result.
Proof.
  induction result as [|x result IH]; intros pre post i Hpre Hpost.
  - destruct post; [|discriminate]. reflexivity.
  - destruct post as [|z0 [|z1 post]]; simpl in Hpost; try lia.
    simpl writeSamples. unfold Int16Array_set.
    rewrite <- Hpre.
    replace (length pre) with (length pre + 0)%nat at 2 by lia.
    rewrite insert_app_r. simpl.
    replace (S (length pre)) with (length pre + 1)%nat by lia.
    rewrite insert_app_r. simpl.
    rewrite byteOf_0, byteOf_1.
    change (pre ++ ?a :: ?b :: post) with (pre ++ [a; b] ++ post).
    rewrite app_assoc.
    rewrite IH.
    + rewrite <- app_assoc. reflexivity.
    + rewrite length_app. simpl. lia.
    + lia.
Qed.




(** *** Numbers *)

Lemma Qtrunc_floor (x : Q) :
  Qtrunc x = if 0 <=? Qnum x then Qfloor x else - Qfloor (- x).
Proof.
  destruct x as [n d]. unfold Qtrunc, Qfloor. simpl.
  destruct (Z.leb_spec 0 n) as [Hn|Hn].
  - apply Z.quot_div_nonneg; lia.
  - rewrite <- (Z.quot_div_nonneg (- n) (Z.pos d)) by lia.
    rewrite Z.quot_opp_l by lia. lia.
Qed.

Lemma Qnum_sign (x : Q) : (0 <=? Qnum x) = true <-> (0 <= x)%Q.
Proof.
  destruct x as [n d]. unfold Qle. simpl. rewrite Z.leb_le. lia.
Qed.

Lemma Qtrunc_comp (x y : Q) : (x == y)%Q -> Qtrunc x = Qtrunc y.
Proof.
  intros E. rewrite !Qtrunc_floor.
  assert (Hs : (0 <=? Qnum x) = (0 <=? Qnum y)).
  { apply eq_true_iff_eq. rewrite !Qnum_sign. now rewrite E. }
  rewrite Hs. destruct (0 <=? Qnum y).
  - now rewrite E.
  - now rewrite E.
Qed.

Lemma Qtrunc_between (lo hi : Z) (x : Q) :
  lo <= 0 <= hi -> (inject_Z lo <= x)%Q -> (x <= inject_Z hi)%Q ->
  lo <= Qtrunc x <= hi.
Proof.
  intros Hz Hlo Hhi. rewrite Qtrunc_floor.
  destruct (0 <=? Qnum x) eqn:E.
  - apply Qnum_sign in E.
    pose proof (Qfloor_resp_le _ _ E) as H0.
    pose proof (Qfloor_resp_le _ _ Hhi) as H1.
    rewrite Qfloor_Z in H1. change (Qfloor 0) with 0 in H0. lia.
  - assert (Hneg : (x < 0)%Q).
    { apply Qnot_le_lt. intros H. apply Qnum_sign in H. congruence. }
    assert (H0 : (0 <= - x)%Q) by lra.
    assert (H1 : (- x <= inject_Z (- lo))%Q).
    { rewrite inject_Z_opp. lra. }
    apply Qfloor_resp_le in H0, H1.
    rewrite Qfloor_Z in H1. change (Qfloor 0) with 0 in H0. lia.
Qed.

Lemma ToInt16_small (y : Q) :
  -32768 <= Qtrunc y <= 32767 -> ToInt16 (Fin y) = Qtrunc y.
Proof.
  intros H. unfold ToInt16.
  destruct (Z.leb_spec 0 (Qtrunc y)) as [Hp|Hn].
  - rewrite Z.mod_small by lia.
    destruct (Z.geb_spec (Qtrunc y) 32768); lia.
  - replace (Qtrunc y mod 65536) with (Qtrunc y + 65536).
    + destruct (Z.geb_spec (Qtrunc y + 65536) 32768); lia.
    + apply Z.mod_unique with (q := -1); lia.
Qed.

Lemma clamp_range (q : Q) : (-1 <= clamp q <= 1)%Q.
Proof.
  unfold clamp.
  destruct (Qltb q (-1)) eqn:E1; [lra|].
  destruct (Qltb 1 q) eqn:E2; [lra|].
  apply Qltb_ge in E1, E2. lra.
Qed.

(** The clamp-and-scale of the source computes the value the
    specification words, on every finite sample. *)
Lemma scaleSample_finite (q : Q) :
  exists y, scaleSample (Fin q) = Fin y /\
    (y == if Qltb (clamp q) 0 then clamp q * 32768 else clamp q * 32767)%Q.
Proof.
  unfold scaleSample, Math_max, Math_min, ofZ, ltb, mul, clamp.
  change (inject_Z 1) with 1%Q. change (inject_Z (-1)) with (-1)%Q.
  change (inject_Z 0) with 0%Q.
  change (inject_Z 32768) with 32768%Q. change (inject_Z 32767) with 32767%Q.
  destruct (Qltb q 1) eqn:A.
  - destruct (Qltb (-1) q) eqn:B.
    + assert (E1 : Qltb q (-1) = false).
      { apply Qltb_ge. apply Qltb_lt in B. lra. }
      assert (E2 : Qltb 1 q = false).
      { apply Qltb_ge. apply Qltb_lt in A. lra. }
      rewrite E1, E2.
      destruct (Qltb q 0); eexists; split; reflexivity.
    + apply Qltb_ge in B.
      change (Qltb (-1) 0) with true. cbv iota.
      eexists; split; [reflexivity|].
      destruct (Qltb q (-1)) eqn:E1.
      * change (Qltb (-1) 0) with true. cbv iota. reflexivity.
      * apply Qltb_ge in E1.
        assert (E2 : Qltb 1 q = false) by (apply Qltb_ge; lra).
        rewrite E2.
        assert (E3 : Qltb q 0 = true) by (apply Qltb_lt; lra).
        rewrite E3. lra.
  - apply Qltb_ge in A.
    change (Qltb (-1) 1) with true. cbv iota.
    change (Qltb 1 0) with false. cbv iota.
    eexists; split; [reflexivity|].
    assert (E1 : Qltb q (-1) = false) by (apply Qltb_ge; lra).
    rewrite E1.
    destruct (Qltb 1 q) eqn:E2.
    + change (Qltb 1 0) with false. cbv iota. reflexivity.
    + apply Qltb_ge in E2.
      assert (E3 : Qltb q 0 = false) by (apply Qltb_ge; lra).
      rewrite E3. lra.
Qed.

Lemma pcm16_range (q : Q) : -32768 <= pcm16 q <= 32767.
Proof.
  unfold pcm16. pose proof (clamp_range q) as Hc.
  apply Qtrunc_between; [lia | |].
  - change (inject_Z (-32768)) with (-32768)%Q.
    destruct (Qltb (clamp q) 0) eqn:E.
    + lra.
    + apply Qltb_ge in E. lra.
  - change (inject_Z 32767) with 32767%Q.
    destruct (Qltb (clamp q) 0) eqn:E.
    + apply Qltb_lt in E. lra.
    + lra.
Qed.

Lemma sample_pcm16 (q : Q) : ToInt16 (scaleSample (Fin q)) = pcm16 q.
Proof.
  destruct (scaleSample_finite q) as (y & -> & Hy).
  pose proof (pcm16_range q) as Hr.
  unfold pcm16 in *. rewrite <- (Qtrunc_comp _ _ Hy) in *.
  now apply ToInt16_small.
Qed.

(** *** From the buffer to the text *)

Lemma chunkSize_pos : (0 < chunkSize)%nat.
Proof. unfold chunkSize. lia. Qed.

Lemma binaryString_all (fuel : nat) :
  forall bytes : list Z,
    (length bytes <= fuel)%nat -> binaryString fuel bytes = fromCharCode bytes.
Proof.
  induction fuel as [|fuel IH]; intros bytes Hlen.
  - destruct bytes; [reflexivity | simpl in Hlen; lia].
  - destruct bytes as [|b bytes]; [reflexivity|].
    cbn [binaryString].
    rewrite IH.
    + unfold fromCharCode. rewrite <- map_app. now rewrite take_drop.
    + rewrite length_drop. pose proof chunkSize_pos. simpl in *. lia.
Qed.

Lemma mod256_isByte (v : Z) : isByte (v mod 256).
Proof. apply Z.mod_pos_bound. lia. Qed.

Lemma wavHeader_bytes (nch rate size : Z) :
  Forall isByte (wavHeader nch rate size).
Proof.
  unfold wavHeader, u32le, u16le, tag.
  cbn -[Z.modulo Z.div Z.mul Z.add].
  repeat (constructor; [first [apply mod256_isByte | unfold isByte; lia]|]).
  constructor.
Qed.

Lemma samples_bytes (result : list number) :
  Forall isByte (flat_map (fun x => u16le (ToInt16 (scaleSample x))) result).
Proof.
  induction result as [|x result IH]; simpl.
  - constructor.
  - constructor; [apply mod256_isByte|].
    constructor; [apply mod256_isByte|]. exact IH.
Qed.

Lemma btoa_bytes (bytes : list Z) :
  Forall isByte bytes -> btoa (fromCharCode bytes) = Normal (base64 (fromCharCode bytes)).
Proof.
  intros H. unfold btoa.
  replace (forallb (fun c => (c <? 256)%N) (fromCharCode bytes)) with true;
    [reflexivity|].
  symmetry. apply forallb_forall. intros c Hc.
  unfold fromCharCode in Hc. apply in_map_iff in Hc as (b & <- & Hb).
  rewrite Forall_forall in H. apply list_elem_of_In in Hb.
  specialize (H b Hb). unfold isByte in H.
  apply N.ltb_lt. lia.
Qed.

(** *** Base64 *)






Lemma fromCharCode_Latin1 (bytes : list Z) :
  Forall isByte bytes -> Forall (fun c => (c < 256)%N) (fromCharCode bytes).
Proof.
  intros H. unfold fromCharCode. apply Forall_fmap.
  eapply Forall_impl; [exact H|]. intros b Hb. unfold isByte in Hb.
  simpl. lia.
Qed.

Lemma wavResult_channels (b : AudioBuffer) :
  channels b <> [] ->
  wavResult b = Normal match channels b with
                       | [l; r] => interleave l r
                       | ch :: _ => ch
                       | [] => []
                       end.
Proof.
  destruct b as [rate len chs]. simpl. intros Hne.
  unfold wavResult, numberOfChannels, getChannelData. simpl.
  destruct chs as [|ch0 [|ch1 [|ch2 chs]]]; try contradiction; try reflexivity.
  destruct (Z.eqb_spec (Z.of_nat (length (ch0 :: ch1 :: ch2 :: chs))) 2) as [E|E].
  - simpl in E. lia.
  - reflexivity.
Qed.

Lemma wavBytes_layout (b : AudioBuffer) (result : list number) :
  wavResult b = Normal result ->
  wavBytes b
  = Normal (wavHeader (numberOfChannels b) (sampleRate b)
              (2 * Z.of_nat (length result))
            ++ flat_map (fun x => u16le (ToInt16 (scaleSample x))) result).
Proof.
  intros Hres. unfold wavBytes. rewrite Hres. cbn [bind]. cbv zeta.
  change (16 / 8) with 2.
  replace (Z.of_nat (length result) * 2) with (2 * Z.of_nat (length result))
    by lia.
  unfold ArrayBuffer_new.
  replace (Z.to_nat (44 + 2 * Z.of_nat (length result)))
    with (44 + 2 * length result)%nat by lia.
  rewrite replicate_add.
  rewrite header_stores.
  f_equal. change (Z.to_nat 44) with 44%nat.
  apply writeSamples_fill.
  - unfold wavHeader, u32le, u16le, tag. reflexivity.
  - now rewrite length_replicate.
Qed.

Lemma wavHeader_length (nch rate size : Z) :
  length (wavHeader nch rate size) = 44%nat.
Proof. reflexivity. Qed.



End WavProofs.

(* ================================================================== *)
(** * Proofs: the fade of the render loop *)
(* ================================================================== *)

Section FadeProofs.

Import JS ShortsCreator.

(** Whatever value the fade yields, the alpha the canvas ends up with is a
    finite number of [0, 1]; inside that interval it is the value itself. *)
Lemma globalAlpha_clamped (v : number) :
  exists x : Q,
    setGlobalAlpha (ofZ 1) (Math_max (ofZ 0) (Math_min (ofZ 1) v)) = Fin x /\
    (0 <= x <= 1)%Q /\
    (forall q, v = Fin q -> (0 <= q <= 1)%Q -> (x == q)%Q).
Proof.
  destruct v as [| | |q].
  - exists 1%Q. repeat split; try lra; try reflexivity. discriminate.
  - exists 1%Q. repeat split; try lra; try reflexivity. discriminate.
  - exists 0%Q. repeat split; try lra; try reflexivity. discriminate.
  - unfold Math_min, Math_max, ofZ. rewrite !ltb_Fin.
    change (inject_Z 1) with 1%Q. change (inject_Z 0) with 0%Q.
    destruct (Qltb q 1) eqn:A.
    + rewrite ltb_Fin. destruct (Qltb 0 q) eqn:B.
      * apply Qltb_lt in A, B. exists q. unfold setGlobalAlpha.
        assert (H0 : Qle_bool 0 q = true) by (apply Qle_bool_iff; lra).
        assert (H1 : Qle_bool q 1 = true) by (apply Qle_bool_iff; lra).
        rewrite H0, H1. repeat split; try lra.
        intros q' [= <-] _. reflexivity.
      * apply Qltb_ge in B. exists 0%Q.
        repeat split; try lra; try reflexivity.
        intros q' [= <-] Hq. lra.
    + apply Qltb_ge in A. exists 1%Q.
      repeat split; try lra; try reflexivity.
      intros q' [= <-] Hq. lra.
Qed.


(** The [isRendering] that [render] reads is the one of the state in which
    [handleDownload] got past its guard; with that value it returns at
    once. *)
Lemma render_captured_flag (s : State) (fade ended : bool)
    (analysis : ClipAnalysis) (currentTime : number) :
  downloadStarts s = true ->
  render (isRendering s) fade ended analysis currentTime = Skipped.
Proof.
  unfold downloadStarts, render.
  destruct (videoFile s); [|discriminate].
  destruct (analysisResult s); [|discriminate].
  intros H. now rewrite H.
Qed.



End FadeProofs.

(* ================================================================== *)
(** * Proofs: the audio extractor *)
(* ================================================================== *)

Section AudioProofs.

Import JS FileUtils AudioSpec.



Lemma copyToChannel_fresh (rate : Z) (len : nat) (source : list number) :
  length source = len ->
  copyToChannel (mkAudioBuffer rate len [replicate len (Fin 0)]) source 0
  = Normal (mkAudioBuffer rate len [source]).
Proof.
  intros Hlen. unfold copyToChannel. simpl.
  rewrite length_replicate. rewrite drop_ge by (rewrite length_replicate; lia).
  rewrite app_nil_r. rewrite take_ge by lia. reflexivity.
Qed.

Lemma createBuffer_mono (len rate : Z) :
  1 <= len -> 0 < rate ->
  createBuffer 1 len rate
  = Normal (mkAudioBuffer rate (Z.to_nat len) [replicate (Z.to_nat len) (Fin 0)]).
Proof.
  intros Hl Hr. unfold createBuffer.
  destruct (Z.leb_spec 1 len); [|lia].
  destruct (Z.ltb_spec 0 rate); [|lia].
  reflexivity.
Qed.

(** The mono mix of a well-formed buffer. *)
Lemma mergeToMono_mix (b : AudioBuffer) :
  wfAudioBuffer b ->
  exists mixed : list number,
    mergeToMono b = Normal (mkAudioBuffer (sampleRate b) (bufferLength b) [mixed]) /\
    length mixed = bufferLength b /\
    (numberOfChannels b = 1 -> channels b = [mixed]) /\
    (1 < numberOfChannels b ->
     mixed = List.map (mixSample (channels b)) (seq 0 (bufferLength b))).
Proof.
  intros (Hrate & Hlen & Hne & Hall).
  destruct b as [rate len chs]. simpl in *.
  unfold mergeToMono, numberOfChannels. simpl.
  destruct (Z.ltb_spec 1 (Z.of_nat (length chs))) as [Hmulti|Hone].
  - rewrite createBuffer_mono by lia. cbn [bind]. rewrite Nat2Z.id.
    rewrite copyToChannel_fresh by (now rewrite length_map, length_seq).
    eexists. split; [reflexivity|].
    split; [now rewrite length_map, length_seq|].
    split; [lia | reflexivity].
  - destruct chs as [|ch [|ch' chs]]; [contradiction| |simpl in Hone; lia].
    apply Forall_cons in Hall as [Hch _].
    exists ch. repeat split; try assumption. lia.
Qed.

Lemma duration_gt (b : AudioBuffer) :
  0 < sampleRate b ->
  gtb (duration b) (ofZ MAX_DURATION) = true
  <-> MAX_DURATION * sampleRate b < Z.of_nat (bufferLength b).
Proof.
  intros Hrate. unfold gtb, duration, ofZ, div.
  assert (Hnz : Qeq_bool (inject_Z (sampleRate b)) 0 = false).
  { destruct (Qeq_bool _ 0) eqn:E; [|reflexivity].
    apply Qeq_bool_iff in E. unfold Qeq in E. simpl in E. lia. }
  rewrite Hnz, ltb_Fin, Qltb_lt.
  assert (Hr : (0 < inject_Z (sampleRate b))%Q).
  { change 0%Q with (inject_Z 0). rewrite <- Zlt_Qlt. exact Hrate. }
  split.
  - intros H. apply (Qmult_lt_compat_r _ _ _ Hr) in H.
    rewrite Qmult_comm in H.
    assert (E : (inject_Z (Z.of_nat (bufferLength b)) / inject_Z (sampleRate b)
                 * inject_Z (sampleRate b)
                 == inject_Z (Z.of_nat (bufferLength b)))%Q).
    { field. lra. }
    rewrite E in H. rewrite <- inject_Z_mult in H. rewrite <- Zlt_Qlt in H.
    unfold MAX_DURATION in *. lia.
  - intros H. apply Qlt_shift_div_l; [exact Hr|].
    rewrite <- inject_Z_mult. rewrite <- Zlt_Qlt. exact H.
Qed.

Lemma truncateBuffer_mono (rate : Z) (mixed : list number) :
  0 < rate -> mixed <> [] ->
  let mono := mkAudioBuffer rate (length mixed) [mixed] in
  exists out : list number,
    truncateBuffer mono = Normal (mkAudioBuffer rate (length out) [out]) /\
    (gtb (duration mono) (ofZ MAX_DURATION) = true ->
     out = take (Z.to_nat (MAX_DURATION * rate)) mixed /\
     Z.of_nat (length out) = MAX_DURATION * rate) /\
    (gtb (duration mono) (ofZ MAX_DURATION) = false -> out = mixed).
Proof.
  intros Hrate Hne mono. unfold truncateBuffer.
  destruct (gtb (duration mono) (ofZ MAX_DURATION)) eqn:E.
  - apply duration_gt in E; [|exact Hrate].
    subst mono. cbn [sampleRate bufferLength] in *.
    unfold MAX_DURATION in *.
    rewrite createBuffer_mono by lia. cbn [bind].
    unfold getChannelData. simpl. cbn [bind].
    assert (Hlen : length (take (Z.to_nat (120 * rate)) mixed)
                   = Z.to_nat (120 * rate)).
    { rewrite length_take. lia. }
    rewrite copyToChannel_fresh by exact Hlen.
    exists (take (Z.to_nat (120 * rate)) mixed).
    rewrite Hlen. split; [reflexivity|].
    split; [|discriminate]. intros _. split; [reflexivity|lia].
  - exists mixed. split; [reflexivity|].
    split; [discriminate|reflexivity].
Qed.

Lemma audioBufferToWav_of_result (b : AudioBuffer) (result : list number) :
  wavResult b = Normal result ->
  audioBufferToWav b
  = Normal (base64 (fromCharCode
      (WavFormat.wavHeader (numberOfChannels b) (sampleRate b)
         (2 * Z.of_nat (length result))
       ++ flat_map (fun x => WavFormat.u16le (ToInt16 (scaleSample x)))
            result))).
Proof.
  intros Hres. unfold audioBufferToWav.
  rewrite (wavBytes_layout b result Hres). cbn [bind].
  rewrite binaryString_all by lia.
  apply btoa_bytes. apply Forall_app. split.
  - apply wavHeader_bytes.
  - apply samples_bytes.
Qed.



End AudioProofs.

(* ================================================================== *)
(** * Proofs: the frame sampler *)
(* ================================================================== *)

Section SamplerProofs.

Import JS FileUtils SamplerSpec.

Variable env : VideoEnv.
Variable frameCount : nat.
Variable D : Q.
Hypothesis frameCount_pos : (0 < frameCount)%nat.

Lemma frameCount_nonzero :
  Qeq_bool (inject_Z (Z.of_nat frameCount)) 0 = false.
Proof using frameCount_pos.
  destruct (Qeq_bool _ 0) eqn:E; [|reflexivity].
  apply Qeq_bool_iff in E. unfold Qeq in E. simpl in E. lia.
Qed.

Lemma interval_value :
  div (Fin D) (ofZ (Z.of_nat frameCount))
  = Fin (D / inject_Z (Z.of_nat frameCount)).
Proof using frameCount_pos.
  unfold div, ofZ. now rewrite frameCount_nonzero.
Qed.

Lemma progressOf_value (i : nat) :
  progressOf i frameCount = Fin (percentAfter frameCount i).
Proof using frameCount_pos.
  unfold progressOf, percentAfter, div, ofZ.
  now rewrite frameCount_nonzero.
Qed.

(** The loop over any list of indices: frames and events are appended
    index by index. *)
Lemma sampleFrames_unfold (width height : number) (todo : list nat) :
  forall (frames : list Frame) (log : list FrameEvent),
    sampleFrames env frameCount (Fin (D / inject_Z (Z.of_nat frameCount)))
      width height todo frames log
    = (frames
       ++ flat_map (fun i =>
            if skipped env D frameCount i then []
            else [mkFrame
                    (default []
                       (base64Part
                          (toDataURL env i (Fin (intendedTime D frameCount i)))))
                    (lit "image/jpeg")]) todo,
       log ++ flat_map (eventsAt env D width height frameCount) todo).
Proof using frameCount_pos.
  induction todo as [|i todo IH]; intros frames log.
  - simpl. now rewrite !app_nil_r.
  - cbn [sampleFrames flat_map].
    change (mul (ofZ (Z.of_nat i)) (Fin (D / inject_Z (Z.of_nat frameCount))))
      with (Fin (intendedTime D frameCount i)).
    rewrite progressOf_value. unfold eventsAt, skipped.
    destruct (nearEmpty _) eqn:E.
    + rewrite IH. f_equal. rewrite <- !app_assoc. reflexivity.
    + rewrite IH. f_equal.
      * rewrite <- !app_assoc. reflexivity.
      * rewrite <- !app_assoc. reflexivity.
Qed.

Lemma seekTimes_eventsAt (width height : number) (todo : list nat) :
  seekTimes (flat_map (eventsAt env D width height frameCount) todo)
  = List.map (fun i => Fin (intendedTime D frameCount i)) todo.
Proof.
  induction todo as [|i todo IH]; [reflexivity|].
  cbn [flat_map List.map]. unfold seekTimes in *. rewrite flat_map_app, IH.
  unfold eventsAt. destruct (skipped env D frameCount i); reflexivity.
Qed.

Lemma progressValues_eventsAt (width height : number) (todo : list nat) :
  progressValues (flat_map (eventsAt env D width height frameCount) todo)
  = List.map (fun i => Fin (percentAfter frameCount i)) todo.
Proof.
  induction todo as [|i todo IH]; [reflexivity|].
  cbn [flat_map List.map]. unfold progressValues in *. rewrite flat_map_app, IH.
  unfold eventsAt. destruct (skipped env D frameCount i); reflexivity.
Qed.

Lemma kept_frames_length (todo : list nat) (f : nat -> Frame) :
  (length (flat_map (fun i => if skipped env D frameCount i then []
                              else [f i]) todo)
   <= length todo)%nat.
Proof.
  induction todo as [|i todo IH]; [simpl; lia|].
  cbn [flat_map]. rewrite length_app.
  destruct (skipped env D frameCount i); simpl in *; lia.
Qed.

Lemma intendedTime_before_end (i : nat) :
  (0 < D)%Q -> (i < frameCount)%nat -> (intendedTime D frameCount i < D)%Q.
Proof using frameCount_pos.
  intros HD Hi. unfold intendedTime.
  assert (Hn : (0 < inject_Z (Z.of_nat frameCount))%Q).
  { change 0%Q with (inject_Z 0). rewrite <- Zlt_Qlt. lia. }
  assert (Hlt : (inject_Z (Z.of_nat i) < inject_Z (Z.of_nat frameCount))%Q).
  { rewrite <- Zlt_Qlt. lia. }
  assert (E : (inject_Z (Z.of_nat i) * (D / inject_Z (Z.of_nat frameCount))
               == D * inject_Z (Z.of_nat i) / inject_Z (Z.of_nat frameCount))%Q).
  { field. lra. }
  rewrite E. apply Qlt_shift_div_r; [exact Hn|].
  apply Qmult_lt_l; assumption.
Qed.

(** C6.  For a positive [frameCount] and a source of finite duration
    [D > 0] whose video element loads: the extraction resolves with at most
    [frameCount] frames; index by index, for [i = 0 .. frameCount - 1], it
    seeks to [i * (D / frameCount)], draws, warns when the frame is skipped
    as near-empty, and in either case reports the progress
    [(i + 1) / frameCount * 100]; every timestamp sought lies in [0, D). *)
Theorem extractVideoFrames_sampling :
  hasContext env = true -> loadOutcome env = CanPlay ->
  videoDuration env = Fin D -> (0 < D)%Q ->
  exists (frames : list Frame) (log : list FrameEvent) (width height : number),
    extractVideoFrames env frameCount = (Normal frames, log ++ [RevokeObjectURL]) /\
    log = flat_map (eventsAt env D width height frameCount) (seq 0 frameCount) /\
    (length frames <= frameCount)%nat /\
    seekTimes (log ++ [RevokeObjectURL])
    = List.map (fun i => Fin (intendedTime D frameCount i)) (seq 0 frameCount) /\
    (forall t : number,
        In t (seekTimes (log ++ [RevokeObjectURL])) ->
        exists q : Q, t = Fin q /\ (0 <= q)%Q /\ (q < D)%Q) /\
    progressValues (log ++ [RevokeObjectURL])
    = List.map (fun i => Fin (percentAfter frameCount i)) (seq 0 frameCount).
Proof using frameCount_pos.
  intros Hctx Hload Hdur HD.
  unfold extractVideoFrames. rewrite Hctx, Hload, Hdur. cbn [negb].
  destruct (canvasSize (videoWidth env) (videoHeight env)) as [width height].
  assert (Htruthy : truthy (Fin D) = true).
  { unfold truthy. destruct (Qeq_bool D 0) eqn:E; [|reflexivity].
    apply Qeq_bool_iff in E. lra. }
  rewrite Htruthy. cbn [negb eqb orb].
  rewrite interval_value, sampleFrames_unfold. cbn [app].
  eexists. exists (flat_map (eventsAt env D width height frameCount)
                     (seq 0 frameCount)), width, height.
  split; [reflexivity|]. split; [reflexivity|].
  assert (Hseek : seekTimes
            (flat_map (eventsAt env D width height frameCount) (seq 0 frameCount)
             ++ [RevokeObjectURL])
          = List.map (fun i => Fin (intendedTime D frameCount i))
              (seq 0 frameCount)).
  { unfold seekTimes. rewrite flat_map_app. cbn [flat_map app].
    rewrite app_nil_r. apply seekTimes_eventsAt. }
  split.
  { etransitivity; [apply kept_frames_length|]. now rewrite length_seq. }
  split; [exact Hseek|]. split.
  { intros t Ht. rewrite Hseek in Ht.
    apply in_map_iff in Ht as (i & <- & Hi). apply in_seq in Hi.
    eexists. split; [reflexivity|]. split.
    - unfold intendedTime.
      assert (Hn : (0 < inject_Z (Z.of_nat frameCount))%Q).
      { change 0%Q with (inject_Z 0). rewrite <- Zlt_Qlt. lia. }
      assert (Hi0 : (0 <= inject_Z (Z.of_nat i))%Q).
      { change 0%Q with (inject_Z 0). rewrite <- Zle_Qle. lia. }
      apply Qmult_le_0_compat; [exact Hi0|].
      apply Qle_shift_div_l; [exact Hn|]. lra.
    - apply intendedTime_before_end; [exact HD | lia]. }
  unfold progressValues. rewrite flat_map_app. cbn [flat_map app].
  rewrite app_nil_r. apply progressValues_eventsAt.
Qed.

End SamplerProofs.

(** A source of 40 s sampled ten times, whose canvas yields an empty data
    URL for the frame of index 3. *)
Lemma extractVideoFrames_sampling_witness :
  (0 < 10)%nat /\ (0 < 40)%Q /\
  exists (frames : list FileUtils.Frame) (log : list FileUtils.FrameEvent),
    FileUtils.extractVideoFrames SamplerSpec.sampleSource 10
    = (JS.Normal frames, log ++ [FileUtils.RevokeObjectURL]) /\
    length frames = 9%nat /\
    Forall2 JS.eqv (SamplerSpec.seekTimes log)
      (List.map JS.ofZ [0; 4; 8; 12; 16; 20; 24; 28; 32; 36]) /\
    Forall2 JS.eqv (SamplerSpec.progressValues log)
      (List.map JS.ofZ [10; 20; 30; 40; 50; 60; 70; 80; 90; 100]).
Proof.
  assert (Hn : (0 < 10)%nat) by lia.
  assert (HD : (0 < 40)%Q) by reflexivity.
  split; [exact Hn|]. split; [exact HD|].
  destruct (extractVideoFrames_sampling SamplerSpec.sampleSource 10 40%Q Hn
              eq_refl eq_refl eq_refl HD)
    as (frames & log & width & height & Hrun & Hlog & _).
  exists frames, log. split; [exact Hrun|].
  apply (f_equal fst) in Hrun. vm_compute in Hrun.
  injection Hrun as <-. subst log.
  split; [reflexivity|].
  split; vm_compute; repeat constructor.
Defined.

(* ================================================================== *)
(** * Proofs: the SRT parser *)
(* ================================================================== *)

Section SrtProofs.

Import JS ShortsCreator SrtSpec.

(** *** One block at a time *)

Lemma parseBlock_app (acc : list Subtitle) (block : jsstring) :
  parseBlock acc block = acc ++ parseBlock [] block.
Proof.
  unfold parseBlock.
  destruct (negb (nonempty (trim block))); [now rewrite app_nil_r|].
  destruct (3 <=? length _)%nat; [|now rewrite app_nil_r].
  destruct (timeMatch _) as [[g1 g2]|]; [|now rewrite app_nil_r].
  destruct (nonempty _); [reflexivity | now rewrite app_nil_r].
Qed.

Lemma parseBlocks_flat (blocks : list jsstring) :
  forall acc : list Subtitle,
    fold_left parseBlock blocks acc = acc ++ flat_map (parseBlock []) blocks.
Proof.
  induction blocks as [|b blocks IH]; intros acc.
  - simpl. now rewrite app_nil_r.
  - cbn [fold_left flat_map]. rewrite IH, parseBlock_app.
    now rewrite <- app_assoc.
Qed.

Lemma parseBlock_malformed (block : jsstring) :
  timeMatch (nth 1 (split (lit "
") block) []) = None ->
  parseBlock [] block = [].
Proof.
  intros H. unfold parseBlock.
  destruct (negb (nonempty (trim block))); [reflexivity|].
  destruct (3 <=? length _)%nat; [|reflexivity].
  now rewrite H.
Qed.

(** *** Digits *)

Lemma isDigit_range (c : N) : isDigit c = true -> (48 <= c <= 57)%N.
Proof.
  unfold isDigit. rewrite andb_true_iff, !N.leb_le. tauto.
Qed.

Lemma digit_not_separator (c : N) :
  isDigit c = true -> isTimeSeparator c = false.
Proof.
  intros H. apply isDigit_range in H. unfold isTimeSeparator.
  rewrite !orb_false_iff, !N.eqb_neq. lia.
Qed.

Lemma digit_not_space (c : N) : isDigit c = true -> isWhiteSpace c = false.
Proof.
  intros H. apply isDigit_range in H. unfold isWhiteSpace.
  repeat rewrite orb_false_iff. repeat rewrite andb_false_iff.
  rewrite !N.eqb_neq, !N.leb_gt. lia.
Qed.

Lemma digit_not_sign (c : N) :
  isDigit c = true -> (c =? 45)%N = false /\ (c =? 43)%N = false.
Proof.
  intros H. apply isDigit_range in H. rewrite !N.eqb_neq. lia.
Qed.

Lemma digit_value_range (c : N) : isDigit c = true -> 0 <= digit c <= 9.
Proof. intros H. apply isDigit_range in H. unfold digit. lia. Qed.

Lemma parseInt_two (a b : N) :
  isDigit a = true -> isDigit b = true ->
  parseInt [a; b] = ofZ (10 * digit a + digit b).
Proof.
  intros Ha Hb. unfold parseInt. cbn [dropWhile].
  rewrite (digit_not_space a Ha).
  destruct (digit_not_sign a Ha) as [-> ->].
  cbn [takeWhile]. rewrite Ha, Hb. cbn [digitsValue]. unfold digit.
  f_equal; lia.
Qed.

Lemma parseInt_three (a b c : N) :
  isDigit a = true -> isDigit b = true -> isDigit c = true ->
  parseInt [a; b; c] = ofZ (100 * digit a + 10 * digit b + digit c).
Proof.
  intros Ha Hb Hc. unfold parseInt. cbn [dropWhile].
  rewrite (digit_not_space a Ha).
  destruct (digit_not_sign a Ha) as [-> ->].
  cbn [takeWhile]. rewrite Ha, Hb, Hc. cbn [digitsValue]. unfold digit.
  f_equal; lia.
Qed.

Ltac split_stamp :=
  repeat (cbn [splitClass_go rev app];
          match goal with
          | |- context [isTimeSeparator ?c] =>
              first [ rewrite (digit_not_separator c) by assumption
                    | change (isTimeSeparator c) with true ]
          end).

Ltac stamp_digits H :=
  destruct H as [H Hsep];
  repeat match type of H with
         | Forall _ (_ :: _) =>
             let Hd := fresh "Hd" in
             apply Forall_cons in H as [Hd H]
         end;
  clear H.

(** The seconds of a well-formed timestamp. *)
Lemma timeToSeconds_stamp (st : Stamp) :
  wellFormed st -> timeToSeconds (stampText st) = Fin (stampSeconds st).
Proof.
  intros H. destruct st as [a1 a2 b1 b2 c1 c2 p d1 d2 d3].
  unfold wellFormed in H. cbn [h1 h2 m1 m2 s1 s2 sep f1 f2 f3] in H.
  stamp_digits H.
  unfold timeToSeconds, stampText, stampSeconds, splitClass.
  cbn [h1 h2 m1 m2 s1 s2 sep f1 f2 f3].
  destruct Hsep as [-> | ->]; split_stamp;
    cbn [length Nat.ltb Nat.leb nth lookup list_lookup nonempty];
    rewrite !parseInt_two, parseInt_three by assumption;
    reflexivity.
Qed.

Lemma stampSeconds_nonneg (st : Stamp) :
  wellFormed st -> (0 <= stampSeconds st)%Q.
Proof.
  intros H. destruct st as [a1 a2 b1 b2 c1 c2 p d1 d2 d3].
  unfold wellFormed in H. cbn [h1 h2 m1 m2 s1 s2 sep f1 f2 f3] in H.
  stamp_digits H.
  unfold stampSeconds. cbn [h1 h2 m1 m2 s1 s2 sep f1 f2 f3].
  repeat match goal with
         | Hd : isDigit ?c = true |- _ => apply digit_value_range in Hd
         end.
  assert (Hq : forall z : Z, 0 <= z -> (0 <= inject_Z z)%Q).
  { intros z Hz. change 0%Q with (inject_Z 0). now rewrite <- Zle_Qle. }
  pose proof (Hq (10 * digit a1 + digit a2) ltac:(lia)).
  pose proof (Hq (10 * digit b1 + digit b2) ltac:(lia)).
  pose proof (Hq (10 * digit c1 + digit c2) ltac:(lia)).
  pose proof (Hq (100 * digit d1 + 10 * digit d2 + digit d3) ltac:(lia)).
  assert ((0 <= inject_Z (100 * digit d1 + 10 * digit d2 + digit d3) / 1000)%Q).
  { apply Qle_shift_div_l; lra. }
  lra.
Qed.

(** *** The timestamp pattern *)

Lemma matchClasses_stamp (st : Stamp) (rest : jsstring) :
  wellFormed st ->
  matchClasses stampPattern (stampText st ++ rest) = Some (stampText st, rest).
Proof.
  intros H. destruct st as [a1 a2 b1 b2 c1 c2 p d1 d2 d3].
  unfold wellFormed in H. cbn [h1 h2 m1 m2 s1 s2 sep f1 f2 f3] in H.
  stamp_digits H.
  unfold stampText, stampPattern.
  cbn [h1 h2 m1 m2 s1 s2 sep f1 f2 f3 app matchClasses].
  repeat match goal with
         | Hd : isDigit ?c = true |- _ => rewrite Hd; clear Hd
         end.
  change (isColon 58) with true. cbv iota.
  destruct Hsep as [-> | ->]; reflexivity.
Qed.

Lemma matchClasses_cons (p : N -> bool) (pat : list (N -> bool))
    (s g r : jsstring) :
  matchClasses (p :: pat) s = Some (g, r) ->
  exists (c : N) (s' m : jsstring),
    s = c :: s' /\ p c = true /\ matchClasses pat s' = Some (m, r) /\
    g = c :: m.
Proof.
  cbn [matchClasses]. destruct s as [|c s']; [discriminate|].
  destruct (p c) eqn:E; [|discriminate].
  destruct (matchClasses pat s') as [[m r']|] eqn:Em; [|discriminate].
  intros [= <- <-]. exists c, s', m.
  split; [reflexivity|]. split; [exact E|]. split; [exact Em|reflexivity].
Qed.

Lemma matchClasses_shape (s g r : jsstring) :
  matchClasses stampPattern s = Some (g, r) ->
  exists st : Stamp, wellFormed st /\ g = stampText st /\ s = g ++ r.
Proof.
  unfold stampPattern. intros H.
  repeat match type of H with
         | matchClasses (_ :: _) _ = Some _ =>
             let c := fresh "c" in
             let E := fresh "E" in
             apply matchClasses_cons in H as (c & ? & ? & -> & E & H & ->)
         end.
  cbn [matchClasses] in H. injection H as <- <-.
  unfold isColon in *. unfold isCommaOrDot in *.
  repeat match goal with
         | E : (_ =? 58)%N = true |- _ => apply N.eqb_eq in E; subst
         end.
  match goal with
  | E : (_ || _)%bool = true |- _ =>
      apply orb_true_iff in E; rewrite !N.eqb_eq in E
  end.
  eexists (mkStamp _ _ _ _ _ _ _ _ _ _).
  split; [|split; reflexivity].
  split; [|eassumption].
  repeat (constructor; [assumption|]). constructor.
Qed.

Lemma dropWhile_spaces (ws rest : jsstring) :
  Forall (fun c => isWhiteSpace c = true) ws ->
  (forall c r, rest = c :: r -> isWhiteSpace c = false) ->
  dropWhile isWhiteSpace (ws ++ rest) = rest.
Proof.
  intros Hws Hrest. induction Hws as [|c ws Hc _ IH].
  - destruct rest as [|c r]; [reflexivity|].
    cbn [app dropWhile]. now rewrite (Hrest c r eq_refl).
  - cbn [app dropWhile]. now rewrite Hc.
Qed.

(** The pattern accepts two well-formed timestamps, each with a comma or a
    dot, around an arrow with any white space on either side. *)
Lemma timeMatch_stamps (a b : Stamp) (ws1 ws2 rest : jsstring) :
  wellFormed a -> wellFormed b ->
  Forall (fun c => isWhiteSpace c = true) ws1 ->
  Forall (fun c => isWhiteSpace c = true) ws2 ->
  timeMatch (stampText a ++ ws1 ++ lit "-->" ++ ws2 ++ stampText b ++ rest)
  = Some (stampText a, stampText b).
Proof.
  intros Ha Hb H1 H2.
  assert (Hhere : matchHere
            (stampText a ++ ws1 ++ lit "-->" ++ ws2 ++ stampText b ++ rest)
          = Some (stampText a, stampText b)).
  { unfold matchHere. rewrite (matchClasses_stamp a _ Ha).
    rewrite dropWhile_spaces; [|exact H1|].
    2:{ intros c r E. injection E as <- _. reflexivity. }
    change (isPrefix (lit "-->") (lit "-->" ++ ws2 ++ stampText b ++ rest))
      with true. cbv iota.
    change (drop 3 (lit "-->" ++ ws2 ++ stampText b ++ rest))
      with (ws2 ++ stampText b ++ rest).
    rewrite dropWhile_spaces; [|exact H2|].
    2:{ intros c r E. destruct Hb as [Hb _].
        apply Forall_cons in Hb as [Hd _].
        injection E as <- _. now apply digit_not_space. }
    now rewrite (matchClasses_stamp b _ Hb). }
  destruct (stampText a ++ ws1 ++ lit "-->" ++ ws2 ++ stampText b ++ rest)
    eqn:E; cbn [timeMatch]; now rewrite Hhere.
Qed.

Lemma matchHere_shape (s g1 g2 : jsstring) :
  matchHere s = Some (g1, g2) ->
  exists a b : Stamp,
    wellFormed a /\ wellFormed b /\ g1 = stampText a /\ g2 = stampText b.
Proof.
  unfold matchHere. intros H.
  destruct (matchClasses stampPattern s) as [[g r1]|] eqn:E1; [|discriminate].
  destruct (isPrefix _ _); [|discriminate].
  destruct (matchClasses stampPattern (dropWhile _ (drop 3 _)))
    as [[g' r2]|] eqn:E2; [|discriminate].
  injection H as <- <-.
  apply matchClasses_shape in E1 as (a & Ha & -> & _).
  apply matchClasses_shape in E2 as (b & Hb & -> & _).
  exists a, b.
  split; [exact Ha|]. split; [exact Hb|]. split; reflexivity.
Qed.

Lemma timeMatch_shape (line g1 g2 : jsstring) :
  timeMatch line = Some (g1, g2) ->
  exists a b : Stamp,
    wellFormed a /\ wellFormed b /\ g1 = stampText a /\ g2 = stampText b.
Proof.
  induction line as [|c line IH]; cbn [timeMatch]; intros H.
  - destruct (matchHere []) as [[x y]|] eqn:E; [|discriminate].
    injection H as <- <-. now apply matchHere_shape in E.
  - destruct (matchHere (c :: line)) as [[x y]|] eqn:E.
    + injection H as <- <-. now apply matchHere_shape in E.
    + now apply IH.
Qed.

Lemma parseBlock_cases (block : jsstring) :
  parseBlock [] block = [] \/
  exists a b : Stamp,
    wellFormed a /\ wellFormed b /\
    timeMatch (nth 1 (split newline block) []) = Some (stampText a, stampText b) /\
    parseBlock [] block
    = [mkSubtitle (trim (join (lit " ") (drop 2 (split newline block))))
         (Fin (stampSeconds a)) (Fin (stampSeconds b)) None None] /\
    trim (join (lit " ") (drop 2 (split newline block))) <> [].
Proof.
  unfold parseBlock.
  change (lit "
") with newline.
  destruct (negb (nonempty (trim block))); [now left|].
  destruct (3 <=? length _)%nat; [|now left].
  destruct (timeMatch _) as [[g1 g2]|] eqn:E; [|now left].
  destruct (nonempty _) eqn:Et; [|now left].
  right. destruct (timeMatch_shape _ _ _ E) as (a & b & Ha & Hb & -> & ->).
  exists a, b. split; [exact Ha|]. split; [exact Hb|]. split; [reflexivity|].
  split.
  - cbn [app]. now rewrite !timeToSeconds_stamp.
  - intros Hnil. rewrite Hnil in Et. discriminate.
Qed.

(** C5.  (1) The example of the specification parses to the single caption
    "Hello world" from 1.0 to 2.5.  (2) A block whose timestamp line does
    not match the pattern contributes nothing, and the blocks before and
    after it are parsed as they would be without it.  (3) The pattern
    accepts timestamps written with a comma and with a dot.  (4) A
    timestamp converts to [h * 3600 + m * 60 + s + ms / 1000] seconds. *)
Theorem parseSrt_behaviour :
  (exists s e : Q,
      parseSrt exampleSrt
      = [mkSubtitle (lit "Hello world") (Fin s) (Fin e) None None] /\
      (s == 1)%Q /\ (e == 5 # 2)%Q) /\
  (forall (text : jsstring) (pre : list jsstring) (block : jsstring)
          (post : list jsstring),
      srtBlocks text = pre ++ block :: post ->
      timeMatch (nth 1 (split newline block) []) = None ->
      parseSrt text
      = fold_left parseBlock pre [] ++ fold_left parseBlock post []) /\
  (forall (a b : Stamp) (ws1 ws2 rest : jsstring),
      wellFormed a -> wellFormed b ->
      Forall (fun c => isWhiteSpace c = true) ws1 ->
      Forall (fun c => isWhiteSpace c = true) ws2 ->
      timeMatch (stampText a ++ ws1 ++ lit "-->" ++ ws2 ++ stampText b ++ rest)
      = Some (stampText a, stampText b)) /\
  (forall st : Stamp,
      wellFormed st -> timeToSeconds (stampText st) = Fin (stampSeconds st)).
Proof.
  split.
  { eexists. eexists. split; [vm_compute; reflexivity|].
    split; reflexivity. }
  split.
  { intros text pre block post Hblocks Hbad.
    unfold parseSrt. rewrite Hblocks, !parseBlocks_flat.
    cbn [app]. rewrite flat_map_app. cbn [flat_map].
    rewrite (parseBlock_malformed block Hbad). reflexivity. }
  split.
  { intros a b ws1 ws2 rest. apply timeMatch_stamps. }
  exact timeToSeconds_stamp.
Qed.

(** The example behind a malformed block; the timestamp 01:02:03.250; a
    timestamp line with a comma on one side and a dot on the other. *)
Lemma parseSrt_behaviour_witness :
  (exists s e : Q,
      parseSrt malformedFirstSrt
      = [mkSubtitle (lit "Hello world") (Fin s) (Fin e) None None]) /\
  timeToSeconds (lit "01:02:03.250")
  = Fin (stampSeconds (mkStamp 48 49 48 50 48 51 46 50 53 48)) /\
  timeMatch (lit "00:00:01,000 --> 01:02:03.250")
  = Some (lit "00:00:01,000", lit "01:02:03.250").
Proof.
  destruct parseSrt_behaviour as (_ & Hdrop & Hmatch & Hsec).
  assert (Hdot : wellFormed (mkStamp 48 49 48 50 48 51 46 50 53 48)).
  { split; [repeat constructor | right; reflexivity]. }
  assert (Hcomma : wellFormed (mkStamp 48 48 48 48 48 49 44 48 48 48)).
  { split; [repeat constructor | left; reflexivity]. }
  split; [|split].
  - eexists. eexists.
    rewrite (Hdrop malformedFirstSrt []
               (lit "1" ++ newline ++ lit "00:00:01 -> 00:00:02" ++ newline
                ++ lit "dropped")
               (srtBlocks exampleSrt)).
    + vm_compute. reflexivity.
    + vm_compute. reflexivity.
    + vm_compute. reflexivity.
  - apply (Hsec _ Hdot).
  - apply (Hmatch _ _ [32%N] [32%N] [] Hcomma Hdot);
      repeat constructor.
Defined.

(** C9, as stated, fails: the parser neither sorts nor checks
    [start < end]. *)
Lemma parseSrt_unordered :
  startsAscending (parseSrt unorderedSrt) = false /\
  forallb validInterval (parseSrt unorderedSrt) = false.
Proof. split; vm_compute; reflexivity. Qed.

(** C9, amended.  The captions come in the order of the blocks of the
    text, at most one per block; the caption of a block carries the two
    times of the timestamp line of that block, which are non-negative, and
    the trimmed text lines, which are not empty. *)
Theorem parseSrt_document_order (text : jsstring) :
  parseSrt text = flat_map (parseBlock []) (srtBlocks text) /\
  forall block : jsstring,
    parseBlock [] block = [] \/
    exists a b : Stamp,
      wellFormed a /\ wellFormed b /\
      timeMatch (nth 1 (split newline block) [])
      = Some (stampText a, stampText b) /\
      parseBlock [] block
      = [mkSubtitle (trim (join (lit " ") (drop 2 (split newline block))))
           (Fin (stampSeconds a)) (Fin (stampSeconds b)) None None] /\
      trim (join (lit " ") (drop 2 (split newline block))) <> [] /\
      (0 <= stampSeconds a)%Q /\ (0 <= stampSeconds b)%Q.
Proof.
  split.
  - unfold parseSrt. now rewrite parseBlocks_flat.
  - intros block.
    destruct (parseBlock_cases block)
      as [Hnone | (a & b & Ha & Hb & Hm & Hp & Ht)]; [now left|].
    right. exists a, b.
    split; [exact Ha|]. split; [exact Hb|]. split; [exact Hm|].
    split; [exact Hp|]. split; [exact Ht|].
    split; now apply stampSeconds_nonneg.
Qed.

End SrtProofs.

(* ================================================================== *)
(** * Proofs: handleSubmit *)
(* ================================================================== *)

Section SubmitProofs.

Import JS ShortsCreator ResponseSpec.

Variable JSON_parse : jsstring -> completion json.

(** The audio extraction never throws. *)
Lemma extractAudioFromVideo_returns
    (decoded : completion FileUtils.AudioBuffer) :
  exists r : option jsstring,
    FileUtils.extractAudioFromVideo decoded = Normal r.
Proof. eexists. reflexivity. Qed.

Lemma extractAudioFromVideo_failed (e : exn) :
  FileUtils.extractAudioFromVideo (Throw e) = Normal None.
Proof. reflexivity. Qed.

(** A submission that gets as far as the frames: one request is sent, and
    the state ends as the answer decides. *)
Lemma handleSubmit_run (env : SubmitEnv) (s : State) (f : File)
    (srt : option jsstring) (audio : option jsstring)
    (frames : list FileUtils.Frame) :
  videoFile s = Some f -> isLoading s = false ->
  readSrt env s = Normal srt ->
  FileUtils.extractAudioFromVideo (decodedAudio env) = Normal audio ->
  fst (FileUtils.extractVideoFrames (videoEnv env) FRAME_COUNT) = Normal frames ->
  let request :=
    mkAnalysisRequest frames (audioDataOf audio) srt
      (useDynamicStyling s && negb (hasSrt srt)) in
  let body :=
    (resultText <- analyzeVideoForClipping env request ;;
     partialResult <- JSON_parse resultText ;;
     buildResult srt partialResult) in
  let s0 := setAnalysisResult None (setError None (setIsLoading true s)) in
  handleSubmit JSON_parse env s
  = (setProgressMessage []
       (setIsLoading false
          match body with
          | Normal finalResult => setAnalysisResult (Some finalResult) s0
          | Throw err => setError (Some (submitErrorMessage err)) s0
          end),
     [request]).
Proof.
  intros Hfile Hload Hsrt Haudio Hframes request body s0.
  unfold handleSubmit. rewrite Hfile, Hload.
  unfold submitBody.
  change (readSrt env (setAnalysisResult None (setError None (setIsLoading true s))))
    with (readSrt env s).
  rewrite Hsrt, Haudio, Hframes. reflexivity.
Qed.

(** A submission whose frame extraction fails: nothing is sent, and the
    failure is reported. *)
Lemma handleSubmit_no_frames (env : SubmitEnv) (s : State) (f : File)
    (srt : option jsstring) (e : exn) :
  videoFile s = Some f -> isLoading s = false ->
  readSrt env s = Normal srt ->
  fst (FileUtils.extractVideoFrames (videoEnv env) FRAME_COUNT) = Throw e ->
  handleSubmit JSON_parse env s
  = (setProgressMessage []
       (setIsLoading false
          (setError (Some (submitErrorMessage e))
             (setAnalysisResult None (setError None (setIsLoading true s))))),
     []).
Proof.
  intros Hfile Hload Hsrt Hframes.
  unfold handleSubmit. rewrite Hfile, Hload.
  unfold submitBody.
  change (readSrt env (setAnalysisResult None (setError None (setIsLoading true s))))
    with (readSrt env s).
  rewrite Hsrt, Hframes. reflexivity.
Qed.

(** C7.  The audio extraction always returns, and returns [null] when
    decoding fails; a submission then goes on without audio: given frames,
    it sends its one request with [audioData = null].  When the frame
    extraction fails, whatever the audio, no request is sent, the error is
    reported and there is no analysis result. *)
Theorem audio_failure_degrades (env : SubmitEnv) (s : State) (f : File)
    (srt : option jsstring) :
  videoFile s = Some f -> isLoading s = false ->
  readSrt env s = Normal srt ->
  (forall decoded, exists r, FileUtils.extractAudioFromVideo decoded = Normal r) /\
  (forall e : exn,
      decodedAudio env = Throw e ->
      FileUtils.extractAudioFromVideo (decodedAudio env) = Normal None /\
      forall frames : list FileUtils.Frame,
        fst (FileUtils.extractVideoFrames (videoEnv env) FRAME_COUNT)
        = Normal frames ->
        snd (handleSubmit JSON_parse env s)
        = [mkAnalysisRequest frames None srt
             (useDynamicStyling s && negb (hasSrt srt))]) /\
  (forall e : exn,
      fst (FileUtils.extractVideoFrames (videoEnv env) FRAME_COUNT) = Throw e ->
      let s' := fst (handleSubmit JSON_parse env s) in
      snd (handleSubmit JSON_parse env s) = [] /\
      error s' = Some (submitErrorMessage e) /\
      analysisResult s' = None /\
      isLoading s' = false).
Proof.
  intros Hfile Hload Hsrt.
  split; [exact extractAudioFromVideo_returns|]. split.
  - intros e He. rewrite He. split; [reflexivity|].
    intros frames Hframes.
    rewrite (handleSubmit_run env s f srt None frames Hfile Hload Hsrt);
      [reflexivity | now rewrite He | exact Hframes].
  - intros e Hframes.
    rewrite (handleSubmit_no_frames env s f srt e Hfile Hload Hsrt Hframes).
    cbn. repeat split.
Qed.

(** *** The validation of the response *)

Lemma buildResult_accepts (srt : option jsstring) (response : json) :
  checked (hasSrt srt) response = true ->
  exists (fields : list (jsstring * json)) (st en : number),
    response = JObject fields /\
    lookupField (lit "startTime") fields = Some (JNumber st) /\
    lookupField (lit "endTime") fields = Some (JNumber en) /\
    buildResult srt response
    = Normal (mkClipAnalysis st en
                (if hasSrt srt
                 then List.map subtitleValue (parseSrt (default [] srt))
                 else itemsOf (lookupField (lit "subtitles") fields))).
Proof.
  unfold checked, buildResult, isArray.
  destruct response as [| | | | |fields]; try discriminate.
  cbn [getProperty bind].
  destruct (lookupField (lit "startTime") fields) as [[| | st | | |]|] eqn:Est;
    try discriminate.
  destruct (lookupField (lit "endTime") fields) as [[| | en | | |]|] eqn:Een;
    try discriminate.
  intros H. exists fields, st, en.
  split; [reflexivity|]. split; [exact Est|]. split; [exact Een|].
  destruct (hasSrt srt); cbn [notNumber bind orb numberOf].
  - reflexivity.
  - cbn [orb] in H. apply negb_true_iff in H. now rewrite H.
Qed.




Lemma buildResult_rejects (srt : option jsstring) (response : json) :
  checked (hasSrt srt) response = false ->
  exists e : exn,
    buildResult srt response = Throw e /\
    (response = JNull ->
     e = mkExn TypeError
           (lit "Cannot read properties of null (reading '" ++ lit "startTime"
              ++ lit "')")) /\
    (response <> JNull ->
     e = mkExn PlainError
           (if hasSrt srt then invalidTimingMessage
            else invalidStructureMessage)).
Proof.
  assert (Hplain : forall r : json,
             r <> JNull ->
             buildResult srt r
             = Throw (mkExn PlainError
                        (if hasSrt srt then invalidTimingMessage
                         else invalidStructureMessage)) ->
             exists e : exn,
               buildResult srt r = Throw e /\
               (r = JNull ->
                e = mkExn TypeError
                      (lit "Cannot read properties of null (reading '"
                         ++ lit "startTime" ++ lit "')")) /\
               (r <> JNull ->
                e = mkExn PlainError
                      (if hasSrt srt then invalidTimingMessage
                       else invalidStructureMessage))).
  { intros r Hr Hb. eexists. split; [exact Hb|].
    split; [intros E; contradiction | reflexivity]. }
  unfold checked, isArray.
  destruct response as [| b | n | str | items | fields]; intros H.
  - exists (mkExn TypeError
              (lit "Cannot read properties of null (reading '"
                 ++ lit "startTime" ++ lit "')")).
    split; [unfold buildResult; destruct (hasSrt srt); reflexivity|].
    split; [reflexivity | congruence].
  - apply Hplain; [discriminate|].
    unfold buildResult. destruct (hasSrt srt); reflexivity.
  - apply Hplain; [discriminate|].
    unfold buildResult. destruct (hasSrt srt); reflexivity.
  - apply Hplain; [discriminate|].
    unfold buildResult. destruct (hasSrt srt); reflexivity.
  - apply Hplain; [discriminate|].
    unfold buildResult. destruct (hasSrt srt); reflexivity.
  - apply Hplain; [discriminate|].
    unfold buildResult. cbn [getProperty bind].
    destruct (lookupField (lit "startTime") fields) as [[| | st | | |]|];
      try (destruct (hasSrt srt); reflexivity).
    destruct (lookupField (lit "endTime") fields) as [[| | en | | |]|];
      try (destruct (hasSrt srt); reflexivity).
    destruct (hasSrt srt); [discriminate|].
    cbn [orb] in H. apply negb_false_iff in H.
    cbn [notNumber bind orb]. now rewrite H.
Qed.



End SubmitProofs.

(** A submission without audio, with and without frames. *)
Lemma audio_failure_degrades_witness :
  snd (ShortsCreator.handleSubmit (fun _ => JS.Normal ShortsCreator.JNull)
         ResponseSpec.sampleEnv ResponseSpec.readyState)
  = [ShortsCreator.mkAnalysisRequest [] None None true] /\
  ShortsCreator.error
    (fst (ShortsCreator.handleSubmit (fun _ => JS.Normal ShortsCreator.JNull)
            ResponseSpec.brokenVideoEnv ResponseSpec.readyState))
  = Some (JS.lit "The video could not be decoded, possibly due to corruption or unsupported format.").
Proof.
  split.
  - destruct (audio_failure_degrades (fun _ => JS.Normal ShortsCreator.JNull)
                ResponseSpec.sampleEnv ResponseSpec.readyState _ None
                eq_refl eq_refl eq_refl) as (_ & Hdeg & _).
    destruct (Hdeg ResponseSpec.undecodable eq_refl) as [_ Hreq].
    apply (Hreq []). vm_compute. reflexivity.
  - destruct (audio_failure_degrades (fun _ => JS.Normal ShortsCreator.JNull)
                ResponseSpec.brokenVideoEnv ResponseSpec.readyState _ None
                eq_refl eq_refl eq_refl) as (_ & _ & Hfail).
    destruct (Hfail _ eq_refl) as (_ & Herr & _).
    rewrite Herr. vm_compute. reflexivity.
Defined.


(* ================================================================== *)
(** * Proofs: the choice of the output format *)
(* ================================================================== *)

Section RecorderProofs.

Import JS ShortsCreator Session.







End RecorderProofs.

(* ================================================================== *)
(** * Proofs: the selection of the video *)
(* ================================================================== *)

Section SelectionProofs.

Import JS ShortsCreator Session.

Variable JSON_parse : jsstring -> completion json.

Lemma geb_not_ltb (d : number) (q : Q) :
  geb d (Fin q) = true -> ltb d (Fin q) = false.
Proof.
  destruct d as [| | |x]; try reflexivity; try discriminate.
  intros H. apply geb_Fin in H. rewrite ltb_Fin. now apply Qltb_ge.
Qed.

Lemma revoked_gone (u : ObjectURL) (w : World) :
  ~ In u (objectUrls (revokeObjectURL u w)).
Proof.
  unfold revokeObjectURL. cbn [objectUrls]. intros H.
  apply filter_In in H as [_ H]. now rewrite Nat.eqb_refl in H.
Qed.

Lemma handleSubmit_videoFile (env : SubmitEnv) (s : State) :
  videoFile (fst (handleSubmit JSON_parse env s)) = videoFile s.
Proof.
  unfold handleSubmit. destruct (videoFile s) eqn:E; [|exact E].
  destruct (isLoading s); [exact E|].
  destruct (submitBody JSON_parse env _) as [[r|e] reqs]; exact E.
Qed.

Lemma handleSubmit_sends (env : SubmitEnv) (s : State) :
  snd (handleSubmit JSON_parse env s) <> [] -> exists f, videoFile s = Some f.
Proof.
  unfold handleSubmit. destruct (videoFile s) as [f|]; [eauto|].
  intros H. now contradiction H.
Qed.

Lemma handleSrtFileChange_videoFile (file : option File) (s : State) :
  videoFile (handleSrtFileChange file s) = videoFile s.
Proof.
  unfold handleSrtFileChange. destruct file as [f|]; [|reflexivity].
  destruct (endsWith _ _); reflexivity.
Qed.

Lemma settle_videoFile (p : ObjectURL * File) (w : World) (f : File) :
  videoFile (ui (settle p w)) = Some f ->
  videoFile (ui w) = Some f \/ longEnough f.
Proof.
  unfold settle. destruct (fileMetadata (snd p)) as [d|] eqn:Em.
  - unfold onloadedmetadata. destruct (ltb d (ofZ 30)) eqn:El.
    + cbn. now left.
    + cbn. intros [= <-]. right. exists d. now split.
  - cbn. now left.
Qed.

(** Whatever has happened, the video file of the component was reported
    with a duration that is not below 30 s. *)
Lemma reachable_longEnough (w : World) :
  reachable JSON_parse w ->
  forall f : File, videoFile (ui w) = Some f -> longEnough f.
Proof.
  induction 1 as [|w w' Hreach IH Hstep]; intros f Hf.
  - discriminate.
  - destruct Hstep as [file w | p w Hp | file w | env w].
    + destruct file; discriminate.
    + apply settle_videoFile in Hf as [Hf | Hok]; [now apply IH | exact Hok].
    + cbn [withUi ui] in Hf. rewrite handleSrtFileChange_videoFile in Hf.
      now apply IH.
    + cbn [withUi ui] in Hf. rewrite handleSubmit_videoFile in Hf.
      now apply IH.
Qed.

(** C10.  Choosing a video whose reported duration is below 30 s ends with
    the error shown, the object URL created for it revoked, and no video
    file and no preview set; a video of at least 30 s becomes the video
    file, its URL the preview, and the URL stays alive.  Whatever then
    happens to the component, an analysis request is only ever sent, and
    a render only ever started, for a video file that was not reported
    shorter than 30 s. *)
Theorem short_video_rejected :
  (forall (w : World) (f : File) (d : number),
      fileMetadata f = Some d -> ltb d (ofZ 30) = true ->
      let w' := settle (nextUrl w, f) (handleFileChange (Some f) w) in
      error (ui w') = Some tooShortMessage /\
      ~ In (nextUrl w) (objectUrls w') /\
      videoFile (ui w') = None /\ videoPreviewUrl (ui w') = None) /\
  (forall (w : World) (f : File) (d : number),
      fileMetadata f = Some d -> geb d (ofZ 30) = true ->
      let w' := settle (nextUrl w, f) (handleFileChange (Some f) w) in
      videoFile (ui w') = Some f /\
      videoPreviewUrl (ui w') = Some (nextUrl w) /\
      In (nextUrl w) (objectUrls w') /\ error (ui w') = None) /\
  (forall w : World,
      reachable JSON_parse w ->
      (forall env : SubmitEnv,
          snd (handleSubmit JSON_parse env (ui w)) <> [] ->
          exists f, videoFile (ui w) = Some f /\ longEnough f) /\
      (downloadStarts (ui w) = true ->
       exists f, videoFile (ui w) = Some f /\ longEnough f)).
Proof.
  split; [|split].
  - intros w f d Hm Hshort w'. subst w'.
    unfold settle, handleFileChange. cbn [snd fst]. rewrite Hm.
    unfold onloadedmetadata. rewrite Hshort.
    split; [reflexivity|]. split; [apply revoked_gone|].
    split; reflexivity.
  - intros w f d Hm Hlong w'. subst w'.
    unfold settle, handleFileChange. cbn [snd fst]. rewrite Hm.
    assert (Hl : ltb d (ofZ 30) = false) by (apply geb_not_ltb; exact Hlong).
    unfold onloadedmetadata. rewrite Hl.
    split; [reflexivity|]. split; [reflexivity|].
    split; [|reflexivity]. cbn. now left.
  - intros w Hreach. split.
    + intros env Hsent. destruct (handleSubmit_sends env _ Hsent) as [f Hf].
      exists f. split; [exact Hf|]. now apply (reachable_longEnough w).
    + unfold downloadStarts. destruct (videoFile (ui w)) as [f|] eqn:Hf;
        [|discriminate].
      intros _. exists f. split; [reflexivity|].
      now apply (reachable_longEnough w).
Qed.

End SelectionProofs.

(** A clip of 12 s and one of 40 s, chosen in a fresh session; the
    submission that follows the second is for a file of 40 s. *)
Lemma short_video_rejected_witness :
  ShortsCreator.videoFile
    (ShortsCreator.ui
       (ShortsCreator.settle (0%nat, Session.shortClip)
          (ShortsCreator.handleFileChange (Some Session.shortClip)
             Session.initialWorld)))
  = None /\
  ShortsCreator.videoFile
    (ShortsCreator.ui
       (ShortsCreator.settle (0%nat, Session.longClip)
          (ShortsCreator.handleFileChange (Some Session.longClip)
             Session.initialWorld)))
  = Some Session.longClip /\
  exists f : ShortsCreator.File,
    ShortsCreator.videoFile
      (ShortsCreator.ui
         (ShortsCreator.settle (0%nat, Session.longClip)
            (ShortsCreator.handleFileChange (Some Session.longClip)
               Session.initialWorld)))
    = Some f /\ Session.longEnough f.
Proof.
  destruct (short_video_rejected (fun _ => JS.Normal ShortsCreator.JNull))
    as (Hshort & Hlong & Hinv).
  split; [|split].
  - destruct (Hshort Session.initialWorld Session.shortClip (JS.ofZ 12)
                eq_refl eq_refl) as (_ & _ & Hfile & _).
    exact Hfile.
  - destruct (Hlong Session.initialWorld Session.longClip (JS.ofZ 40)
                eq_refl eq_refl) as (Hfile & _).
    exact Hfile.
  - assert (Hreach : Session.reachable (fun _ => JS.Normal ShortsCreator.JNull)
              (ShortsCreator.settle (0%nat, Session.longClip)
                 (ShortsCreator.handleFileChange (Some Session.longClip)
                    Session.initialWorld))).
    { eapply Session.reachable_step.
      - eapply Session.reachable_step.
        + apply Session.reachable_initial.
        + apply Session.step_fileChange.
      - apply Session.step_settle. left. reflexivity. }
    destruct (Hinv _ Hreach) as [Hsend _].
    apply (Hsend ResponseSpec.sampleEnv).
    vm_compute. discriminate.
Defined.

(* ================================================================== *)
(** * Proofs: the audio decoding helpers *)
(* ================================================================== *)

Section DecodingProofs.

Import JS FileUtils WavFormat Decoding.

(** *** Reading base64 text *)

Lemma alphabet_read_back :
  forallb (fun v => match sextetOf (base64Char v) with
                    | Some w => (w =? v)%N && negb (base64Char v =? 61)%N
                                && negb (isAsciiWhitespace (base64Char v))
                    | None => false
                    end)
    (List.map N.of_nat (seq 0 64)) = true.
Proof. vm_compute. reflexivity. Qed.

Lemma sextetOf_base64Char (v : N) :
  (v < 64)%N ->
  sextetOf (base64Char v) = Some v /\ (base64Char v =? 61)%N = false /\
  isAsciiWhitespace (base64Char v) = false.
Proof.
  intros Hv. pose proof alphabet_read_back as H. rewrite forallb_forall in H.
  assert (Hin : In v (List.map N.of_nat (seq 0 64))).
  { apply in_map_iff. exists (N.to_nat v). split; [lia|]. apply in_seq. lia. }
  specialize (H v Hin).
  destruct (sextetOf (base64Char v)) as [w|]; [|discriminate].
  apply andb_true_iff in H as [H H3]. apply andb_true_iff in H as [H1 H2].
  apply N.eqb_eq in H1. apply negb_true_iff in H2, H3. subst.
  repeat split; assumption.
Qed.

Lemma base64Char_not_whitespace (v : N) :
  isAsciiWhitespace (base64Char v) = false.
Proof.
  destruct (N.lt_ge_cases v 64) as [Hv|Hv].
  - now apply sextetOf_base64Char.
  - unfold base64Char. rewrite nth_overflow; [reflexivity|].
    change (length base64Alphabet) with 64%nat. lia.
Qed.

Lemma triples_ind (P : jsstring -> Prop) :
  P [] -> (forall a, P [a]) -> (forall a b, P [a; b]) ->
  (forall a b c rest, P rest -> P (a :: b :: c :: rest)) ->
  forall s, P s.
Proof.
  intros H0 H1 H2 H3 s.
  induction s as [s IH] using (induction_ltof1 _ (@length N)).
  unfold ltof in IH.
  destruct s as [|a [|b [|c rest]]]; auto.
  apply H3. apply IH. simpl. lia.
Qed.

Lemma base64_no_whitespace (s : jsstring) :
  List.filter (fun c => negb (isAsciiWhitespace c)) (base64 s) = base64 s.
Proof.
  induction s as [|a|a b|a b c rest IH] using triples_ind.
  - reflexivity.
  - cbn [base64 List.filter]. now rewrite !base64Char_not_whitespace.
  - cbn [base64 List.filter]. now rewrite !base64Char_not_whitespace.
  - cbn [base64 List.filter app]. rewrite !base64Char_not_whitespace.
    cbn [negb]. now rewrite IH.
Qed.

Lemma base64_length (s : jsstring) :
  (length (base64 s) mod 4 = 0)%nat /\ (s <> [] -> (4 <= length (base64 s))%nat).
Proof.
  induction s as [|a|a b|a b c rest [IH1 IH2]] using triples_ind.
  - split; [reflexivity | congruence].
  - split; [reflexivity | simpl; lia].
  - split; [reflexivity | simpl; lia].
  - cbn [base64 app length]. split; [|lia].
    replace (S (S (S (S (length (base64 rest))))))
      with (length (base64 rest) + 1 * 4)%nat by lia.
    now rewrite Nat.Div0.mod_add.
Qed.

Lemma removePadding_quad (c0 c1 c2 c3 : N) (data : jsstring) :
  (2 <= length data)%nat ->
  removePadding (c0 :: c1 :: c2 :: c3 :: data)
  = c0 :: c1 :: c2 :: c3 :: removePadding data.
Proof.
  intros Hlen. unfold removePadding.
  replace (length (c0 :: c1 :: c2 :: c3 :: data))
    with (length data + 1 * 4)%nat by (simpl; lia).
  rewrite Nat.Div0.mod_add.
  destruct (length data mod 4 =? 0)%nat; [|reflexivity].
  change (c0 :: c1 :: c2 :: c3 :: data) with ([c0; c1; c2; c3] ++ data).
  rewrite rev_app_distr.
  destruct (rev data) as [|d1 [|d2 r]] eqn:E.
  - apply (f_equal (@length N)) in E. rewrite length_rev in E. simpl in E. lia.
  - apply (f_equal (@length N)) in E. rewrite length_rev in E. simpl in E. lia.
  - cbn [app].
    destruct (d1 =? 61)%N; [|reflexivity].
    destruct (d2 =? 61)%N.
    + rewrite rev_app_distr. reflexivity.
    + change (d2 :: r ++ rev [c0; c1; c2; c3])
        with ((d2 :: r) ++ rev [c0; c1; c2; c3]).
      rewrite rev_app_distr. reflexivity.
Qed.

Ltac sextet_lia := zify; Z.to_euclidean_division_equations; lia.

Ltac read_char v :=
  let Hi := fresh "Hi" in
  let Hp := fresh "Hp" in
  destruct (sextetOf_base64Char v) as (Hi & Hp & _); [sextet_lia|];
  rewrite ?Hi, ?Hp; clear Hi Hp.

Lemma removePadding_four (c0 c1 c2 c3 : N) :
  removePadding [c0; c1; c2; c3]
  = if (c3 =? 61)%N
    then if (c2 =? 61)%N then [c0; c1] else [c0; c1; c2]
    else [c0; c1; c2; c3].
Proof. reflexivity. Qed.

(** What is left of an encoded text once the padding is removed reads back
    to the bytes that were encoded. *)
Lemma payload_read_back (s : jsstring) :
  Forall (fun c => (c < 256)%N) s ->
  exists vs,
    sextetsOf (removePadding (base64 s)) = Some vs /\
    bytesOfSextets vs = s /\
    (length (removePadding (base64 s)) mod 4 =? 1)%nat = false.
Proof.
  induction s as [|a|a b|a b c rest IH] using triples_ind; intros Hs.
  - exists []. repeat split; reflexivity.
  - apply Forall_cons in Hs as [Ha _].
    exists [(a / 4)%N; (a mod 4 * 16)%N].
    cbn [base64]. rewrite removePadding_four, !N.eqb_refl.
    cbn [sextetsOf].
    read_char (a / 4)%N. read_char (a mod 4 * 16)%N.
    split; [reflexivity|]. split; [|reflexivity].
    cbn [bytesOfSextets]. f_equal. sextet_lia.
  - apply Forall_cons in Hs as [Ha Hs]. apply Forall_cons in Hs as [Hb _].
    exists [(a / 4)%N; (a mod 4 * 16 + b / 16)%N; (b mod 16 * 4)%N].
    cbn [base64]. rewrite removePadding_four, N.eqb_refl.
    destruct (sextetOf_base64Char (b mod 16 * 4)%N) as (_ & Hp & _);
      [sextet_lia|].
    rewrite Hp. cbn [sextetsOf].
    read_char (a / 4)%N. read_char (a mod 4 * 16 + b / 16)%N.
    read_char (b mod 16 * 4)%N.
    split; [reflexivity|]. split; [|reflexivity].
    cbn [bytesOfSextets]. f_equal; [sextet_lia|]. f_equal. sextet_lia.
  - apply Forall_cons in Hs as [Ha Hs]. apply Forall_cons in Hs as [Hb Hs].
    apply Forall_cons in Hs as [Hc Hs].
    destruct (IH Hs) as (vs & Hvs & Hbytes & Hmod).
    exists ((a / 4)%N :: (a mod 4 * 16 + b / 16)%N
            :: (b mod 16 * 4 + c / 64)%N :: (c mod 64)%N :: vs).
    cbn [base64 app].
    assert (Hpad : removePadding
              (base64Char (a / 4) :: base64Char (a mod 4 * 16 + b / 16)
               :: base64Char (b mod 16 * 4 + c / 64) :: base64Char (c mod 64)
               :: base64 rest)
            = base64Char (a / 4) :: base64Char (a mod 4 * 16 + b / 16)
              :: base64Char (b mod 16 * 4 + c / 64) :: base64Char (c mod 64)
              :: removePadding (base64 rest)).
    { destruct rest as [|r0 rest'].
      - cbn [base64]. rewrite removePadding_four.
        destruct (sextetOf_base64Char (c mod 64)%N) as (_ & Hp & _);
          [sextet_lia|].
        rewrite Hp. reflexivity.
      - apply removePadding_quad.
        destruct (base64_length (r0 :: rest')) as [_ H4].
        specialize (H4 ltac:(discriminate)). lia. }
    rewrite Hpad. cbn [sextetsOf].
    read_char (a / 4)%N. read_char (a mod 4 * 16 + b / 16)%N.
    read_char (b mod 16 * 4 + c / 64)%N. read_char (c mod 64)%N.
    rewrite Hvs. split; [reflexivity|]. split.
    + cbn [bytesOfSextets]. rewrite Hbytes.
      f_equal; [sextet_lia|]. f_equal; [sextet_lia|]. f_equal. sextet_lia.
    + cbn [length].
      replace (S (S (S (S (length (removePadding (base64 rest)))))))
        with (length (removePadding (base64 rest)) + 1 * 4)%nat by lia.
      rewrite Nat.Div0.mod_add. exact Hmod.
Qed.

Lemma atob_base64 (s : jsstring) :
  Forall (fun c => (c < 256)%N) s -> atob (base64 s) = Normal s.
Proof.
  intros Hs. unfold atob. rewrite base64_no_whitespace.
  destruct (payload_read_back s Hs) as (vs & Hvs & Hbytes & Hmod).
  rewrite Hmod, Hvs, Hbytes. reflexivity.
Qed.

Lemma fillBytes_map (rest : jsstring) :
  forall (pre tl : list Z),
    length tl = length rest ->
    fillBytes rest (length pre) (pre ++ tl)
    = pre ++ List.map (fun c => Z.of_N c mod 256) rest.
Proof.
  induction rest as [|c rest IH]; intros pre tl Hlen.
  - destruct tl; [reflexivity | discriminate].
  - destruct tl as [|t tl]; [discriminate|].
    cbn [fillBytes List.map].
    rewrite insert_app_r_alt by lia.
    rewrite Nat.sub_diag. cbn [insert list_insert].
    replace (S (length pre)) with (length (pre ++ [Z.of_N c mod 256]))
      by (rewrite length_app; simpl; lia).
    change (pre ++ Z.of_N c mod 256 :: tl)
      with (pre ++ [Z.of_N c mod 256] ++ tl).
    rewrite app_assoc, IH by (simpl in Hlen; lia).
    now rewrite <- app_assoc.
Qed.

Lemma decode_atob (text binary : jsstring) :
  atob text = Normal binary ->
  decode text = Normal (List.map (fun c => Z.of_N c mod 256) binary).
Proof.
  intros H. unfold decode. rewrite H. cbn [bind]. f_equal.
  apply (fillBytes_map binary [] (replicate (length binary) 0)).
  apply length_replicate.
Qed.

Lemma bytes_of_charCodes (bytes : list Z) :
  Forall isByte bytes ->
  List.map (fun c => Z.of_N c mod 256) (fromCharCode bytes) = bytes.
Proof.
  induction 1 as [|b bytes Hb _ IH]; [reflexivity|].
  unfold fromCharCode in *. cbn [List.map]. rewrite IH. f_equal.
  unfold isByte in Hb. rewrite Z2N.id by lia. apply Z.mod_small. lia.
Qed.

Lemma decode_base64 (bytes : list Z) :
  Forall isByte bytes -> decode (base64 (fromCharCode bytes)) = Normal bytes.
Proof.
  intros H.
  rewrite (decode_atob _ (fromCharCode bytes)).
  - now rewrite bytes_of_charCodes.
  - apply atob_base64. now apply fromCharCode_Latin1.
Qed.

(** X1.  [decode] inverts the text encoding of [audioBufferToWav]: the
    base64 text that [btoa] yields for any sequence of bytes decodes to
    exactly these bytes; in particular the text returned for an audio
    buffer decodes to the bytes of its WAV file. *)
Theorem decode_round_trip :
  (forall bytes : list Z,
      Forall isByte bytes ->
      exists text, btoa (fromCharCode bytes) = Normal text /\
                   decode text = Normal bytes) /\
  (forall b : AudioBuffer,
      channels b <> [] ->
      exists text bytes,
        audioBufferToWav b = Normal text /\ wavBytes b = Normal bytes /\
        decode text = Normal bytes).
Proof.
  split.
  - intros bytes H. exists (base64 (fromCharCode bytes)).
    split; [now apply btoa_bytes | now apply decode_base64].
  - intros b Hne.
    pose proof (wavBytes_layout b _ (wavResult_channels b Hne)) as Hbytes.
    eexists. eexists. split; [|split; [exact Hbytes|]].
    + unfold audioBufferToWav. rewrite Hbytes. cbn [bind].
      rewrite binaryString_all by lia.
      apply btoa_bytes.
      apply Forall_app. split; [apply wavHeader_bytes | apply samples_bytes].
    + apply decode_base64.
      apply Forall_app. split; [apply wavHeader_bytes | apply samples_bytes].
Qed.

(** *** Text that is not base64 *)

Lemma sextetsOf_cons_inv (c : N) (data : jsstring) (vs : list N) :
  sextetsOf (c :: data) = Some vs ->
  exists v vs',
    sextetOf c = Some v /\ sextetsOf data = Some vs' /\ vs = v :: vs'.
Proof.
  cbn [sextetsOf].
  generalize (sextetOf c) as o. intros [v|]; [|discriminate].
  generalize (sextetsOf data) as o'. intros [vs'|]; [|discriminate].
  intros [= <-]. eauto.
Qed.

Lemma sextetsOf_all (data : jsstring) (vs : list N) :
  sextetsOf data = Some vs ->
  Forall (fun c => sextetOf c <> None) data.
Proof.
  revert vs. induction data as [|c data IH]; intros vs H; [constructor|].
  apply sextetsOf_cons_inv in H as (v & vs' & Hv & Hvs & _).
  constructor; [congruence | exact (IH _ Hvs)].
Qed.

Lemma removePadding_keeps (c : N) (data : jsstring) :
  c <> 61%N -> In c data -> In c (removePadding data).
Proof.
  intros Hc Hin. unfold removePadding.
  destruct (length data mod 4 =? 0)%nat; [|exact Hin].
  destruct (rev data) as [|c1 [|c2 r]] eqn:E; try exact Hin.
  assert (Hd : data = rev r ++ [c2; c1]).
  { rewrite <- (rev_involutive data), E. cbn [rev].
    now rewrite <- app_assoc. }
  destruct (N.eqb_spec c1 61) as [E1|E1]; [|exact Hin].
  rewrite Hd in Hin. apply in_app_or in Hin.
  destruct (N.eqb_spec c2 61) as [E2|E2].
  - destruct Hin as [Hin|Hin]; [exact Hin|].
    simpl in Hin. destruct Hin as [<-|[<-|[]]]; congruence.
  - cbn [rev]. apply in_or_app.
    destruct Hin as [Hin|Hin]; [now left|].
    simpl in Hin. destruct Hin as [<-|[<-|[]]]; [right; now left | congruence].
Qed.

(** X2.  [decode] refuses text that is not base64: when the text holds a
    code unit that is neither of the alphabet, nor [=], nor ASCII white
    space, it throws the DOMException of [atob] and returns no bytes. *)
Theorem decode_rejects (text : jsstring) (c : N) :
  In c text -> sextetOf c = None -> c <> 61%N ->
  isAsciiWhitespace c = false ->
  decode text = Throw notCorrectlyEncoded.
Proof.
  intros Hin Hc H61 Hws. unfold decode, atob.
  set (data := removePadding
                 (List.filter (fun c => negb (isAsciiWhitespace c)) text)).
  assert (Hd : In c data).
  { apply removePadding_keeps; [exact H61|].
    apply filter_In. split; [exact Hin | now rewrite Hws]. }
  destruct (length data mod 4 =? 1)%nat; [reflexivity|].
  destruct (sextetsOf data) as [vs|] eqn:E; [|reflexivity].
  apply sextetsOf_all in E. rewrite Forall_forall in E.
  apply list_elem_of_In in Hd. specialize (E c Hd). congruence.
Qed.

Lemma decode_rejects_witness :
  decode (lit "UklG*g==") = Throw notCorrectlyEncoded.
Proof.
  apply (decode_rejects (lit "UklG*g==") 42%N).
  - vm_compute. tauto.
  - reflexivity.
  - discriminate.
  - reflexivity.
Defined.

(** *** decodeAudioData *)

Lemma nat_nonzero (n : nat) :
  (1 <= n)%nat -> Qeq_bool (inject_Z (Z.of_nat n)) 0 = false.
Proof.
  intros Hn. destruct (Qeq_bool _ 0) eqn:E; [|reflexivity].
  apply Qeq_bool_iff in E. unfold Qeq in E. simpl in E. lia.
Qed.

Lemma frameCount_value (L n : nat) :
  (1 <= n)%nat ->
  div (ofZ (Z.of_nat L)) (ofZ (Z.of_nat n))
  = Fin (inject_Z (Z.of_nat L) / inject_Z (Z.of_nat n)).
Proof.
  intros Hn. unfold div, ofZ. now rewrite nat_nonzero.
Qed.

Lemma below_frameCount (i L n : nat) :
  (1 <= n)%nat ->
  ltb (ofZ (Z.of_nat i)) (Fin (inject_Z (Z.of_nat L) / inject_Z (Z.of_nat n)))
  = (i * n <? L)%nat.
Proof.
  intros Hn. unfold ofZ. rewrite ltb_Fin.
  assert (Hp : (0 < inject_Z (Z.of_nat n))%Q).
  { change 0%Q with (inject_Z 0). rewrite <- Zlt_Qlt. lia. }
  apply eq_true_iff_eq. rewrite Qltb_lt, Nat.ltb_lt. split.
  - intros H.
    apply (Qmult_lt_r _ _ _ Hp) in H.
    assert (E : (inject_Z (Z.of_nat L) / inject_Z (Z.of_nat n)
                 * inject_Z (Z.of_nat n) == inject_Z (Z.of_nat L))%Q).
    { field. lra. }
    rewrite E, <- inject_Z_mult, <- Zlt_Qlt in H. lia.
  - intros H. apply Qlt_shift_div_l; [exact Hp|].
    rewrite <- inject_Z_mult, <- Zlt_Qlt. lia.
Qed.

Lemma ToUint32_frameCount (L n : nat) :
  (1 <= n)%nat -> Z.of_nat (L / n) < 4294967296 ->
  ToUint32 (Fin (inject_Z (Z.of_nat L) / inject_Z (Z.of_nat n)))
  = Z.of_nat (L / n).
Proof.
  intros Hn Hsmall. unfold ToUint32.
  assert (Hp : (0 < inject_Z (Z.of_nat n))%Q).
  { change 0%Q with (inject_Z 0). rewrite <- Zlt_Qlt. lia. }
  assert (H0 : (0 <= inject_Z (Z.of_nat L) / inject_Z (Z.of_nat n))%Q).
  { apply Qle_shift_div_l; [exact Hp|].
    rewrite Qmult_0_l. change 0%Q with (inject_Z 0). rewrite <- Zle_Qle. lia. }
  rewrite Qtrunc_floor.
  apply Qnum_sign in H0. rewrite H0.
  rewrite <- Zdiv_Qdiv, <- Nat2Z.inj_div.
  apply Z.mod_small. lia.
Qed.

(** The inner loop leaves the samples of the whole frames in the channel;
    the turn for a trailing partial frame stores nothing. *)
Lemma fillChannel_result (d : list Z) (n c L frames : nat) :
  (1 <= n)%nat -> frames = (L / n)%nat ->
  forall (fuel i : nat) (ch : list number),
    length ch = frames -> (L <= (i + fuel) * n)%nat ->
    fillChannel d n c (Fin (inject_Z (Z.of_nat L) / inject_Z (Z.of_nat n)))
      fuel i ch
    = if (i <=? frames)%nat
      then take i ch
           ++ List.map (fun j => sampleAt d (j * n + c)) (seq i (frames - i))
      else ch.
Proof.
  intros Hn Hframes.
  assert (Hlo : (frames * n <= L)%nat).
  { subst frames. rewrite Nat.mul_comm. apply Nat.Div0.mul_div_le. }
  assert (Hhi : (L < (frames + 1) * n)%nat).
  { subst frames.
    pose proof (Nat.div_mod_eq L n) as E.
    pose proof (Nat.mod_upper_bound L n ltac:(lia)). nia. }
  induction fuel as [|fuel IH]; intros i ch Hlen Hfuel.
  - cbn [fillChannel]. rewrite Nat.add_0_r in Hfuel.
    destruct (Nat.leb_spec i frames) as [Hi|Hi]; [|reflexivity].
    assert (i = frames) by nia. subst i.
    rewrite Nat.sub_diag, take_ge by lia. cbn. now rewrite app_nil_r.
  - cbn [fillChannel]. rewrite below_frameCount by exact Hn.
    destruct (Nat.ltb_spec (i * n) L) as [Hin|Hout].
    + assert (Hi : (i <= frames)%nat) by nia.
      rewrite IH; [|now rewrite length_insert | lia].
      destruct (Nat.leb_spec i frames) as [_|]; [|lia].
      destruct (Nat.leb_spec (S i) frames) as [Hlt|Hge].
      * replace (frames - i)%nat with (S (frames - S i)) by lia.
        cbn [seq List.map].
        rewrite take_S_r with (x := sampleAt d (i * n + c)).
        -- rewrite take_insert_ge by lia. now rewrite <- app_assoc.
        -- apply list_lookup_insert_eq. lia.
      * assert (i = frames) by lia. subst i.
        rewrite Nat.sub_diag. cbn [seq List.map].
        rewrite list_insert_ge by lia.
        rewrite take_ge by lia. now rewrite app_nil_r.
    + destruct (Nat.leb_spec i frames) as [Hi|Hi]; [|reflexivity].
      assert (i = frames) by nia. subst i.
      rewrite Nat.sub_diag, take_ge by lia. cbn. now rewrite app_nil_r.
Qed.

Lemma fillChannels_result (d : list Z) (n L frames : nat) (rate : Z) :
  (1 <= n)%nat -> frames = (L / n)%nat -> length d = L ->
  forall (k c : nat) (chs : list (list number)),
    (c + k)%nat = length chs ->
    Forall (fun ch => length ch = frames) chs ->
    fillChannels d n (Fin (inject_Z (Z.of_nat L) / inject_Z (Z.of_nat n)))
      (seq c k) (mkAudioBuffer rate frames chs)
    = Normal (mkAudioBuffer rate frames
                (take c chs
                 ++ List.map (fun c' =>
                      List.map (fun j => sampleAt d (j * n + c'))
                        (seq 0 frames))
                      (seq c k))).
Proof.
  intros Hn Hframes Hd.
  induction k as [|k IH]; intros c chs Hlen Hall.
  - cbn [seq fillChannels List.map].
    rewrite take_ge by lia. now rewrite app_nil_r.
  - cbn [seq fillChannels List.map].
    unfold getChannelData. cbn [channels].
    destruct (chs !! c) as [ch|] eqn:Ech.
    2:{ apply lookup_ge_None in Ech. lia. }
    cbn [bind].
    assert (Hch : length ch = frames).
    { rewrite Forall_forall in Hall. apply Hall.
      eapply list_elem_of_lookup_2. exact Ech. }
    rewrite (fillChannel_result d n c L frames Hn Hframes)
      by (first [exact Hch | rewrite Hd; nia]).
    cbn [Nat.leb take app]. rewrite Nat.sub_0_r.
    unfold setChannelData. cbn [sampleRate bufferLength channels].
    rewrite IH.
    + f_equal. f_equal.
      rewrite take_S_r
        with (x := List.map (fun j => sampleAt d (j * n + c)) (seq 0 frames))
        by (apply list_lookup_insert_eq; lia).
      rewrite take_insert_ge by lia. now rewrite <- app_assoc.
    + rewrite length_insert. lia.
    + apply Forall_insert; [exact Hall|]. simpl.
      now rewrite length_map, length_seq.
Qed.

Lemma int16Elements_length (bytes : list Z) :
  length (int16Elements bytes) = (length bytes / 2)%nat.
Proof.
  induction bytes as [bytes IH] using (induction_ltof1 _ (@length Z)).
  unfold ltof in IH.
  destruct bytes as [|b0 [|b1 rest]]; [reflexivity | reflexivity |].
  cbn [int16Elements length]. rewrite IH by (simpl; lia).
  change (S (S (length rest))) with (1 * 2 + length rest)%nat.
  rewrite Nat.div_add_l by lia. reflexivity.
Qed.

Lemma int16At_range (b0 b1 : Z) :
  isByte b0 -> isByte b1 -> -32768 <= int16At b0 b1 <= 32767.
Proof.
  unfold isByte, int16At. intros H0 H1.
  destruct (Z.geb_spec (b0 + 256 * b1) 32768); lia.
Qed.

Lemma int16Elements_lookup (bytes : list Z) :
  forall (k : nat) (v : Z),
    int16Elements bytes !! k = Some v ->
    exists b0 b1,
      bytes !! (2 * k)%nat = Some b0 /\ bytes !! S (2 * k) = Some b1 /\
      v = int16At b0 b1.
Proof.
  induction bytes as [bytes IH] using (induction_ltof1 _ (@length Z)).
  unfold ltof in IH. intros k v H.
  destruct bytes as [|b0 [|b1 rest]]; [discriminate | discriminate |].
  cbn [int16Elements] in H.
  destruct k as [|k].
  - injection H as <-. exists b0, b1. repeat split.
  - cbn [lookup list_lookup] in H.
    apply IH in H as (c0 & c1 & H0 & H1 & ->); [|simpl; lia].
    exists c0, c1.
    replace (2 * S k)%nat with (S (S (2 * k))) by lia.
    repeat split; assumption.
Qed.

Lemma int16Elements_range (bytes : list Z) :
  Forall isByte bytes ->
  Forall (fun v => -32768 <= v <= 32767) (int16Elements bytes).
Proof.
  intros Hb. apply Forall_lookup. intros k v H.
  apply int16Elements_lookup in H as (b0 & b1 & H0 & H1 & ->).
  rewrite Forall_lookup in Hb.
  apply int16At_range; eapply Hb; eassumption.
Qed.

Lemma sample_value (v : Z) :
  div (ofZ v) (ofZ 32768) = Fin (inject_Z v / 32768).
Proof. reflexivity. Qed.

Lemma sample_range (v : Z) :
  -32768 <= v <= 32767 ->
  (-1 <= inject_Z v / 32768)%Q /\ (inject_Z v / 32768 < 1)%Q.
Proof.
  intros [Hlo Hhi].
  assert (H1 : (inject_Z (-32768) <= inject_Z v)%Q) by (rewrite <- Zle_Qle; lia).
  assert (H2 : (inject_Z v <= inject_Z 32767)%Q) by (rewrite <- Zle_Qle; lia).
  change (inject_Z (-32768)) with (-32768)%Q in H1.
  change (inject_Z 32767) with 32767%Q in H2.
  split.
  - apply Qle_shift_div_l; lra.
  - apply Qlt_shift_div_r; lra.
Qed.

Lemma decodeAudioData_run (data : list Z) (rate : Z) (n : nat) :
  (1 <= n)%nat -> 0 < rate -> Nat.even (length data) = true ->
  (1 <= length data / 2 / n)%nat ->
  Z.of_nat (length data / 2 / n) < 4294967296 ->
  decodeAudioData data rate n
  = Normal (mkAudioBuffer rate (length data / 2 / n)
              (List.map (fun c =>
                 List.map (fun j => sampleAt (int16Elements data) (j * n + c))
                   (seq 0 (length data / 2 / n)))
                 (seq 0 n))).
Proof.
  intros Hn Hrate Heven Hframes Hsmall.
  unfold decodeAudioData, Int16Array_new. rewrite Heven. cbn [bind].
  rewrite int16Elements_length.
  rewrite frameCount_value by exact Hn.
  rewrite ToUint32_frameCount by assumption.
  unfold createBuffer.
  replace ((1 <=? n)%nat) with true by (symmetry; apply Nat.leb_le; lia).
  replace (1 <=? Z.of_nat (length data / 2 / n)) with true
    by (symmetry; apply Z.leb_le; lia).
  replace (0 <? rate) with true by (symmetry; apply Z.ltb_lt; lia).
  cbn [andb bind]. rewrite Nat2Z.id.
  rewrite (fillChannels_result (int16Elements data) n (length data / 2)
             (length data / 2 / n) rate Hn eq_refl
             (int16Elements_length data) n 0).
  - reflexivity.
  - now rewrite length_replicate.
  - apply Forall_replicate. apply length_replicate.
Qed.

(** X3.  [decodeAudioData] de-interleaves 16-bit little-endian PCM: for
    a channel count and a rate that every browser supports (1 to 32
    channels, 8 to 96 kHz) and [data] of an even number of bytes that
    holds at least one whole frame of [numChannels] samples, the buffer
    returned has [numChannels]
    channels of as many samples as there are whole frames (a trailing
    partial frame is dropped), at the rate given; sample [i] of channel [c]
    is the signed value of the bytes [2k] and [2k+1], [k = i * numChannels
    + c], divided by 32768, which lies in [-1, 1). *)
Theorem decodeAudioData_layout (data : list Z) (rate : Z)
    (numChannels : nat) :
  Forall isByte data ->
  (1 <= numChannels <= 32)%nat -> 8000 <= rate <= 96000 ->
  Nat.even (length data) = true ->
  (1 <= length data / 2 / numChannels)%nat ->
  Z.of_nat (length data / 2 / numChannels) < 4294967296 ->
  exists b : AudioBuffer,
    decodeAudioData data rate numChannels = Normal b /\
    wfAudioBuffer b /\ sampleRate b = rate /\
    bufferLength b = (length data / 2 / numChannels)%nat /\
    length (channels b) = numChannels /\
    forall c i : nat,
      (c < numChannels)%nat -> (i < length data / 2 / numChannels)%nat ->
      exists (ch : list number) (b0 b1 : Z),
        channels b !! c = Some ch /\
        data !! (2 * (i * numChannels + c))%nat = Some b0 /\
        data !! S (2 * (i * numChannels + c)) = Some b1 /\
        ch !! i = Some (Fin (inject_Z (int16At b0 b1) / 32768)) /\
        (-1 <= inject_Z (int16At b0 b1) / 32768)%Q /\
        (inject_Z (int16At b0 b1) / 32768 < 1)%Q.
Proof.
  intros Hbytes [Hn _] Hrange Heven Hframes Hsmall.
  assert (Hrate : 0 < rate) by lia.
  eexists. split; [now apply decodeAudioData_run|].
  set (frames := (length data / 2 / numChannels)%nat) in *.
  split.
  { unfold wfAudioBuffer. cbn [sampleRate bufferLength channels].
    split; [exact Hrate|]. split; [lia|]. split.
    - destruct numChannels; [lia | discriminate].
    - apply Forall_fmap, Forall_forall. intros c _. simpl.
      now rewrite length_map, length_seq. }
  split; [reflexivity|]. split; [reflexivity|].
  split; [cbn [channels]; now rewrite length_map, length_seq|].
  intros c i Hc Hi. cbn [channels].
  assert (Hk : (i * numChannels + c < length (int16Elements data))%nat).
  { rewrite int16Elements_length.
    assert (frames * numChannels <= length data / 2)%nat.
    { subst frames. rewrite Nat.mul_comm. apply Nat.Div0.mul_div_le. }
    nia. }
  destruct (lookup_lt_is_Some_2 _ _ Hk) as [v Hv].
  pose proof Hv as Hv'.
  apply int16Elements_lookup in Hv' as (b0 & b1 & H0 & H1 & ->).
  eexists. exists b0, b1.
  split.
  { rewrite list_lookup_fmap, lookup_seq_lt by lia. reflexivity. }
  split; [exact H0|]. split; [exact H1|]. split.
  { rewrite list_lookup_fmap, lookup_seq_lt by lia. cbn [fmap option_fmap option_map].
    f_equal. unfold sampleAt. cbn [Nat.add]. now rewrite Hv. }
  apply sample_range. rewrite Forall_lookup in Hbytes.
  apply int16At_range; eapply Hbytes; eassumption.
Qed.

Lemma decodeAudioData_layout_witness :
  exists b : AudioBuffer,
    decodeAudioData [0; 64; 0; 128; 255; 127; 0; 192] 24000 2 = Normal b /\
    bufferLength b = 2%nat /\
    channels b = [[Fin (16384 # 32768); Fin (32767 # 32768)];
                  [Fin (-32768 # 32768); Fin (-16384 # 32768)]].
Proof.
  destruct (decodeAudioData_layout [0; 64; 0; 128; 255; 127; 0; 192] 24000 2)
    as (b & Hrun & _ & _ & Hlen & _).
  - repeat constructor; unfold isByte; lia.
  - lia.
  - lia.
  - reflexivity.
  - vm_compute. lia.
  - vm_compute. reflexivity.
  - exists b. split; [exact Hrun|]. split; [exact Hlen|].
    vm_compute in Hrun. injection Hrun as <-. reflexivity.
Defined.

Lemma decodeAudioData_returns_iff_frames (L n : nat) :
  (1 <= n)%nat -> ((1 <= L / n)%nat <-> (n <= L)%nat).
Proof.
  intros Hn. split.
  - intros H. pose proof (Nat.Div0.mul_div_le L n). nia.
  - intros H. apply Nat.div_le_lower_bound; lia.
Qed.

(** X4.  When [decodeAudioData] returns a buffer and when it throws: for
    a channel count of at most 32, a rate between 8 and 96 kHz and data of
    fewer than 2^32 bytes, it returns a buffer exactly when the number of
    bytes is even, the channel count is positive and the data holds at
    least one sample per channel; otherwise (an odd number of bytes, empty
    data, data shorter than one frame, no channel) it throws. *)
Theorem decodeAudioData_returns_iff (data : list Z) (rate : Z)
    (numChannels : nat) :
  (numChannels <= 32)%nat -> 8000 <= rate <= 96000 ->
  Z.of_nat (length data) < 4294967296 ->
  (exists b : AudioBuffer, decodeAudioData data rate numChannels = Normal b)
  <-> (Nat.even (length data) = true /\ (1 <= numChannels)%nat /\
       (numChannels <= length data / 2)%nat).
Proof.
  intros _ Hrange Hsmall.
  assert (Hdiv : forall n, Z.of_nat (length data / 2 / n) < 4294967296).
  { intros n.
    assert (length data / 2 / n <= length data)%nat; [|lia].
    destruct n as [|n]; [simpl; lia|].
    apply Nat.Div0.div_le_upper_bound.
    pose proof (Nat.Div0.mul_div_le (length data) 2). nia. }
  split.
  - intros [b Hrun]. unfold decodeAudioData, Int16Array_new in Hrun.
    destruct (Nat.even (length data)) eqn:Heven; [|discriminate].
    cbn [bind] in Hrun. rewrite int16Elements_length in Hrun.
    destruct (Nat.leb_spec 1 numChannels) as [Hn|Hn].
    + rewrite frameCount_value in Hrun by exact Hn.
      rewrite ToUint32_frameCount in Hrun by auto.
      unfold createBuffer in Hrun.
      destruct (Z.leb_spec 1 (Z.of_nat (length data / 2 / numChannels)))
        as [Hf|Hf]; [|rewrite andb_false_r in Hrun; discriminate].
      repeat split; try assumption.
      apply decodeAudioData_returns_iff_frames; lia.
    + unfold createBuffer in Hrun.
      replace ((1 <=? numChannels)%nat) with false in Hrun
        by (symmetry; apply Nat.leb_gt; lia).
      discriminate.
  - intros (Heven & Hn & Hlen).
    eexists. apply decodeAudioData_run; auto; [lia|].
    apply decodeAudioData_returns_iff_frames; lia.
Qed.

Lemma decodeAudioData_returns_iff_witness :
  (exists b : AudioBuffer, decodeAudioData [1; 2; 3] 24000 1 = Normal b)
  <-> (Nat.even 3 = true /\ (1 <= 1)%nat /\ (1 <= 3 / 2)%nat).
Proof.
  apply (decodeAudioData_returns_iff [1; 2; 3] 24000 1).
  - lia.
  - lia.
  - reflexivity.
Defined.

(** *** From PCM to a buffer and back to PCM *)

Lemma Qtrunc_inject_Z (v : Z) : Qtrunc (inject_Z v) = v.
Proof. unfold Qtrunc. simpl. apply Z.quot_1_r. Qed.

Lemma reencode_sample (v : Z) :
  -32768 <= v <= 32767 ->
  ToInt16 (scaleSample (div (ofZ v) (ofZ 32768)))
  = if 0 <? v then v - 1 else v.
Proof.
  intros Hv. rewrite sample_value, sample_pcm16.
  destruct (sample_range v Hv) as [Hlo Hhi].
  unfold pcm16, clamp.
  assert (E1 : Qltb (inject_Z v / 32768) (-1) = false)
    by (apply Qltb_ge; exact Hlo).
  assert (E2 : Qltb 1 (inject_Z v / 32768) = false)
    by (apply Qltb_ge; lra).
  rewrite E1, E2.
  destruct (Qltb (inject_Z v / 32768) 0) eqn:E.
  - apply Qltb_lt in E.
    assert (Hneg : v < 0).
    { apply Z.nle_gt. intros Hge.
      assert (0 <= inject_Z v)%Q
        by (change 0%Q with (inject_Z 0); rewrite <- Zle_Qle; lia).
      assert (0 <= inject_Z v / 32768)%Q by (apply Qle_shift_div_l; lra).
      lra. }
    rewrite (Qtrunc_comp _ (inject_Z v)) by (field).
    rewrite Qtrunc_inject_Z.
    destruct (Z.ltb_spec 0 v); [lia | reflexivity].
  - apply Qltb_ge in E.
    assert (Hpos : 0 <= v).
    { apply Z.nlt_ge. intros Hlt.
      assert (inject_Z v < 0)%Q
        by (change 0%Q with (inject_Z 0); rewrite <- Zlt_Qlt; lia).
      assert (inject_Z v / 32768 < 0)%Q by (apply Qlt_shift_div_r; lra).
      lra. }
    rewrite (Qtrunc_comp _ (inject_Z (v * 32767) / inject_Z 32768)).
    2:{ rewrite inject_Z_mult. change (inject_Z 32767) with 32767%Q.
        change (inject_Z 32768) with 32768%Q. field. }
    rewrite Qtrunc_floor.
    assert (H0 : (0 <= inject_Z (v * 32767) / inject_Z 32768)%Q).
    { apply Qle_shift_div_l; [reflexivity|]. rewrite Qmult_0_l.
      change 0%Q with (inject_Z 0). rewrite <- Zle_Qle. lia. }
    apply Qnum_sign in H0. rewrite H0, <- Zdiv_Qdiv.
    destruct (Z.ltb_spec 0 v); Z.to_euclidean_division_equations; lia.
Qed.

Lemma samples_of_elements (d : list Z) :
  List.map (fun j => sampleAt d (j * 1 + 0)) (seq 0 (length d))
  = List.map (fun v => div (ofZ v) (ofZ 32768)) d.
Proof.
  apply list_eq. intros i.
  rewrite !list_lookup_fmap.
  destruct (d !! i) as [v|] eqn:E.
  - rewrite lookup_seq_lt by (eapply lookup_lt_Some; exact E).
    cbn [fmap option_fmap option_map Nat.add]. unfold sampleAt.
    rewrite Nat.mul_1_r, Nat.add_0_r, E. reflexivity.
  - rewrite lookup_seq_ge by (apply lookup_ge_None; exact E). reflexivity.
Qed.

Lemma mono_decoded (data : list Z) (rate : Z) :
  0 < rate -> Nat.even (length data) = true -> (2 <= length data)%nat ->
  Z.of_nat (length data / 2) < 4294967296 ->
  decodeAudioData data rate 1
  = Normal (mkAudioBuffer rate (length data / 2)
              [List.map (fun v => div (ofZ v) (ofZ 32768))
                 (int16Elements data)]).
Proof.
  intros Hrate Heven Hlen Hsmall.
  assert (H2 : (1 <= length data / 2)%nat).
  { apply Nat.div_le_lower_bound; lia. }
  rewrite decodeAudioData_run; rewrite ?Nat.div_1_r; try assumption; [|lia].
  cbn [seq List.map]. rewrite <- int16Elements_length at 2.
  now rewrite samples_of_elements.
Qed.

Lemma reencoded_bytes (d : list Z) :
  Forall (fun v => -32768 <= v <= 32767) d ->
  flat_map (fun x => u16le (ToInt16 (scaleSample x)))
    (List.map (fun v => div (ofZ v) (ofZ 32768)) d)
  = flat_map (fun v => u16le (if 0 <? v then v - 1 else v)) d.
Proof.
  induction 1 as [|v d Hv _ IH]; [reflexivity|].
  cbn [List.map flat_map]. now rewrite IH, reencode_sample.
Qed.

(** X5.  16-bit PCM that goes through [decodeAudioData] (one channel, a
    rate between 8 and 96 kHz) and
    back through the WAV serializer does not come back unchanged: every
    sample that is zero or negative is written as it was read, every
    positive sample is written one step lower.  The data section has the
    length of the input. *)
Theorem pcm_reencoded (data : list Z) (rate : Z) :
  Forall isByte data -> 8000 <= rate <= 96000 ->
  Nat.even (length data) = true ->
  (2 <= length data)%nat -> Z.of_nat (length data / 2) < 4294967296 ->
  exists b : AudioBuffer,
    decodeAudioData data rate 1 = Normal b /\
    wavBytes b
    = Normal (wavHeader 1 rate (Z.of_nat (length data))
              ++ flat_map (fun v => u16le (if 0 <? v then v - 1 else v))
                   (int16Elements data)).
Proof.
  intros Hbytes Hrange Heven Hlen Hsmall.
  assert (Hrate : 0 < rate) by lia.
  eexists. split; [now apply mono_decoded|].
  erewrite wavBytes_layout; [|apply wavResult_channels; discriminate].
  cbn [channels numberOfChannels sampleRate length].
  rewrite length_map, int16Elements_length.
  rewrite reencoded_bytes by (now apply int16Elements_range).
  do 3 f_equal.
  apply Nat.even_spec in Heven as [k Hk]. rewrite Hk.
  rewrite Nat.mul_comm, Nat.div_mul by lia. lia.
Qed.

Lemma pcm_reencoded_witness :
  exists b : AudioBuffer,
    decodeAudioData [0; 64; 0; 128; 255; 127; 0; 0] 24000 1 = Normal b /\
    exists bytes,
      wavBytes b = Normal bytes /\
      drop 44 bytes = [255; 63; 0; 128; 254; 127; 0; 0].
Proof.
  destruct (pcm_reencoded [0; 64; 0; 128; 255; 127; 0; 0] 24000)
    as (b & Hrun & Hwav).
  - repeat constructor; unfold isByte; lia.
  - lia.
  - reflexivity.
  - simpl. lia.
  - vm_compute. reflexivity.
  - exists b. split; [exact Hrun|]. eexists. split; [exact Hwav|].
    reflexivity.
Defined.

(** *** The speech component *)

(** X6.  The speech component plays what the service sent: when the
    service answers with the base64 text of [pcm], an even number of bytes
    (at least two), [handleSubmit] stores a buffer of one channel at
    24 kHz with one sample per two bytes, each the signed little-endian
    value divided by 32768; no error is shown and the loading flag is
    cleared. *)
Theorem handleSubmit_speech (generateSpeech : jsstring -> completion jsstring)
    (s : TextToSpeech.State) (pcm : list Z) :
  nonempty (TextToSpeech.text s) = true ->
  TextToSpeech.isLoading s = false ->
  Forall isByte pcm -> Nat.even (length pcm) = true ->
  (2 <= length pcm)%nat -> Z.of_nat (length pcm / 2) < 4294967296 ->
  generateSpeech (TextToSpeech.text s) = btoa (fromCharCode pcm) ->
  TextToSpeech.handleSubmit generateSpeech true s
  = TextToSpeech.mkState (TextToSpeech.text s) false None
      (Some (mkAudioBuffer 24000 (length pcm / 2)
               [List.map (fun v => div (ofZ v) (ofZ 32768))
                  (int16Elements pcm)])).
Proof.
  intros Htext Hload Hbytes Heven Hlen Hsmall Hgen.
  unfold TextToSpeech.handleSubmit, TextToSpeech.speechBody.
  rewrite Htext, Hload. cbn [negb orb TextToSpeech.text].
  rewrite Hgen, btoa_bytes by exact Hbytes. cbn [bind].
  rewrite decode_base64 by exact Hbytes. cbn [bind].
  rewrite mono_decoded by (assumption || lia). cbn [bind].
  reflexivity.
Qed.

Lemma handleSubmit_speech_witness :
  TextToSpeech.handleSubmit (fun _ => Normal (lit "AEAAgP9/AAA=")) true
    (TextToSpeech.mkState (lit "hello") false None None)
  = TextToSpeech.mkState (lit "hello") false None
      (Some (mkAudioBuffer 24000 4
               [[Fin (16384 / 32768); Fin (-32768 / 32768);
                 Fin (32767 / 32768); Fin (0 / 32768)]])).
Proof.
  apply (handleSubmit_speech (fun _ => Normal (lit "AEAAgP9/AAA=")) 
           (TextToSpeech.mkState (lit "hello") false None None)
           [0; 64; 0; 128; 255; 127; 0; 0]).
  - reflexivity.
  - reflexivity.
  - repeat constructor; unfold isByte; lia.
  - reflexivity.
  - simpl. lia.
  - vm_compute. reflexivity.
  - reflexivity.
Defined.

(** X7.  Whatever the speech service answers, a submission of the speech
    component ends with the loading flag cleared and the text unchanged;
    it never leaves both an error and a buffer, the message shown is never
    empty, and text that is not base64 or decodes to an odd number of bytes
    ends in an error and no buffer. *)
Theorem handleSubmit_speech_settles
    (generateSpeech : jsstring -> completion jsstring) (hasContext : bool)
    (s : TextToSpeech.State) :
  nonempty (TextToSpeech.text s) = true ->
  TextToSpeech.isLoading s = false ->
  let s' := TextToSpeech.handleSubmit generateSpeech hasContext s in
  TextToSpeech.isLoading s' = false /\
  TextToSpeech.text s' = TextToSpeech.text s /\
  (TextToSpeech.error s' = None \/ TextToSpeech.audioBuffer s' = None) /\
  (forall m, TextToSpeech.error s' = Some m -> nonempty m = true) /\
  (forall answer bytes,
      generateSpeech (TextToSpeech.text s) = Normal answer ->
      hasContext = true ->
      (decode answer = Throw notCorrectlyEncoded \/
       decode answer = Normal bytes /\ Nat.even (length bytes) = false) ->
      TextToSpeech.error s' <> None /\ TextToSpeech.audioBuffer s' = None).
Proof.
  intros Htext Hload s'. subst s'.
  assert (Hbad : forall answer bytes,
             generateSpeech (TextToSpeech.text s) = Normal answer ->
             hasContext = true ->
             (decode answer = Throw notCorrectlyEncoded \/
              decode answer = Normal bytes /\ Nat.even (length bytes) = false) ->
             exists err,
               TextToSpeech.speechBody generateSpeech hasContext
                 (TextToSpeech.mkState (TextToSpeech.text s) true None None)
               = Throw err).
  { intros answer bytes Hgen -> Hdec.
    unfold TextToSpeech.speechBody. cbn [TextToSpeech.text].
    rewrite Hgen. cbn [bind].
    destruct Hdec as [Hdec|[Hdec Hodd]]; rewrite Hdec; cbn [bind].
    - eexists. reflexivity.
    - unfold decodeAudioData, Int16Array_new. rewrite Hodd. cbn [bind].
      eexists. reflexivity. }
  unfold TextToSpeech.handleSubmit. rewrite Htext, Hload. cbn [negb orb].
  cbn [TextToSpeech.text TextToSpeech.isLoading TextToSpeech.error
       TextToSpeech.audioBuffer].
  destruct (TextToSpeech.speechBody generateSpeech hasContext _)
    as [[buffer|]|err] eqn:Ebody;
    cbn [TextToSpeech.text TextToSpeech.isLoading TextToSpeech.error
         TextToSpeech.audioBuffer].
  - split; [reflexivity|]. split; [reflexivity|]. split; [now left|].
    split; [discriminate|].
    intros answer bytes Hgen Hctx Hdec.
    destruct (Hbad answer bytes Hgen Hctx Hdec) as [err Herr]. discriminate.
  - split; [reflexivity|]. split; [reflexivity|]. split; [now left|].
    split; [discriminate|].
    intros answer bytes Hgen Hctx Hdec.
    destruct (Hbad answer bytes Hgen Hctx Hdec) as [err Herr]. discriminate.
  - split; [reflexivity|]. split; [reflexivity|]. split; [now right|].
    split.
    + intros m Hm. injection Hm as <-.
      destruct (nonempty (message err)) eqn:E; [exact E | reflexivity].
    + intros answer bytes _ _ _. split; [discriminate | reflexivity].
Qed.

Lemma handleSubmit_speech_settles_witness :
  TextToSpeech.error
    (TextToSpeech.handleSubmit (fun _ => Normal (lit "AEAA*")) true
       (TextToSpeech.mkState (lit "hello") false None None)) <> None /\
  TextToSpeech.audioBuffer
    (TextToSpeech.handleSubmit (fun _ => Normal (lit "AEAA*")) true
       (TextToSpeech.mkState (lit "hello") false None None)) = None.
Proof.
  destruct (handleSubmit_speech_settles (fun _ => Normal (lit "AEAA*")) true
              (TextToSpeech.mkState (lit "hello") false None None)
              eq_refl eq_refl) as (_ & _ & _ & _ & H).
  apply (H (lit "AEAA*") []); [reflexivity | reflexivity |].
  left. reflexivity.
Defined.

End DecodingProofs.

(* ================================================================== *)
(** * Proofs: the frame extractor, on every path *)
(* ================================================================== *)

Section FrameProofs.

Import JS FileUtils FrameLog.

Lemma nearEmpty_kept (base64Data : option jsstring) :
  nearEmpty base64Data = false ->
  (100 <= length (default [] base64Data))%nat.
Proof.
  destruct base64Data as [d|]; [|discriminate].
  unfold nearEmpty. intros H. apply orb_false_iff in H as [_ H].
  apply Nat.ltb_ge in H. exact H.
Qed.

Lemma revocations_app (a b : list FrameEvent) :
  revocations (a ++ b) = (revocations a + revocations b)%nat.
Proof. unfold revocations. now rewrite flat_map_app, length_app. Qed.

Lemma warnings_app (a b : list FrameEvent) :
  warnings (a ++ b) = warnings a ++ warnings b.
Proof. unfold warnings. now rewrite flat_map_app. Qed.

(** The loop appends to the frames and to the log: one frame or one
    warning per index, never a revocation. *)
Lemma sampleFrames_appends (env : VideoEnv) (frameCount : nat)
    (interval width height : number) (todo : list nat) :
  forall (frames : list Frame) (log : list FrameEvent),
  exists (fs : list Frame) (evs : list FrameEvent),
    sampleFrames env frameCount interval width height todo frames log
    = (frames ++ fs, log ++ evs) /\
    revocations evs = 0%nat /\
    (length fs + length (warnings evs) = length todo)%nat /\
    Forall (fun f => mimeType f = lit "image/jpeg" /\
                     (100 <= length (data f))%nat) fs.
Proof.
  induction todo as [|i todo IH]; intros frames log.
  - exists [], []. cbn [sampleFrames]. rewrite !app_nil_r.
    repeat split. constructor.
  - cbn [sampleFrames].
    destruct (nearEmpty _) eqn:E.
    + destruct (IH frames
                  ((log ++ [Seek (mul (ofZ (Z.of_nat i)) interval);
                            DrawImage width height])
                   ++ [Warn (mul (ofZ (Z.of_nat i)) interval);
                       Progress (progressOf i frameCount)]))
        as (fs & evs & Hrun & Hrev & Hlen & Hall).
      exists fs.
      exists ([Seek (mul (ofZ (Z.of_nat i)) interval); DrawImage width height;
               Warn (mul (ofZ (Z.of_nat i)) interval);
               Progress (progressOf i frameCount)] ++ evs).
      rewrite Hrun. split; [now rewrite <- !app_assoc|].
      split; [rewrite revocations_app, Hrev; reflexivity|].
      split; [|exact Hall].
      rewrite warnings_app, length_app. simpl. lia.
    + destruct (IH (frames
                    ++ [mkFrame
                          (default []
                             (base64Part
                                (toDataURL env i
                                   (mul (ofZ (Z.of_nat i)) interval))))
                          (lit "image/jpeg")])
                  ((log ++ [Seek (mul (ofZ (Z.of_nat i)) interval);
                            DrawImage width height])
                   ++ [Progress (progressOf i frameCount)]))
        as (fs & evs & Hrun & Hrev & Hlen & Hall).
      eexists (_ :: fs).
      exists ([Seek (mul (ofZ (Z.of_nat i)) interval); DrawImage width height;
               Progress (progressOf i frameCount)] ++ evs).
      rewrite Hrun. split; [now rewrite <- !app_assoc|].
      split; [rewrite revocations_app, Hrev; reflexivity|].
      split.
      * rewrite warnings_app, length_app. simpl. lia.
      * constructor; [|exact Hall]. split; [reflexivity|].
        cbn [data]. now apply nearEmpty_kept.
Qed.

(** X8.  The object URL that [extractVideoFrames] creates for the video is
    revoked exactly once, as the last thing done, whenever a 2d context
    exists: when the frames are returned, when the video fails to load and
    when its duration cannot be determined.  Without a 2d context the
    promise is rejected before anything else is done and the URL is never
    revoked. *)
Theorem extractVideoFrames_releases_url (env : VideoEnv) (frameCount : nat) :
  if hasContext env
  then revocations (snd (extractVideoFrames env frameCount)) = 1%nat /\
       last (snd (extractVideoFrames env frameCount)) = Some RevokeObjectURL
  else extractVideoFrames env frameCount
       = (Throw (mkExn PlainError (lit "Could not get canvas context.")), []).
Proof.
  unfold extractVideoFrames.
  destruct (hasContext env); cbn [negb]; [|reflexivity].
  destruct (loadOutcome env) as [|code]; [|split; reflexivity].
  destruct (canvasSize _ _) as [width height].
  destruct (negb (truthy (videoDuration env)) || eqb (videoDuration env) PInf);
    [split; reflexivity|].
  destruct (sampleFrames_appends env frameCount
              (div (videoDuration env) (ofZ (Z.of_nat frameCount)))
              width height (seq 0 frameCount) [] [])
    as (fs & evs & Hrun & Hrev & _ & _).
  rewrite Hrun. cbn [snd app]. split.
  - rewrite revocations_app, Hrev. reflexivity.
  - apply last_snoc.
Qed.

(** X9.  Every frame that [extractVideoFrames] returns is tagged
    [image/jpeg] and carries at least 100 characters of payload; every
    index either yields a frame or a warning, so the frames and the
    warnings together number [frameCount]. *)
Theorem extractVideoFrames_frames (env : VideoEnv) (frameCount : nat)
    (frames : list Frame) (log : list FrameEvent) :
  extractVideoFrames env frameCount = (Normal frames, log) ->
  Forall (fun f => mimeType f = lit "image/jpeg" /\
                   (100 <= length (data f))%nat) frames /\
  (length frames + length (warnings log) = frameCount)%nat.
Proof.
  unfold extractVideoFrames.
  destruct (negb (hasContext env)); [discriminate|].
  destruct (loadOutcome env) as [|code]; [|discriminate].
  destruct (canvasSize _ _) as [width height].
  destruct (negb (truthy (videoDuration env)) || eqb (videoDuration env) PInf);
    [discriminate|].
  destruct (sampleFrames_appends env frameCount
              (div (videoDuration env) (ofZ (Z.of_nat frameCount)))
              width height (seq 0 frameCount) [] [])
    as (fs & evs & Hrun & _ & Hlen & Hall).
  rewrite Hrun. cbn [app]. intros [= <- <-].
  split; [exact Hall|].
  rewrite warnings_app, length_app, length_seq in *. simpl. lia.
Qed.

Lemma extractVideoFrames_frames_witness :
  exists (frames : list Frame) (log : list FrameEvent),
    extractVideoFrames SamplerSpec.sampleSource 10 = (Normal frames, log) /\
    length frames = 9%nat /\ length (warnings log) = 1%nat /\
    Forall (fun f => mimeType f = lit "image/jpeg" /\
                     (100 <= length (data f))%nat) frames.
Proof.
  destruct (extractVideoFrames SamplerSpec.sampleSource 10)
    as [[frames|e] log] eqn:Hrun; [|vm_compute in Hrun; discriminate].
  exists frames, log. split; [reflexivity|].
  destruct (extractVideoFrames_frames _ _ _ _ Hrun) as [Hall Hlen].
  assert (H9 : length frames = 9%nat).
  { apply (f_equal fst) in Hrun. vm_compute in Hrun.
    injection Hrun as <-. reflexivity. }
  split; [exact H9|]. split; [lia | exact Hall].
Defined.

(** *** The size of the canvas *)





End FrameProofs.

(* ================================================================== *)
(** * Proofs: the frames of the download *)
(* ================================================================== *)

Section RenderLoopProofs.

Import JS ShortsCreator RenderLoop.

Lemma div_Fin (a b : Q) : ~ (b == 0)%Q -> div (Fin a) (Fin b) = Fin (a / b).
Proof.
  intros Hb. unfold div. destruct (Qeq_bool b 0) eqn:E; [|reflexivity].
  apply Qeq_bool_iff in E. contradiction.
Qed.

Lemma ratio_range (t D : Q) :
  (0 <= t)%Q -> (t < D)%Q -> (0 <= t / D)%Q /\ (t / D < 1)%Q.
Proof.
  intros H0 H1. split.
  - apply Qle_shift_div_l; lra.
  - apply Qlt_shift_div_r; lra.
Qed.

Lemma ratio_mono (t1 t2 D : Q) :
  (0 < D)%Q -> (t1 <= t2)%Q -> (t1 / D <= t2 / D)%Q.
Proof.
  intros HD H. unfold Qdiv. apply Qmult_le_compat_r; [exact H|].
  apply Qinv_le_0_compat. lra.
Qed.

Lemma kenBurnsScale_value (t D : Q) :
  ~ (D == 0)%Q ->
  kenBurnsScale true (Fin t) (Fin D)
  = Fin (inject_Z 1 + ((11 # 10) + - inject_Z 1) * (t / D)).
Proof.
  intros HD. unfold kenBurnsScale, ZOOM_AMOUNT.
  rewrite div_Fin by exact HD. reflexivity.
Qed.

Lemma kenBurnsScale_at (useKenBurns : bool) (t D : Q) :
  (0 <= t)%Q -> (t < D)%Q ->
  exists k : Q,
    kenBurnsScale useKenBurns (Fin t) (Fin D) = Fin k /\
    (1 <= k)%Q /\ (k < 11 # 10)%Q /\
    (useKenBurns = true -> k == 1 + t / (10 * D))%Q /\
    (useKenBurns = false -> k == 1)%Q.
Proof.
  intros H0 H1.
  assert (HD : ~ (D == 0)%Q) by lra.
  destruct useKenBurns.
  - rewrite kenBurnsScale_value by exact HD.
    destruct (ratio_range t D) as [A B]; [lra | lra |].
    change (inject_Z 1) with 1%Q.
    eexists. split; [reflexivity|].
    split; [lra|]. split; [lra|]. split; [|discriminate].
    intros _. field. lra.
  - exists 1%Q. split; [reflexivity|]. split; [lra|]. split; [lra|].
    split; [discriminate|]. intros _. reflexivity.
Qed.

(** X11.  The Ken Burns zoom of the download grows with the time into the
    clip, from 1 at the start towards 1.1 at the end, which it never
    reaches: at a time [t] of a clip lasting [D] the scale is
    [1 + t / (10 D)]; with the effect switched off it is 1. *)
Theorem kenBurnsScale_range (useKenBurns : bool) (t1 t2 D : Q) :
  (0 <= t1)%Q -> (t1 <= t2)%Q -> (t2 < D)%Q ->
  exists k1 k2 : Q,
    kenBurnsScale useKenBurns (Fin t1) (Fin D) = Fin k1 /\
    kenBurnsScale useKenBurns (Fin t2) (Fin D) = Fin k2 /\
    (1 <= k1)%Q /\ (k1 <= k2)%Q /\ (k2 < 11 # 10)%Q /\
    (useKenBurns = true -> k1 == 1 + t1 / (10 * D))%Q /\
    (useKenBurns = false -> k1 == 1 /\ k2 == 1)%Q.
Proof.
  intros H0 H12 H2.
  destruct (kenBurnsScale_at useKenBurns t1 D) as (k1 & E1 & L1 & U1 & On1 & Off1);
    [lra | lra |].
  destruct (kenBurnsScale_at useKenBurns t2 D) as (k2 & E2 & L2 & U2 & On2 & Off2);
    [lra | lra |].
  exists k1, k2. split; [exact E1|]. split; [exact E2|].
  split; [exact L1|]. split; [|split; [exact U2|split; [exact On1|]]].
  - destruct useKenBurns.
    + rewrite (On1 eq_refl), (On2 eq_refl).
      pose proof (ratio_mono t1 t2 (10 * D) ltac:(lra) H12). lra.
    + rewrite (Off1 eq_refl), (Off2 eq_refl). lra.
  - intros Hoff. split; [now apply Off1 | now apply Off2].
Qed.

Lemma kenBurnsScale_range_witness :
  exists k1 k2 : Q,
    kenBurnsScale true (Fin 0) (Fin 40) = Fin k1 /\
    kenBurnsScale true (Fin 20) (Fin 40) = Fin k2 /\
    (k1 == 1)%Q /\ (k2 == 21 # 20)%Q.
Proof.
  destruct (kenBurnsScale_range true 0 20 40)
    as (k1 & k2 & H1 & H2 & _).
  - unfold Qle; simpl; lia.
  - unfold Qle; simpl; lia.
  - reflexivity.
  - exists k1, k2. split; [exact H1|]. split; [exact H2|].
    vm_compute in H1, H2. injection H1 as <-. injection H2 as <-.
    split; reflexivity.
Defined.

Lemma canvasAspect_value :
  div RENDER_WIDTH RENDER_HEIGHT = Fin (inject_Z 720 / inject_Z 1280).
Proof. reflexivity. Qed.

(** X12.  The center crop of the download: for a video of positive size,
    the source rectangle handed to [drawImage] lies inside the video
    frame, is centred in it, has the 9:16 shape of the canvas, and is the
    largest such rectangle (it spans the full width or the full height). *)
Theorem drawArguments_crop (vw vh : Q) (scale : number) :
  (0 < vw)%Q -> (0 < vh)%Q ->
  exists x y w h : Q,
    sx (drawArguments (Fin vw) (Fin vh) scale) = Fin x /\
    sy (drawArguments (Fin vw) (Fin vh) scale) = Fin y /\
    sWidth (drawArguments (Fin vw) (Fin vh) scale) = Fin w /\
    sHeight (drawArguments (Fin vw) (Fin vh) scale) = Fin h /\
    (0 <= x)%Q /\ (0 <= y)%Q /\ (0 < w)%Q /\ (0 < h)%Q /\
    (x + w <= vw)%Q /\ (y + h <= vh)%Q /\
    (w * 1280 == h * 720)%Q /\
    (x + w + x == vw)%Q /\ (y + h + y == vh)%Q /\
    ((w == vw)%Q \/ (h == vh)%Q).
Proof.
  intros Hw Hh. unfold drawArguments.
  rewrite canvasAspect_value, div_Fin by lra.
  unfold gtb. rewrite ltb_Fin.
  change (inject_Z 720) with 720%Q. change (inject_Z 1280) with 1280%Q.
  assert (Evw : (vw / vh * vh == vw)%Q) by (field; lra).
  destruct (Qltb (720 / 1280) (vw / vh)) eqn:Hwide.
  - apply Qltb_lt in Hwide.
    assert (Hlt : (720 / 1280 * vh < vw)%Q).
    { rewrite <- Evw. apply Qmult_lt_r; assumption. }
    cbn [sx sy sWidth sHeight mul sub add neg].
    assert (E2 : div (Fin (vw + - (vh * (720 / 1280)))) (ofZ 2)
                 = Fin ((vw + - (vh * (720 / 1280))) / inject_Z 2))
      by reflexivity.
    rewrite E2. change (inject_Z 2) with 2%Q.
    eexists. eexists. eexists. eexists.
    split; [reflexivity|]. split; [reflexivity|].
    split; [reflexivity|]. split; [reflexivity|].
    change (inject_Z 0) with 0%Q.
    assert (Ex : ((vw + - (vh * (720 / 1280))) / 2
                  == (vw - vh * (720 / 1280)) * (1 # 2))%Q) by field.
    assert (E720 : (720 / 1280 == 9 # 16)%Q) by reflexivity.
    rewrite Ex. rewrite E720 in *.
    split; [nra|]. split; [lra|]. split; [nra|]. split; [lra|].
    split; [nra|]. split; [lra|]. split; [nra|]. split; [nra|].
    split; [lra|]. right. reflexivity.
  - apply Qltb_ge in Hwide.
    assert (Hle : (vw <= 720 / 1280 * vh)%Q).
    { rewrite <- Evw. apply Qmult_le_compat_r; lra. }
    cbn [sx sy sWidth sHeight].
    assert (E1 : div (Fin vw) (Fin (720 / 1280)) = Fin (vw / (720 / 1280)))
      by reflexivity.
    rewrite E1. cbn [sub add neg].
    assert (E2 : div (Fin (vh + - (vw / (720 / 1280)))) (ofZ 2)
                 = Fin ((vh + - (vw / (720 / 1280))) / inject_Z 2))
      by reflexivity.
    rewrite E2. change (inject_Z 2) with 2%Q.
    eexists. eexists. eexists. eexists.
    split; [reflexivity|]. split; [reflexivity|].
    split; [reflexivity|]. split; [reflexivity|].
    change (inject_Z 0) with 0%Q.
    assert (Ey : ((vh + - (vw / (720 / 1280))) / 2
                  == (vh - vw * (16 # 9)) * (1 # 2))%Q) by field.
    assert (Eh : (vw / (720 / 1280) == vw * (16 # 9))%Q) by field.
    assert (E720 : (720 / 1280 == 9 # 16)%Q) by reflexivity.
    rewrite Ey, Eh. rewrite E720 in *.
    split; [lra|]. split; [nra|]. split; [lra|]. split; [nra|].
    split; [lra|]. split; [nra|]. split; [nra|]. split; [lra|].
    split; [nra|]. left. reflexivity.
Qed.

Lemma drawArguments_crop_witness :
  exists x y w h : Q,
    sx (drawArguments (Fin 1920) (Fin 1080) (Fin 1)) = Fin x /\
    sy (drawArguments (Fin 1920) (Fin 1080) (Fin 1)) = Fin y /\
    sWidth (drawArguments (Fin 1920) (Fin 1080) (Fin 1)) = Fin w /\
    sHeight (drawArguments (Fin 1920) (Fin 1080) (Fin 1)) = Fin h /\
    (x == 1312.5 * (1 # 2))%Q /\ (y == 0)%Q /\ (w == 607.5)%Q /\
    (h == 1080)%Q.
Proof.
  destruct (drawArguments_crop 1920 1080 (Fin 1))
    as (x & y & w & h & Hx & Hy & Hw & Hh & _).
  - reflexivity.
  - reflexivity.
  - exists x, y, w, h.
    split; [exact Hx|]. split; [exact Hy|]. split; [exact Hw|].
    split; [exact Hh|].
    vm_compute in Hx, Hy, Hw, Hh.
    injection Hx as <-. injection Hy as <-. injection Hw as <-.
    injection Hh as <-. repeat split; reflexivity.
Defined.

(** X13.  The picture of the download always covers the whole canvas: at
    every time of the clip, with or without the Ken Burns zoom, the
    destination rectangle handed to [drawImage] is centred on the
    720x1280 canvas, has its 9:16 shape, and reaches at least to its four
    edges (and less than 5 % beyond them). *)
Theorem drawArguments_cover (useKenBurns : bool) (vw vh : number)
    (t D : Q) :
  (0 <= t)%Q -> (t < D)%Q ->
  exists x y w h : Q,
    let d := drawArguments vw vh (kenBurnsScale useKenBurns (Fin t) (Fin D)) in
    dx d = Fin x /\ dy d = Fin y /\
    destWidth d = Fin w /\ destHeight d = Fin h /\
    (x <= 0)%Q /\ (y <= 0)%Q /\ (720 <= x + w)%Q /\ (1280 <= y + h)%Q /\
    (x + w + x == 720)%Q /\ (y + h + y == 1280)%Q /\
    (w * 1280 == h * 720)%Q /\ (w < 792)%Q /\ (h < 1408)%Q.
Proof.
  intros H0 H1.
  destruct (kenBurnsScale_at useKenBurns t D H0 H1)
    as (k & Hk & Hlo & Hhi & _).
  rewrite Hk. unfold drawArguments.
  destruct (gtb (div vw vh) (div RENDER_WIDTH RENDER_HEIGHT));
    cbn [dx dy destWidth destHeight];
    unfold RENDER_WIDTH, RENDER_HEIGHT, ofZ;
    cbn [mul sub add neg];
    change (inject_Z 720) with 720%Q; change (inject_Z 1280) with 1280%Q.
  all: assert (Ex : div (Fin (720 + - (720 * k))) (Fin (inject_Z 2))
                    = Fin ((720 + - (720 * k)) / 2)) by reflexivity.
  all: assert (Ey : div (Fin (1280 + - (1280 * k))) (Fin (inject_Z 2))
                    = Fin ((1280 + - (1280 * k)) / 2)) by reflexivity.
  all: rewrite Ex, Ey.
  all: eexists; eexists; eexists; eexists.
  all: split; [reflexivity|]; split; [reflexivity|].
  all: split; [reflexivity|]; split; [reflexivity|].
  all: assert (Fx : ((720 + - (720 * k)) / 2 == 360 - 360 * k)%Q) by field.
  all: assert (Fy : ((1280 + - (1280 * k)) / 2 == 640 - 640 * k)%Q) by field.
  all: rewrite Fx, Fy.
  all: repeat split; lra.
Qed.

Lemma drawArguments_cover_witness :
  exists x y w h : Q,
    dx (drawArguments (Fin 1920) (Fin 1080)
          (kenBurnsScale true (Fin 20) (Fin 40))) = Fin x /\
    dy (drawArguments (Fin 1920) (Fin 1080)
          (kenBurnsScale true (Fin 20) (Fin 40))) = Fin y /\
    destWidth (drawArguments (Fin 1920) (Fin 1080)
                 (kenBurnsScale true (Fin 20) (Fin 40))) = Fin w /\
    destHeight (drawArguments (Fin 1920) (Fin 1080)
                  (kenBurnsScale true (Fin 20) (Fin 40))) = Fin h /\
    (x == -18)%Q /\ (y == -32)%Q /\ (w == 756)%Q /\ (h == 1344)%Q.
Proof.
  destruct (drawArguments_cover true (Fin 1920) (Fin 1080) 20 40)
    as (x & y & w & h & Hx & Hy & Hw & Hh & _).
  - unfold Qle; simpl; lia.
  - reflexivity.
  - exists x, y, w, h.
    split; [exact Hx|]. split; [exact Hy|]. split; [exact Hw|].
    split; [exact Hh|].
    vm_compute in Hx, Hy, Hw, Hh.
    injection Hx as <-. injection Hy as <-. injection Hw as <-.
    injection Hh as <-. repeat split; reflexivity.
Defined.

(** *** Captions *)

Lemma frameAlpha_range (fade : bool) (t D : Q) :
  (0 <= t)%Q -> (t < D)%Q ->
  exists q : Q, frameAlpha fade (Fin t) (Fin D) = Fin q /\ (0 <= q <= 1)%Q.
Proof.
  intros H0 H1. unfold frameAlpha. destruct fade.
  - unfold gtb, FADE_DURATION. cbn [sub add neg]. rewrite !ltb_Fin.
    destruct (Qltb t (3 # 4)) eqn:A.
    + apply Qltb_lt in A. exists (t / (3 # 4))%Q. split; [reflexivity|].
      split; [apply Qle_shift_div_l; lra | apply Qle_shift_div_r; lra].
    + apply Qltb_ge in A.
      destruct (Qltb (D + - (3 # 4)) t) eqn:B.
      * apply Qltb_lt in B. exists ((D + - t) / (3 # 4))%Q.
        split; [reflexivity|].
        split; [apply Qle_shift_div_l; lra | apply Qle_shift_div_r; lra].
      * exists 1%Q. split; [reflexivity | lra].
  - exists 1%Q. split; [reflexivity | lra].
Qed.

(** X14.  A caption of the download is never more opaque than the frame
    beneath it and is never drawn larger than its set size: at a time of
    the clip and [tau >= 0] seconds after the caption began, the text scale
    lies in [0.8, 1] and the alpha of the caption in [0, alpha of the
    frame].  With the animation on, both grow linearly over the first
    0.2 s (scale [0.8 + tau], alpha [5 tau] times that of the frame);
    after that, or with the animation off, the scale is 1 and the alpha
    is that of the frame. *)
Theorem caption_fade_in (fade anim : bool) (t D tau : Q) :
  (0 <= t)%Q -> (t < D)%Q -> (0 <= tau)%Q ->
  exists s a f : Q,
    fst (captionAnimation anim (Fin tau)) = Fin s /\
    captionAlpha (frameAlpha fade (Fin t) (Fin D))
      (snd (captionAnimation anim (Fin tau))) = Fin a /\
    appliedAlpha fade (Fin t) (Fin D) = Fin f /\
    ((4 # 5) <= s <= 1)%Q /\ (0 <= a <= f)%Q /\
    (anim = true -> tau < 1 # 5 -> s == (4 # 5) + tau /\ a == f * (5 * tau))%Q /\
    (anim = false \/ (1 # 5 <= tau)%Q -> s == 1 /\ a == f)%Q.
Proof.
  intros H0 H1 Htau.
  destruct (frameAlpha_range fade t D H0 H1) as (q & Hq & Hq01).
  unfold appliedAlpha, captionAlpha. rewrite Hq.
  destruct (globalAlpha_clamped (Fin q)) as (f & Hf & _ & Hfq).
  specialize (Hfq q eq_refl Hq01).
  unfold captionAnimation, ANIMATION_DURATION. rewrite ltb_Fin.
  destruct (anim && Qltb tau (1 # 5)) eqn:E.
  - apply andb_true_iff in E as [-> E]. apply Qltb_lt in E.
    cbn [fst snd].
    assert (Ep : div (Fin tau) (Fin (1 # 5)) = Fin (tau / (1 # 5)))
      by reflexivity.
    rewrite Ep. cbn [mul add].
    assert (Hp : (tau / (1 # 5) == 5 * tau)%Q) by field.
    destruct (globalAlpha_clamped (Fin (q * (tau / (1 # 5)))))
      as (a & Ha & _ & Haq).
    assert (Hprod : (0 <= q * (tau / (1 # 5)) <= 1)%Q).
    { rewrite Hp. split; nra. }
    specialize (Haq _ eq_refl Hprod).
    eexists. exists a, f. split; [reflexivity|].
    split; [exact Ha|]. split; [exact Hf|].
    rewrite Haq, Hfq, Hp.
    split; [lra|]. split; [split; nra|].
    split; [intros _ _; split; [lra | reflexivity]|].
    intros [Hoff|Hlate]; [discriminate | lra].
  - cbn [fst snd mul]. unfold ofZ. cbn [mul].
    destruct (globalAlpha_clamped (Fin (q * inject_Z 1)))
      as (a & Ha & _ & Haq).
    assert (Hprod : (0 <= q * inject_Z 1 <= 1)%Q).
    { change (inject_Z 1) with 1%Q. lra. }
    specialize (Haq _ eq_refl Hprod).
    change (inject_Z 1) with 1%Q in *.
    exists 1%Q, a, f. split; [reflexivity|].
    split; [exact Ha|]. split; [exact Hf|].
    rewrite Haq, Hfq.
    split; [lra|]. split; [lra|].
    split.
    + intros -> Hearly. apply Qltb_lt in Hearly.
      cbn [andb] in E. congruence.
    + intros _. split; [reflexivity | lra].
Qed.

Lemma caption_fade_in_witness :
  exists s a f : Q,
    fst (captionAnimation true (Fin (1 # 10))) = Fin s /\
    captionAlpha (frameAlpha true (Fin 10) (Fin 40))
      (snd (captionAnimation true (Fin (1 # 10)))) = Fin a /\
    appliedAlpha true (Fin 10) (Fin 40) = Fin f /\
    (s == 9 # 10)%Q /\ (a == 1 # 2)%Q /\ (f == 1)%Q.
Proof.
  destruct (caption_fade_in true true 10 40 (1 # 10))
    as (s & a & f & Hs & Ha & Hf & _).
  - unfold Qle; simpl; lia.
  - reflexivity.
  - unfold Qle; simpl; lia.
  - exists s, a, f. split; [exact Hs|]. split; [exact Ha|].
    split; [exact Hf|].
    vm_compute in Hs, Ha, Hf.
    injection Hs as <-. injection Ha as <-. injection Hf as <-.
    repeat split; reflexivity.
Defined.

(** *** The end of the recording *)

Lemma chunks_kept (sizes : list N) :
  forall chunks : list N,
    fold_left ondataavailable sizes chunks
    = chunks ++ List.filter (fun n => (0 <? n)%N) sizes.
Proof.
  induction sizes as [|n sizes IH]; intros chunks.
  - simpl. now rewrite app_nil_r.
  - cbn [fold_left List.filter]. rewrite IH. unfold ondataavailable.
    destruct (0 <? n)%N; [now rewrite <- app_assoc | reflexivity].
Qed.

Lemma blobSize_from (l : list N) :
  forall acc : N, fold_left N.add l acc = (acc + blobSize l)%N.
Proof.
  unfold blobSize.
  induction l as [|n l IH]; intros acc; cbn [fold_left].
  - lia.
  - rewrite IH, (IH (0 + n)%N). lia.
Qed.

Lemma blobSize_cons (n : N) (l : list N) :
  blobSize (n :: l) = (n + blobSize l)%N.
Proof. unfold blobSize at 1. cbn [fold_left]. rewrite blobSize_from. lia. Qed.

Lemma blobSize_kept (sizes : list N) :
  blobSize (List.filter (fun n => (0 <? n)%N) sizes) = blobSize sizes.
Proof.
  induction sizes as [|n sizes IH]; [reflexivity|].
  cbn [List.filter]. destruct (N.ltb_spec 0 n) as [H|H].
  - now rewrite !blobSize_cons, IH.
  - rewrite blobSize_cons, IH. lia.
Qed.

Lemma blobSize_zero (sizes : list N) :
  blobSize sizes = 0%N <-> Forall (fun n => n = 0%N) sizes.
Proof.
  induction sizes as [|n sizes IH].
  - split; [constructor | reflexivity].
  - rewrite blobSize_cons, Forall_cons. split.
    + intros H. split; [lia | apply IH; lia].
    + intros [-> H]. apply IH in H. lia.
Qed.

Lemma blobSize_positive (sizes : list N) :
  blobSize sizes <> 0%N -> Exists (fun n => (0 < n)%N) sizes.
Proof.
  induction sizes as [|n sizes IH]; [intros H; now contradiction H|].
  rewrite blobSize_cons. intros H.
  destruct (N.eq_dec n 0%N) as [->|Hn].
  - apply Exists_cons_tl. apply IH. lia.
  - apply Exists_cons_hd. lia.
Qed.

(** X15.  What the end of a recording yields: [sizes] being the sizes of
    the data the recorder delivered, in order, the handler reports the
    empty-file error when every one of them is 0 (or none was delivered),
    and otherwise offers a download whose size is their sum and whose name
    is [shorts-clip-], the time in milliseconds, a dot and the file
    extension of the type. *)
Theorem onstop_outcome (sizes : list N) (mimeType : jsstring) (now : N) :
  (Forall (fun n => n = 0%N) sizes /\
   onstop (fold_left ondataavailable sizes []) mimeType now
   = EmptyFile emptyFileMessage)
  \/
  (Exists (fun n => (0 < n)%N) sizes /\ (0 < blobSize sizes)%N /\
   onstop (fold_left ondataavailable sizes []) mimeType now
   = Offered (lit "shorts-clip-" ++ decimal now ++ lit "."
              ++ fileExtension mimeType)
       (blobSize sizes)).
Proof.
  unfold onstop. rewrite chunks_kept. cbn [app]. rewrite blobSize_kept.
  destruct (N.eqb_spec (blobSize sizes) 0) as [E|E].
  - left. split; [now apply blobSize_zero | reflexivity].
  - right. split; [|split; [lia | reflexivity]].
    now apply blobSize_positive.
Qed.

(** X16.  The extension of the downloaded file fits the format the
    recorder was set up with, whatever the browser supports: it is [mp4]
    exactly when the type chosen is [video/mp4], which happens only when
    none of the three WebM types is supported; in every other case, the
    fallback included, the type is a WebM type and the extension is
    [webm]. *)
Theorem fileExtension_matches (isTypeSupported : jsstring -> bool) :
  (selectMimeType isTypeSupported = lit "video/mp4" /\
   fileExtension (selectMimeType isTypeSupported) = lit "mp4" /\
   isTypeSupported (lit "video/webm;codecs=vp9,opus") = false /\
   isTypeSupported (lit "video/webm;codecs=vp8,opus") = false /\
   isTypeSupported (lit "video/webm") = false /\
   isTypeSupported (lit "video/mp4") = true)
  \/
  (isPrefix (lit "video/webm") (selectMimeType isTypeSupported) = true /\
   fileExtension (selectMimeType isTypeSupported) = lit "webm").
Proof.
  unfold selectMimeType, mimeTypes. cbn [List.find].
  destruct (isTypeSupported (lit "video/webm;codecs=vp9,opus")) eqn:E1;
    [right; split; vm_compute; reflexivity|].
  destruct (isTypeSupported (lit "video/webm;codecs=vp8,opus")) eqn:E2;
    [right; split; vm_compute; reflexivity|].
  destruct (isTypeSupported (lit "video/webm")) eqn:E3;
    [right; split; vm_compute; reflexivity|].
  destruct (isTypeSupported (lit "video/mp4")) eqn:E4.
  - left. repeat split; vm_compute; reflexivity.
  - right. split; vm_compute; reflexivity.
Qed.

End RenderLoopProofs.

(* ================================================================== *)
(** * Proofs: the preview *)
(* ================================================================== *)

Section PreviewProofs.

Import JS ShortsCreator Preview.

Variable StringToNumber : jsstring -> number.
Variable ArrayToNumber : list json -> completion number.
Variable ObjectToNumber : list (jsstring * json) -> completion number.

Lemma subtitleValue_start (c : Subtitle) :
  getProperty (subtitleValue c) (lit "start") = Normal (Some (JNumber (start c))).
Proof. reflexivity. Qed.

Lemma subtitleValue_end (c : Subtitle) :
  getProperty (subtitleValue c) (lit "end") = Normal (Some (JNumber (end_ c))).
Proof. reflexivity. Qed.

Lemma covers_subtitleValue (t : number) (c : Subtitle) :
  covers StringToNumber ArrayToNumber ObjectToNumber t (subtitleValue c)
  = Normal (geb t (start c) && leb t (end_ c)).
Proof.
  unfold covers. rewrite subtitleValue_start. cbn [bind ToNumber].
  destruct (geb t (start c)); [|reflexivity].
  rewrite subtitleValue_end. reflexivity.
Qed.

Lemma find_subtitleValues (t : number) (subs : list Subtitle) :
  find (covers StringToNumber ArrayToNumber ObjectToNumber t) (List.map subtitleValue subs)
  = Normal (option_map subtitleValue
              (List.find (fun c => geb t (start c) && leb t (end_ c)) subs)).
Proof.
  induction subs as [|c subs IH]; [reflexivity|].
  cbn [List.map find List.find]. rewrite covers_subtitleValue. cbn [bind].
  destruct (geb t (start c) && leb t (end_ c)); [reflexivity | exact IH].
Qed.



(** X18.  The caption shown over the preview, for captions that come from
    a subtitle file: the lookup never throws, and it selects the first
    caption, in the order of the file, whose interval contains the
    position, both ends included; when no interval contains it, no caption
    is shown.  The position used is the one before any seek back to the
    start. *)
Theorem handleTimeUpdate_srt_captions (s : State) (a : ClipAnalysis)
    (t : number) (subs : list Subtitle) :
  analysisResult s = Some a ->
  subtitles a = List.map subtitleValue subs ->
  isFinite (startTime a) = true ->
  snd (handleTimeUpdate StringToNumber ArrayToNumber ObjectToNumber (Some t) s)
  = Normal (setActiveSubtitle
              (option_map subtitleValue
                 (List.find (fun c => geb t (start c) && leb t (end_ c))
                    subs))
              s).
Proof.
  intros Ha Hsubs Hfin. unfold handleTimeUpdate. rewrite Ha, Hfin.
  cbn [negb]. rewrite andb_false_r. cbn [snd].
  unfold findSubtitle. rewrite Hsubs, find_subtitleValues. cbn [bind].
  destruct (List.find _ subs) as [c|]; reflexivity.
Qed.

Lemma find_null (t : number) (post : list json) :
  forall pre : list json,
    Forall (fun item => covers StringToNumber ArrayToNumber ObjectToNumber t item = Normal false) pre ->
    find (covers StringToNumber ArrayToNumber ObjectToNumber t) (pre ++ JNull :: post)
    = Throw (mkExn TypeError
               (lit "Cannot read properties of null (reading '" ++ lit "start"
                  ++ lit "')")).
Proof.
  induction pre as [|item pre IH]; intros Hpre.
  - reflexivity.
  - apply Forall_cons in Hpre as [Hitem Hpre].
    cbn [app find]. rewrite Hitem. cbn [bind]. now apply IH.
Qed.

(** X19.  The validation of the response looks at the list of captions
    only as far as to see that it is an array.  A response whose list
    holds [null] is accepted, and from then on every update of the preview
    that reaches the [null] (no earlier caption contains the position)
    throws a TypeError instead of setting the caption. *)
Theorem null_caption_breaks_preview (st en : number)
    (pre post : list json) (s : State) (t : number) :
  Forall (fun item => covers StringToNumber ArrayToNumber ObjectToNumber t item = Normal false) pre ->
  analysisResult s
  = Some (mkClipAnalysis st en (pre ++ JNull :: post)) ->
  buildResult None
    (JObject [(lit "startTime", JNumber st); (lit "endTime", JNumber en);
              (lit "subtitles", JArray (pre ++ JNull :: post))])
  = Normal (mkClipAnalysis st en (pre ++ JNull :: post)) /\
  exists e : exn,
    snd (handleTimeUpdate StringToNumber ArrayToNumber ObjectToNumber (Some t) s) = Throw e /\ kind e = TypeError.
Proof.
  intros Hpre Ha. split; [reflexivity|].
  unfold handleTimeUpdate. rewrite Ha. cbn [startTime endTime subtitles].
  destruct ((geb t en || ltb t st) && negb (isFinite st)).
  - eexists. split; reflexivity.
  - cbn [snd]. unfold findSubtitle. rewrite find_null by exact Hpre.
    eexists. split; reflexivity.
Qed.

End PreviewProofs.

Section PreviewSamples.

Import JS ShortsCreator.


Lemma handleTimeUpdate_srt_captions_witness :
  exists s' : State,
    snd (Preview.handleTimeUpdate (fun _ => JS.NaN) (fun _ => JS.Normal JS.NaN)
           (fun _ => JS.Normal JS.NaN) (Some (Fin 2))
           (setAnalysisResult
              (Some (mkClipAnalysis (Fin 0) (Fin 30)
                       (List.map subtitleValue
                          (parseSrt SrtSpec.unorderedSrt))))
              initialState))
    = Normal s' /\
    Preview.optionalProperty (activeSubtitle s') (lit "text")
    = Some (JString (lit "earlier")).
Proof.
  eexists. split.
  - apply (handleTimeUpdate_srt_captions (fun _ => JS.NaN)
             (fun _ => JS.Normal JS.NaN) (fun _ => JS.Normal JS.NaN)
             (setAnalysisResult
                (Some (mkClipAnalysis (Fin 0) (Fin 30)
                         (List.map subtitleValue
                            (parseSrt SrtSpec.unorderedSrt))))
                initialState)
             (mkClipAnalysis (Fin 0) (Fin 30)
                (List.map subtitleValue (parseSrt SrtSpec.unorderedSrt)))
             (Fin 2) (parseSrt SrtSpec.unorderedSrt) eq_refl eq_refl eq_refl).
  - vm_compute. reflexivity.
Defined.

Lemma null_caption_breaks_preview_witness :
  exists e : exn,
    snd (Preview.handleTimeUpdate (fun _ => JS.NaN) (fun _ => JS.Normal JS.NaN) (fun _ => JS.Normal JS.NaN) (Some (Fin 12))
           (setAnalysisResult
              (Some (mkClipAnalysis (Fin 10) (Fin 20) ([] ++ JNull :: [])))
              initialState))
    = Throw e /\ kind e = TypeError.
Proof.
  destruct (null_caption_breaks_preview (fun _ => JS.NaN) (fun _ => JS.Normal JS.NaN) (fun _ => JS.Normal JS.NaN) (Fin 10) (Fin 20) [] []
              (setAnalysisResult
                 (Some (mkClipAnalysis (Fin 10) (Fin 20) ([] ++ JNull :: [])))
                 initialState)
              (Fin 12) ltac:(constructor) eq_refl) as [_ H].
  exact H.
Defined.

End PreviewSamples.

(* ================================================================== *)
(** * Proofs: submissions and sessions *)
(* ================================================================== *)

Section SubmissionProofs.

Import JS ShortsCreator.

Variable JSON_parse : jsstring -> completion json.

Lemma submitErrorMessage_nonempty (err : exn) :
  nonempty (submitErrorMessage err) = true.
Proof.
  assert (Hplain :
    nonempty
      (if includes (lit "Rpc failed") (message err)
          || includes (lit "xhr error") (message err)
          || includes (lit "400") (message err)
       then payloadTooLargeMessage
       else if includes (lit "500") (message err)
               || includes (lit "internal error") (toLowerCase (message err))
       then internalErrorMessage
       else if nonempty (message err) then message err
            else unknownErrorMessage) = true).
  { destruct (_ || _ || _); [vm_compute; reflexivity|].
    destruct (_ || _); [vm_compute; reflexivity|].
    destruct (nonempty (message err)) eqn:E; [exact E|].
    vm_compute. reflexivity. }
  unfold submitErrorMessage.
  destruct (kind err); [vm_compute; reflexivity | exact Hplain ..].
Qed.

Lemma frames_bounded (env : FileUtils.VideoEnv) (frameCount : nat)
    (frames : list FileUtils.Frame) :
  fst (FileUtils.extractVideoFrames env frameCount) = Normal frames ->
  (length frames <= frameCount)%nat /\
  Forall (fun f => FileUtils.mimeType f = lit "image/jpeg") frames.
Proof.
  unfold FileUtils.extractVideoFrames.
  destruct (negb (FileUtils.hasContext env)); [discriminate|].
  destruct (FileUtils.loadOutcome env) as [|code]; [|discriminate].
  destruct (FileUtils.canvasSize _ _) as [width height].
  destruct (negb (truthy (FileUtils.videoDuration env))
            || eqb (FileUtils.videoDuration env) PInf);
    [discriminate|].
  destruct (sampleFrames_appends env frameCount
              (div (FileUtils.videoDuration env) (ofZ (Z.of_nat frameCount)))
              width height (seq 0 frameCount) [] [])
    as (fs & evs & Hrun & _ & Hlen & Hall).
  rewrite Hrun. cbn [app fst]. intros [= <-].
  rewrite length_seq in Hlen. split; [lia|].
  eapply Forall_impl; [exact Hall|]. intros f [Hf _]. exact Hf.
Qed.

(** What holds of a request that a submission in the state [s] sends. *)
Lemma submitBody_requests (env : SubmitEnv) (s : State) :
  (length (snd (submitBody JSON_parse env s)) <= 1)%nat /\
  Forall (fun r =>
            (reqDynamicStyling r = true ->
             useDynamicStyling s = true /\ hasSrt (reqSrtContent r) = false) /\
            (reqSrtContent r = None <-> srtFile s = None) /\
            (length (reqFrames r) <= FRAME_COUNT)%nat /\
            Forall (fun f => FileUtils.mimeType f = lit "image/jpeg")
              (reqFrames r) /\
            (forall a, reqAudioData r = Some a ->
                       inlineMimeType a = lit "audio/wav" /\
                       nonempty (inlineData a) = true))
    (snd (submitBody JSON_parse env s)).
Proof.
  unfold submitBody.
  destruct (readSrt env s) as [srtContent|e] eqn:Esrt;
    [|split; [simpl; lia | constructor]].
  destruct (FileUtils.extractAudioFromVideo (decodedAudio env))
    as [audio|e]; [|split; [simpl; lia | constructor]].
  destruct (fst (FileUtils.extractVideoFrames (videoEnv env) FRAME_COUNT))
    as [frames|e] eqn:Eframes; [|split; [simpl; lia | constructor]].
  cbn [snd]. split; [simpl; lia|].
  constructor; [|constructor].
  cbn [reqDynamicStyling reqSrtContent reqFrames reqAudioData].
  split.
  { intros H. apply andb_true_iff in H as [H1 H2].
    apply negb_true_iff in H2. split; assumption. }
  split.
  { unfold readSrt in Esrt. destruct (srtFile s) as [f|].
    - destruct (srtFileText env); [|discriminate].
      injection Esrt as <-. split; discriminate.
    - injection Esrt as <-. split; reflexivity. }
  destruct (frames_bounded _ _ _ Eframes) as [Hlen Hjpeg].
  split; [exact Hlen|]. split; [exact Hjpeg|].
  intros a Ha. unfold audioDataOf in Ha.
  destruct audio as [d|]; [|discriminate].
  destruct (nonempty d) eqn:Ed; [|discriminate].
  injection Ha as <-. split; [reflexivity | exact Ed].
Qed.

(** X20.  What a submission does to the component and what it sends.  It
    never touches the video, the subtitle file, the preview URL, the
    rendering flag or the styling switch.  Without a video, or while a
    submission is in progress, it does nothing.  Otherwise it ends with
    the loading flag cleared and the progress message empty, and any error
    shown is a non-empty text.  It sends at most one request; a request
    carries at most ten frames, all tagged [image/jpeg], audio only as a
    non-empty text tagged [audio/wav], the subtitle text exactly when a
    subtitle file is held, and asks for dynamic styling only when the
    switch is on and there is no subtitle text. *)
Theorem handleSubmit_settles (env : SubmitEnv) (s : State) :
  videoFile (fst (handleSubmit JSON_parse env s)) = videoFile s /\
  srtFile (fst (handleSubmit JSON_parse env s)) = srtFile s /\
  videoPreviewUrl (fst (handleSubmit JSON_parse env s)) = videoPreviewUrl s /\
  isRendering (fst (handleSubmit JSON_parse env s)) = isRendering s /\
  useDynamicStyling (fst (handleSubmit JSON_parse env s))
  = useDynamicStyling s /\
  (videoFile s = None \/ isLoading s = true ->
   handleSubmit JSON_parse env s = (s, [])) /\
  (videoFile s <> None -> isLoading s = false ->
   isLoading (fst (handleSubmit JSON_parse env s)) = false /\
   progressMessage (fst (handleSubmit JSON_parse env s)) = [] /\
   forall m, error (fst (handleSubmit JSON_parse env s)) = Some m ->
             nonempty m = true) /\
  (length (snd (handleSubmit JSON_parse env s)) <= 1)%nat /\
  Forall (fun r =>
            (reqDynamicStyling r = true ->
             useDynamicStyling s = true /\ hasSrt (reqSrtContent r) = false) /\
            (reqSrtContent r = None <-> srtFile s = None) /\
            (length (reqFrames r) <= FRAME_COUNT)%nat /\
            Forall (fun f => FileUtils.mimeType f = lit "image/jpeg")
              (reqFrames r) /\
            (forall a, reqAudioData r = Some a ->
                       inlineMimeType a = lit "audio/wav" /\
                       nonempty (inlineData a) = true))
    (snd (handleSubmit JSON_parse env s)).
Proof.
  pose proof (submitBody_requests env
                (setAnalysisResult None (setError None (setIsLoading true s))))
    as [Hlen Hreq].
  cbn [useDynamicStyling srtFile setAnalysisResult setError setIsLoading]
    in Hreq.
  unfold handleSubmit.
  destruct (videoFile s) as [f|] eqn:Efile.
  2:{ cbn [fst snd]. split; [exact Efile|]. split; [reflexivity|].
      split; [reflexivity|]. split; [reflexivity|]. split; [reflexivity|].
      split; [intros _; reflexivity|].
      split; [intros H; now contradiction H|].
      split; [simpl; lia | constructor]. }
  destruct (isLoading s) eqn:Eload.
  { cbn [fst snd]. split; [exact Efile|]. split; [reflexivity|].
    split; [reflexivity|]. split; [reflexivity|]. split; [reflexivity|].
    split; [intros _; reflexivity|].
    split; [intros _ H; discriminate H|].
    split; [simpl; lia | constructor]. }
  destruct (submitBody JSON_parse env _) as [body requests].
  cbn [fst snd] in *.
  assert (Hm : forall m,
             error
               (setProgressMessage []
                  (setIsLoading false
                     match body with
                     | Normal finalResult =>
                         setAnalysisResult (Some finalResult)
                           (setAnalysisResult None
                              (setError None (setIsLoading true s)))
                     | Throw err =>
                         setError (Some (submitErrorMessage err))
                           (setAnalysisResult None
                              (setError None (setIsLoading true s)))
                     end)) = Some m -> nonempty m = true).
  { intros m. destruct body as [r|err];
      cbn [error setProgressMessage setIsLoading setAnalysisResult setError].
    - discriminate.
    - intros [= <-]. apply submitErrorMessage_nonempty. }
  destruct body as [r|err];
    cbn [videoFile srtFile videoPreviewUrl isRendering useDynamicStyling
         isLoading progressMessage
         setProgressMessage setIsLoading setAnalysisResult setError] in *.
  - split; [exact Efile|]. split; [reflexivity|]. split; [reflexivity|].
    split; [reflexivity|]. split; [reflexivity|].
    split; [intros [H|H]; discriminate|].
    split; [intros _ _; split; [reflexivity|split; [reflexivity|exact Hm]]|].
    split; [exact Hlen | exact Hreq].
  - split; [exact Efile|]. split; [reflexivity|]. split; [reflexivity|].
    split; [reflexivity|]. split; [reflexivity|].
    split; [intros [H|H]; discriminate|].
    split; [intros _ _; split; [reflexivity|split; [reflexivity|exact Hm]]|].
    split; [exact Hlen | exact Hreq].
Qed.

(** *** Sessions *)

Lemma handleSubmit_keeps (env : SubmitEnv) (s : State) :
  videoFile (fst (handleSubmit JSON_parse env s)) = videoFile s /\
  srtFile (fst (handleSubmit JSON_parse env s)) = srtFile s /\
  videoPreviewUrl (fst (handleSubmit JSON_parse env s)) = videoPreviewUrl s.
Proof.
  unfold handleSubmit.
  destruct (videoFile s) as [f|] eqn:Efile;
    [|cbn [fst]; split; [exact Efile | split; reflexivity]].
  destruct (isLoading s);
    [cbn [fst]; split; [exact Efile | split; reflexivity]|].
  destruct (submitBody JSON_parse env _) as [[r|err] requests];
    cbn [fst videoFile srtFile videoPreviewUrl
         setProgressMessage setIsLoading setAnalysisResult setError];
    (split; [exact Efile | split; reflexivity]).
Qed.

Lemma handleSrtFileChange_keeps (file : option File) (s : State) :
  videoFile (handleSrtFileChange file s) = videoFile s /\
  videoPreviewUrl (handleSrtFileChange file s) = videoPreviewUrl s /\
  forall f, srtFile (handleSrtFileChange file s) = Some f ->
            endsWith (lit ".srt") (toLowerCase (fileName f)) = true.
Proof.
  unfold handleSrtFileChange. destruct file as [g|].
  - destruct (endsWith _ _) eqn:E;
      cbn [videoFile videoPreviewUrl srtFile setError setUseDynamicStyling
           setSrtFile].
    + repeat split. intros f [= <-]. exact E.
    + repeat split. discriminate.
  - cbn [videoFile videoPreviewUrl srtFile setSrtFile].
    repeat split. discriminate.
Qed.

Lemma NoDup_List_filter {A : Type} (f : A -> bool) (l : list A) :
  NoDup l -> NoDup (List.filter f l).
Proof.
  induction 1 as [|x l Hx Hl IH]; [constructor|].
  cbn [List.filter]. destruct (f x); [|exact IH].
  constructor; [|exact IH]. intros H. apply Hx.
  apply list_elem_of_In in H. apply filter_In in H as [H _].
  now apply list_elem_of_In.
Qed.

Lemma consistent_fileChange (file : option File) (w : World) :
  Selection.consistent w -> Selection.consistent (handleFileChange file w).
Proof.
  intros (Hlive & Hboth & Hnodup & Hold & Hpend & Hpnodup & Hsrt).
  unfold Selection.consistent, handleFileChange.
  destruct file as [f|];
    cbn [ui objectUrls nextUrl pendingLoads withUi videoFile videoPreviewUrl
         srtFile setSrtFile setActiveSubtitle setError setAnalysisResult
         setVideoPreviewUrl setVideoFile].
  - split; [discriminate|]. split; [tauto|].
    split.
    { constructor; [|exact Hnodup]. intros H.
      apply list_elem_of_In, Hold in H. lia. }
    split.
    { intros u [<-|H]; [lia | apply Hold in H; lia]. }
    split.
    { intros p Hp. apply in_app_or in Hp as [Hp|[<-|[]]].
      - split; [right; now apply Hpend | discriminate].
      - split; [now left | discriminate]. }
    split; [|discriminate].
    rewrite map_app. cbn [List.map fst].
    apply NoDup_app. split; [exact Hpnodup|]. split.
    + intros u Hu Hk. apply list_elem_of_In in Hk as [Heq|[]]. subst u.
      apply list_elem_of_In, in_map_iff in Hu as (p & Hfst & Hp).
      apply Hpend in Hp as [Hp _]. rewrite Hfst in Hp.
      apply Hold in Hp. lia.
    + apply NoDup_singleton.
  - split; [discriminate|]. split; [tauto|]. split; [exact Hnodup|].
    split; [exact Hold|]. split; [|split; [exact Hpnodup | discriminate]].
    intros p Hp. split; [now apply Hpend | discriminate].
Qed.

Lemma consistent_settle (p : ObjectURL * File) (w : World) :
  In p (pendingLoads w) ->
  Selection.consistent w -> Selection.consistent (settle p w).
Proof.
  intros Hin (Hlive & Hboth & Hnodup & Hold & Hpend & Hpnodup & Hsrt).
  destruct (Hpend p Hin) as [Hplive Hpprev].
  assert (Hrest : forall q,
             In q (List.filter (fun q => negb (Nat.eqb (fst q) (fst p)))
                     (pendingLoads w)) ->
             In q (pendingLoads w) /\ fst q <> fst p).
  { intros q Hq. apply filter_In in Hq as [Hq Hne]. split; [exact Hq|].
    apply negb_true_iff, Nat.eqb_neq in Hne. exact Hne. }
  assert (Hrnodup : NoDup (List.map fst
                             (List.filter
                                (fun q => negb (Nat.eqb (fst q) (fst p)))
                                (pendingLoads w)))).
  { clear - Hpnodup. induction (pendingLoads w) as [|q l IH]; [constructor|].
    cbn [List.map] in Hpnodup. apply NoDup_cons in Hpnodup as [Hq Hl].
    cbn [List.filter]. destruct (negb _).
    - cbn [List.map]. apply NoDup_cons. split; [|now apply IH].
      intros H. apply Hq.
      apply list_elem_of_In, in_map_iff in H as (r & Hr & Hin).
      apply filter_In in Hin as [Hin _].
      apply list_elem_of_In, in_map_iff. now exists r.
    - now apply IH. }
  unfold Selection.consistent, settle.
  destruct (fileMetadata (snd p)) as [d|].
  - unfold onloadedmetadata. destruct (ltb d (ofZ 30)).
    + unfold revokeObjectURL.
      cbn [ui objectUrls nextUrl pendingLoads withUi videoFile
           videoPreviewUrl srtFile setError].
      split.
      { intros u Hu. apply filter_In. split; [now apply Hlive|].
        apply negb_true_iff, Nat.eqb_neq. intros ->. now apply Hpprev. }
      split; [exact Hboth|].
      split; [now apply NoDup_List_filter|].
      split; [intros u Hu; apply filter_In in Hu as [Hu _]; now apply Hold|].
      split; [|split; [exact Hrnodup | exact Hsrt]].
      intros q Hq. apply Hrest in Hq as [Hq Hne].
      destruct (Hpend q Hq) as [Hqlive Hqprev].
      split; [|exact Hqprev].
      apply filter_In. split; [exact Hqlive|].
      now apply negb_true_iff, Nat.eqb_neq.
    + cbn [ui objectUrls nextUrl pendingLoads withUi videoFile
           videoPreviewUrl srtFile setVideoPreviewUrl setVideoFile].
      split; [intros u [= <-]; exact Hplive|].
      split; [split; discriminate|].
      split; [exact Hnodup|]. split; [exact Hold|].
      split; [|split; [exact Hrnodup | exact Hsrt]].
      intros q Hq. apply Hrest in Hq as [Hq Hne].
      destruct (Hpend q Hq) as [Hqlive _].
      split; [exact Hqlive|]. intros [= H]. now apply Hne.
  - unfold onerror, revokeObjectURL.
    cbn [ui objectUrls nextUrl pendingLoads withUi videoFile
         videoPreviewUrl srtFile setError].
    split.
    { intros u Hu. apply filter_In. split; [now apply Hlive|].
      apply negb_true_iff, Nat.eqb_neq. intros ->. now apply Hpprev. }
    split; [exact Hboth|].
    split; [now apply NoDup_List_filter|].
    split; [intros u Hu; apply filter_In in Hu as [Hu _]; now apply Hold|].
    split; [|split; [exact Hrnodup | exact Hsrt]].
    intros q Hq. apply Hrest in Hq as [Hq Hne].
    destruct (Hpend q Hq) as [Hqlive Hqprev].
    split; [|exact Hqprev].
    apply filter_In. split; [exact Hqlive|].
    now apply negb_true_iff, Nat.eqb_neq.
Qed.

(** X21.  Whatever sequence of selections, loads and submissions has
    happened: the preview plays an object URL that is still live; the
    component holds a video file exactly when it has a preview; the live
    URLs are pairwise distinct; every element that is still loading has a
    live URL of its own, different from the one of the preview; and the
    subtitle file held, if any, has a name that ends in [.srt], in any
    letter case. *)
Theorem reachable_consistent (w : World) :
  Session.reachable JSON_parse w -> Selection.consistent w.
Proof.
  induction 1 as [|w w' Hreach IH Hstep].
  - unfold Selection.consistent, Session.initialWorld. cbn.
    repeat split; try discriminate; try constructor; intros; contradiction.
  - destruct Hstep as [file w | p w Hp | file w | env w].
    + now apply consistent_fileChange.
    + now apply consistent_settle.
    + destruct IH as (Hlive & Hboth & Hnodup & Hold & Hpend & Hpnodup & Hsrt).
      destruct (handleSrtFileChange_keeps file (ui w)) as (Hv & Hu & Hs).
      unfold Selection.consistent.
      cbn [withUi ui objectUrls nextUrl pendingLoads].
      rewrite Hv, Hu. repeat split; try assumption; try tauto.
      * now apply Hpend.
      * now apply Hpend.
    + destruct IH as (Hlive & Hboth & Hnodup & Hold & Hpend & Hpnodup & Hsrt).
      destruct (handleSubmit_keeps env (ui w)) as (Hv & Hs & Hu).
      unfold Selection.consistent.
      cbn [withUi ui objectUrls nextUrl pendingLoads].
      rewrite Hv, Hu, Hs. repeat split; try assumption; try tauto.
      * now apply Hpend.
      * now apply Hpend.
Qed.

End SubmissionProofs.

Lemma reachable_consistent_witness :
  Selection.consistent
    (ShortsCreator.settle (0%nat, Session.longClip)
       (ShortsCreator.handleFileChange (Some Session.longClip)
          Session.initialWorld)).
Proof.
  apply (reachable_consistent Selection.fixedAnswer).
  eapply Session.reachable_step.
  - eapply Session.reachable_step; [apply Session.reachable_initial|].
    apply (Session.step_fileChange Selection.fixedAnswer
             (Some Session.longClip)).
  - apply Session.step_settle. left. reflexivity.
Defined.

(* ================================================================== *)
(** * Proofs: the style of a caption, in the preview and in the download *)
(* ================================================================== *)

Section CaptionStyleProofs.

Import JS ShortsCreator Preview RenderLoop.

Lemma subtitleValue_position (c : Subtitle) :
  optionalProperty (Some (subtitleValue c)) (lit "position") = None.
Proof. reflexivity. Qed.

Lemma subtitleValue_fontSize (c : Subtitle) :
  optionalProperty (Some (subtitleValue c)) (lit "fontSize") = None.
Proof. reflexivity. Qed.

(** X22.  Where and how large a caption is drawn.  A caption from a
    subtitle file is drawn with the position and the font size the user
    has set, in the preview and in the download.  With dynamic styling
    switched on, the preview and the download use the same position and
    font size for any caption.  With it switched off they differ for a
    caption that carries a position or size of its own: the preview uses
    the user's, the download the caption's.  The download draws at the
    height 120 for [top], 640 for [middle] and 1180 for [bottom]. *)
Theorem caption_style (c : Subtitle) (sub : json) (p : Position)
    (fontSize : number) (dyn : bool) :
  (currentPosition (subtitleValue c) p = JString (positionName p) /\
   currentFontSize (subtitleValue c) fontSize = JNumber fontSize /\
   previewPosition dyn (Some (subtitleValue c)) p = JString (positionName p) /\
   currentPreviewFontSize dyn (Some (subtitleValue c)) fontSize
   = JNumber fontSize) /\
  (previewPosition true (Some sub) p = currentPosition sub p /\
   currentPreviewFontSize true (Some sub) fontSize
   = currentFontSize sub fontSize) /\
  (previewPosition false (Some sub) p = JString (positionName p) /\
   currentPreviewFontSize false (Some sub) fontSize = JNumber fontSize) /\
  (forall own : json,
      optionalProperty (Some sub) (lit "position") = Some own ->
      jsonTruthy (Some own) = true -> currentPosition sub p = own) /\
  (forall own : json,
      optionalProperty (Some sub) (lit "fontSize") = Some own ->
      jsonTruthy (Some own) = true -> currentFontSize sub fontSize = own) /\
  eqv (captionY (JString (positionName p)))
      match p with
      | top => ofZ 120
      | middle => ofZ 640
      | bottom => ofZ 1180
      end.
Proof.
  split.
  { unfold currentPosition, currentFontSize, previewPosition,
      currentPreviewFontSize.
    rewrite subtitleValue_position, subtitleValue_fontSize.
    cbn [jsonTruthy]. rewrite !andb_false_r. repeat split. }
  split.
  { unfold currentPosition, currentFontSize, previewPosition,
      currentPreviewFontSize. cbn [andb]. split; reflexivity. }
  split; [split; reflexivity|].
  split.
  { intros own Hown Htruthy. unfold currentPosition.
    rewrite Hown, Htruthy. reflexivity. }
  split.
  { intros own Hown Htruthy. unfold currentFontSize.
    rewrite Hown, Htruthy. reflexivity. }
  destruct p; vm_compute; reflexivity.
Qed.

End CaptionStyleProofs.

(* ================================================================== *)
(** * Proofs: the lines of a subtitle file *)
(* ================================================================== *)

Section SrtLineProofs.

Import JS ShortsCreator SrtSpec SrtLines.

Lemma removeAll_toCRLF (srtText : jsstring) :
  removeAll 13 (toCRLF srtText) = removeAll 13 srtText.
Proof.
  unfold removeAll, toCRLF.
  induction srtText as [|c srtText IH]; [reflexivity|].
  cbn [flat_map]. rewrite List.filter_app, IH.
  destruct (N.eqb_spec c 10) as [->|Hc]; [reflexivity|].
  cbn [List.filter app]. destruct (negb (c =? 13)%N); reflexivity.
Qed.

Lemma split_go_elements (sep : jsstring) (x : N) (piece : jsstring) :
  forall (s : jsstring) (skip : nat) (cur : jsstring),
    In piece (split_go sep s skip cur) -> In x piece ->
    In x s \/ In x cur.
Proof.
  induction s as [|c s IH]; intros skip cur Hpiece Hx.
  - cbn [split_go] in Hpiece. destruct Hpiece as [<-|[]].
    right. now apply in_rev.
  - cbn [split_go] in Hpiece. destruct skip as [|k].
    + destruct (isPrefix sep (c :: s)).
      * destruct Hpiece as [<-|Hpiece].
        -- right. now apply in_rev.
        -- destruct (IH _ _ Hpiece Hx) as [H|[]]. left. now right.
      * destruct (IH _ _ Hpiece Hx) as [H|[<-|H]].
        -- left. now right.
        -- left. now left.
        -- now right.
    + destruct (IH _ _ Hpiece Hx) as [H|H]; [left; now right | now right].
Qed.

Lemma lines_without_newline (piece : jsstring) :
  forall (s cur : jsstring),
    In piece (split_go newline s 0 cur) -> ~ In 10%N cur ->
    ~ In 10%N piece.
Proof.
  induction s as [|c s IH]; intros cur Hpiece Hcur.
  - cbn [split_go] in Hpiece. destruct Hpiece as [<-|[]].
    intros H. apply Hcur. now apply in_rev.
  - cbn [split_go] in Hpiece. unfold newline in Hpiece at 1.
    cbn [isPrefix] in Hpiece. rewrite andb_true_r in Hpiece.
    destruct (N.eqb_spec 10 c) as [<-|Hc].
    + destruct Hpiece as [<-|Hpiece].
      * intros H. apply Hcur. now apply in_rev.
      * cbn [newline length Nat.pred] in Hpiece.
        apply (IH [] Hpiece). intros [].
    + apply (IH (c :: cur) Hpiece). intros [H|H]; [congruence | now apply Hcur].
Qed.

Lemma join_elements (sep : jsstring) (x : N) :
  forall pieces : list jsstring,
    In x (join sep pieces) ->
    In x sep \/ exists p, In p pieces /\ In x p.
Proof.
  induction pieces as [|p pieces IH]; intros H; [contradiction|].
  destruct pieces as [|q pieces].
  - right. exists p. split; [now left | exact H].
  - change (join sep (p :: q :: pieces))
      with (p ++ sep ++ join sep (q :: pieces)) in H.
    apply in_app_or in H as [H|H].
    + right. exists p. split; [now left | exact H].
    + apply in_app_or in H as [H|H]; [now left|].
      destruct (IH H) as [Hs|(r & Hr & Hx)]; [now left|].
      right. exists r. split; [now right | exact Hx].
Qed.

Lemma dropWhile_elements (f : N -> bool) (x : N) (s : jsstring) :
  In x (dropWhile f s) -> In x s.
Proof.
  induction s as [|c s IH]; [intros []|].
  cbn [dropWhile]. destruct (f c); [|intros H; exact H].
  intros H. right. now apply IH.
Qed.

Lemma trim_elements (x : N) (s : jsstring) : In x (trim s) -> In x s.
Proof.
  unfold trim. intros H.
  apply in_rev, dropWhile_elements, in_rev, dropWhile_elements in H. exact H.
Qed.

Lemma drop_elements {A : Type} (n : nat) (x : A) :
  forall l : list A, In x (drop n l) -> In x l.
Proof.
  induction n as [|n IH]; intros l H; [exact H|].
  destruct l as [|y l]; [exact H|]. right. now apply IH.
Qed.

(** X23.  Line endings of a subtitle file.  A file saved with Windows line
    endings (CR LF) parses to the same captions as the same file with
    plain line feeds; and the text of a caption is a single line: it
    contains neither a line feed nor a carriage return (the lines of a
    caption are joined by spaces). *)
Theorem parseSrt_line_endings (srtText : jsstring) :
  parseSrt (toCRLF srtText) = parseSrt srtText /\
  Forall (fun c => ~ In 10%N (text c) /\ ~ In 13%N (text c))
    (parseSrt srtText).
Proof.
  split.
  - unfold parseSrt, srtBlocks. now rewrite removeAll_toCRLF.
  - unfold parseSrt. rewrite parseBlocks_flat. cbn [app].
    apply Forall_forall. intros c Hc.
    apply list_elem_of_In, in_flat_map in Hc as (block & Hblock & Hc).
    destruct (parseBlock_cases block)
      as [Hnone | (a & b & _ & _ & _ & Hp & _)].
    { rewrite Hnone in Hc. contradiction. }
    rewrite Hp in Hc. destruct Hc as [<-|[]]. cbn [text].
    assert (Hx : forall x,
               In x (trim (join (lit " ") (drop 2 (split newline block)))) ->
               x = 32%N \/
               exists line, In line (split newline block) /\ In x line).
    { intros x Hx. apply trim_elements, join_elements in Hx.
      destruct Hx as [Hx|(line & Hline & Hx)].
      - left. destruct Hx as [<-|[]]. reflexivity.
      - right. exists line. split; [|exact Hx].
        eapply drop_elements. exact Hline. }
    split; intros H; apply Hx in H as [H|(line & Hline & H)];
      try discriminate.
    + revert H. apply (lines_without_newline line block []); [exact Hline|].
      intros [].
    + unfold split in Hline.
      destruct (split_go_elements newline 13%N line block 0 [] Hline H)
        as [Hb|[]].
      unfold srtBlocks, split in Hblock.
      destruct (split_go_elements _ 13%N block _ 0 [] Hblock Hb) as [Hr|[]].
      unfold removeAll in Hr. apply filter_In in Hr as [_ Hr].
      discriminate.
Qed.

End SrtLineProofs.

(* ================================================================== *)
(** * Proofs: the size of the audio that is sent *)
(* ================================================================== *)

Section PayloadProofs.

Import JS FileUtils WavFormat Decoding.

Lemma base64_length_exact (s : jsstring) :
  length (base64 s) = (4 * ((length s + 2) / 3))%nat.
Proof.
  induction s as [|a|a b|a b c rest IH] using triples_ind;
    try reflexivity.
  cbn [base64 app length]. rewrite IH.
  replace (S (S (S (length rest))) + 2)%nat
    with (1 * 3 + (length rest + 2))%nat by lia.
  rewrite Nat.div_add_l by lia. lia.
Qed.

Lemma samples_length (result : list number) :
  length (flat_map (fun x => u16le (ToInt16 (scaleSample x))) result)
  = (2 * length result)%nat.
Proof.
  induction result as [|x result IH]; [reflexivity|].
  cbn [flat_map]. rewrite length_app, IH. simpl. lia.
Qed.

(** X24.  The size of the audio that a submission sends is bounded.  For
    every decoded buffer the extractor returns a text, which [decode]
    reads back to a WAV file of 44 bytes plus two bytes per sample of one
    channel; the number of samples is that of the buffer, but at most 120
    seconds' worth; the text has four characters per three bytes.  At the
    16 kHz of the decoding context that is at most 5 120 060 characters,
    however long the video. *)
Theorem audio_payload_bounded (b : AudioBuffer) :
  wfAudioBuffer b ->
  exists (text : jsstring) (bytes : list Z) (n : nat),
    extractAudioFromVideo (Normal b) = Normal (Some text) /\
    decode text = Normal bytes /\
    n = Nat.min (bufferLength b) (Z.to_nat (MAX_DURATION * sampleRate b)) /\
    length bytes = (44 + 2 * n)%nat /\
    length text = (4 * ((44 + 2 * n + 2) / 3))%nat /\
    (sampleRate b = 16000 -> Z.of_nat (length text) <= 5120060).
Proof.
  intros Hwf.
  destruct (mergeToMono_mix b Hwf) as (mixed & Hmono & Hlen & _ & _).
  destruct Hwf as (Hrate & Hpos & Hne & Hall).
  assert (Hmixed : mixed <> []).
  { intros ->. simpl in Hlen. lia. }
  destruct (truncateBuffer_mono (sampleRate b) mixed Hrate Hmixed)
    as (out & Htrunc & Hlong & Hshort).
  assert (Hdur : duration (mkAudioBuffer (sampleRate b) (length mixed) [mixed])
                 = duration b).
  { unfold duration. simpl. now rewrite Hlen. }
  rewrite Hdur in Hlong, Hshort.
  assert (Hnorm : normalizedBuffer b
                  = Normal (mkAudioBuffer (sampleRate b) (length out) [out])).
  { unfold normalizedBuffer. rewrite Hmono. cbn [bind].
    rewrite <- Hlen. exact Htrunc. }
  assert (Hout : length out
                 = Nat.min (bufferLength b)
                     (Z.to_nat (MAX_DURATION * sampleRate b))).
  { destruct (gtb (duration b) (ofZ MAX_DURATION)) eqn:E.
    - destruct (Hlong eq_refl) as [_ Hl].
      apply duration_gt in E; [|exact Hrate]. lia.
    - rewrite (Hshort eq_refl), Hlen.
      assert (Hle : ~ MAX_DURATION * sampleRate b < Z.of_nat (bufferLength b)).
      { intros H. apply duration_gt in H; [|exact Hrate]. congruence. }
      lia. }
  set (bytes := wavHeader 1 (sampleRate b) (2 * Z.of_nat (length out))
                ++ flat_map (fun x => u16le (ToInt16 (scaleSample x))) out).
  assert (Hbytes : Forall isByte bytes).
  { apply Forall_app. split; [apply wavHeader_bytes | apply samples_bytes]. }
  assert (Hsize : length bytes = (44 + 2 * length out)%nat).
  { unfold bytes. rewrite length_app, wavHeader_length, samples_length.
    reflexivity. }
  exists (base64 (fromCharCode bytes)), bytes, (length out).
  split.
  { unfold extractAudioFromVideo. cbn [bind]. rewrite Hnorm. cbn [bind].
    rewrite (audioBufferToWav_of_result _ out) by reflexivity.
    reflexivity. }
  split; [now apply decode_base64|].
  split; [exact Hout|]. split; [exact Hsize|].
  assert (Htext : length (base64 (fromCharCode bytes))
                  = (4 * ((44 + 2 * length out + 2) / 3))%nat).
  { rewrite base64_length_exact. unfold fromCharCode.
    now rewrite length_map, Hsize. }
  split; [exact Htext|].
  intros H16. rewrite Htext.
  assert (Hmax : Z.of_nat (length out) <= 1920000).
  { rewrite Hout, H16. unfold MAX_DURATION. lia. }
  rewrite Nat2Z.inj_mul, Nat2Z.inj_div, !Nat2Z.inj_add, Nat2Z.inj_mul.
  change (Z.of_nat 4) with 4. change (Z.of_nat 44) with 44.
  change (Z.of_nat 2) with 2. change (Z.of_nat 3) with 3.
  assert ((44 + 2 * Z.of_nat (length out) + 2) / 3 < 1280016); [|lia].
  apply Z.div_lt_upper_bound; lia.
Qed.

Lemma audio_payload_bounded_witness :
  exists (text : jsstring) (bytes : list Z),
    extractAudioFromVideo (Normal AudioSpec.longStereo) = Normal (Some text) /\
    decode text = Normal bytes /\
    length bytes = 284%nat /\ length text = 380%nat.
Proof.
  destruct (audio_payload_bounded AudioSpec.longStereo)
    as (text & bytes & n & Hrun & Hdec & Hn & Hbytes & Htext & _).
  - unfold wfAudioBuffer, AudioSpec.longStereo. simpl.
    split; [lia|]. split; [lia|]. split; [discriminate|].
    repeat constructor.
  - exists text, bytes. split; [exact Hrun|]. split; [exact Hdec|].
    assert (E : n = 120%nat) by (rewrite Hn; vm_compute; reflexivity).
    rewrite E in Hbytes, Htext. split; [exact Hbytes | exact Htext].
Defined.

End PayloadProofs.

(* ================================================================== *)
(** * Proofs: the request of the clip analysis *)
(* ================================================================== *)

Section RequestProofs.

Import JS ShortsCreator GeminiService ResponseSpec.

Lemma declared_type (key : jsstring) (props : list (jsstring * Schema))
    (t : SchemaType) (v : option json) :
  option_map type (lookupSchema key props) = Some t ->
  match lookupSchema key props with
  | Some p => hasType (type p) v
  | None => false
  end = hasType t v.
Proof.
  destruct (lookupSchema key props) as [p|]; [|discriminate].
  cbn [option_map]. now intros [= ->].
Qed.

Lemma schema_with_srt (srt : option jsstring) (dyn : bool) :
  hasSrt srt = true ->
  required (schema srt dyn) = [lit "startTime"; lit "endTime"] /\
  properties (schema srt dyn) = timeProperties.
Proof. unfold schema. intros ->. split; reflexivity. Qed.

Lemma schema_without_srt (srt : option jsstring) (dyn : bool) :
  hasSrt srt = false ->
  required (schema srt dyn)
  = [lit "startTime"; lit "endTime"; lit "subtitles"] /\
  option_map type (lookupSchema (lit "startTime") (properties (schema srt dyn)))
  = Some NUMBER /\
  option_map type (lookupSchema (lit "endTime") (properties (schema srt dyn)))
  = Some NUMBER /\
  option_map type (lookupSchema (lit "subtitles") (properties (schema srt dyn)))
  = Some ARRAY /\
  option_map (fun p => option_map properties (items p))
    (lookupSchema (lit "subtitles") (properties (schema srt dyn)))
  = Some (Some (subtitleProperties dyn)) /\
  option_map (fun p => option_map required (items p))
    (lookupSchema (lit "subtitles") (properties (schema srt dyn)))
  = Some (Some requiredSubtitleProperties).
Proof.
  unfold schema. intros ->. repeat split; vm_compute; reflexivity.
Qed.

Lemma timeProperties_types :
  option_map type (lookupSchema (lit "startTime") timeProperties) = Some NUMBER /\
  option_map type (lookupSchema (lit "endTime") timeProperties) = Some NUMBER /\
  lookupSchema (lit "subtitles") timeProperties = None.
Proof. repeat split; vm_compute; reflexivity. Qed.

Lemma meetsRequired_checked (srt : option jsstring) (dyn : bool)
    (response : json) :
  meetsRequired (schema srt dyn) response = checked (hasSrt srt) response.
Proof.
  destruct response as [| | | | |fields]; try reflexivity.
  unfold meetsRequired, checked, isArray.
  destruct (hasSrt srt) eqn:E.
  - destruct (schema_with_srt srt dyn E) as [-> ->].
    destruct timeProperties_types as (H1 & H2 & _).
    cbn [forallb].
    rewrite (declared_type _ _ _ _ H1), (declared_type _ _ _ _ H2).
    destruct (lookupField (lit "startTime") fields) as [[]|];
      destruct (lookupField (lit "endTime") fields) as [[]|]; reflexivity.
  - destruct (schema_without_srt srt dyn E) as (-> & H1 & H2 & H3 & _).
    cbn [forallb].
    rewrite (declared_type _ _ _ _ H1), (declared_type _ _ _ _ H2),
      (declared_type _ _ _ _ H3).
    destruct (lookupField (lit "startTime") fields) as [[]|];
      destruct (lookupField (lit "endTime") fields) as [[]|];
      destruct (lookupField (lit "subtitles") fields) as [[]|]; reflexivity.
Qed.

(** X25.  The client checks what it asked for.  The schema sent with the
    analysis request requires [startTime] and [endTime] as numbers and,
    unless a non-empty subtitle text is sent along, [subtitles] as an
    array; [handleSubmit] accepts a parsed response exactly when it is an
    object that holds these required properties with these types.  What
    the schema says about a single caption is not checked by the client:
    there [text], [start] and [end] are required; [fontSize] and
    [position] are declared only for dynamic styling and never
    required. *)
Theorem schema_matches_validation (request : AnalysisRequest)
    (response : json) :
  ((exists a : ClipAnalysis,
       buildResult (reqSrtContent request) response = Normal a)
   <-> meetsRequired (responseSchema (clippingRequest request)) response
       = true) /\
  required (responseSchema (clippingRequest request))
  = [lit "startTime"; lit "endTime"]
    ++ (if hasSrt (reqSrtContent request) then [] else [lit "subtitles"]) /\
  (hasSrt (reqSrtContent request) = true ->
   lookupSchema (lit "subtitles")
     (properties (responseSchema (clippingRequest request))) = None) /\
  (hasSrt (reqSrtContent request) = false ->
   exists caption : Schema,
     option_map items
       (lookupSchema (lit "subtitles")
          (properties (responseSchema (clippingRequest request))))
     = Some (Some caption) /\
     required caption = [lit "text"; lit "start"; lit "end"] /\
     List.map fst (properties caption)
     = [lit "text"; lit "start"; lit "end"]
       ++ (if reqDynamicStyling request
           then [lit "fontSize"; lit "position"] else [])).
Proof.
  unfold clippingRequest. cbn [responseSchema].
  split.
  { rewrite meetsRequired_checked. split.
    - intros [a Ha].
      destruct (checked (hasSrt (reqSrtContent request)) response) eqn:E;
        [reflexivity|].
      destruct (buildResult_rejects _ _ E) as (e & He & _). congruence.
    - intros H.
      destruct (buildResult_accepts _ _ H) as (fields & st & en & _ & _ & _ & Hb).
      eexists. exact Hb. }
  destruct (hasSrt (reqSrtContent request)) eqn:E.
  - destruct (schema_with_srt (reqSrtContent request)
                (reqDynamicStyling request) E) as [Hr Hp].
    rewrite Hr, Hp. split; [reflexivity|].
    split; [intros _; apply timeProperties_types | discriminate].
  - unfold schema. rewrite E. split; [reflexivity|].
    split; [discriminate|]. intros _.
    exists (mkSchema OBJECT None
              (subtitleProperties (reqDynamicStyling request))
              requiredSubtitleProperties None).
    split; [reflexivity|]. split; [reflexivity|].
    cbn [properties].
    destruct (reqDynamicStyling request); reflexivity.
Qed.

End RequestProofs.

(* ================================================================== *)
(** * Proofs: the video analyzer *)
(* ================================================================== *)

Section AnalyzerProofs.

Import JS VideoAnalyzer.

(** X26.  A submission of the video analyzer.  Without a video, with an
    empty prompt or while loading it does nothing.  Otherwise it ends with
    the loading flag cleared and the progress message empty, and with
    exactly one of a result and an error, the error being a non-empty
    text; the video, the prompt and the preview are untouched.  When the
    frames cannot be extracted the service is not called and the message
    of the extraction error is what is shown; when they can, the service
    is called once, with the prompt and these frames, at most sixteen. *)
Theorem analyzer_handleSubmit_settles (videoEnv : FileUtils.VideoEnv)
    (analyzeVideo : jsstring -> list FileUtils.Frame -> completion jsstring)
    (s : State) :
  (videoFile s = None \/ nonempty (prompt s) = false \/ isLoading s = true ->
   handleSubmit videoEnv analyzeVideo s = (s, [])) /\
  (videoFile s <> None -> nonempty (prompt s) = true -> isLoading s = false ->
   exists (s' : State) (calls : list (jsstring * list FileUtils.Frame)),
     handleSubmit videoEnv analyzeVideo s = (s', calls) /\
     videoFile s' = videoFile s /\ prompt s' = prompt s /\
     videoPreviewUrl s' = videoPreviewUrl s /\
     isLoading s' = false /\ progressMessage s' = [] /\
     (error s' = None <-> analysisResult s' <> None) /\
     (forall m, error s' = Some m -> nonempty m = true) /\
     (forall e,
         fst (FileUtils.extractVideoFrames videoEnv FRAME_COUNT) = Throw e ->
         calls = [] /\
         error s' = Some (if nonempty (message e) then message e
                          else unknownAnalysisError)) /\
     (forall frames,
         fst (FileUtils.extractVideoFrames videoEnv FRAME_COUNT)
         = Normal frames ->
         calls = [(prompt s, frames)] /\ (length frames <= 16)%nat)).
Proof.
  assert (Hmsg : forall err : exn,
             nonempty (if nonempty (message err) then message err
                       else unknownAnalysisError) = true).
  { intros err. destruct (nonempty (message err)) eqn:E; [exact E|].
    vm_compute. reflexivity. }
  split.
  - intros H. unfold handleSubmit.
    destruct (videoFile s); [|reflexivity].
    destruct H as [H|[H|H]]; [discriminate | |].
    + now rewrite H.
    + rewrite H. now rewrite orb_true_r.
  - intros Hfile Hprompt Hload. unfold handleSubmit.
    destruct (videoFile s) as [f|] eqn:Efile; [|now contradiction Hfile].
    rewrite Hprompt, Hload. cbn [negb orb].
    destruct (fst (FileUtils.extractVideoFrames videoEnv FRAME_COUNT))
      as [frames|e] eqn:Eframes.
    + destruct (analyzeVideo (prompt s) frames) as [result|err].
      * eexists. eexists. split; [reflexivity|].
        cbn [videoFile prompt videoPreviewUrl isLoading progressMessage
             error analysisResult].
        split; [reflexivity|]. split; [reflexivity|]. split; [reflexivity|].
        split; [reflexivity|]. split; [reflexivity|].
        split; [split; [discriminate | reflexivity]|].
        split; [discriminate|]. split; [discriminate|].
        intros frames' [= <-]. split; [reflexivity|].
        now apply (frames_bounded videoEnv FRAME_COUNT frames).
      * eexists. eexists. split; [reflexivity|].
        cbn [videoFile prompt videoPreviewUrl isLoading progressMessage
             error analysisResult].
        split; [reflexivity|]. split; [reflexivity|]. split; [reflexivity|].
        split; [reflexivity|]. split; [reflexivity|].
        split; [split; [discriminate | intros H; now contradiction H]|].
        split; [intros m [= <-]; apply Hmsg|]. split; [discriminate|].
        intros frames' [= <-]. split; [reflexivity|].
        now apply (frames_bounded videoEnv FRAME_COUNT frames).
    + eexists. eexists. split; [reflexivity|].
      cbn [videoFile prompt videoPreviewUrl isLoading progressMessage
           error analysisResult].
      split; [reflexivity|]. split; [reflexivity|]. split; [reflexivity|].
      split; [reflexivity|]. split; [reflexivity|].
      split; [split; [discriminate | intros H; now contradiction H]|].
      split; [intros m [= <-]; apply Hmsg|].
      split; [|discriminate].
      intros e' [= <-]. split; reflexivity.
Qed.

Lemma analyzer_handleSubmit_settles_witness :
  exists s' : State,
    handleSubmit ResponseSpec.silentVideo (fun _ _ => Normal (lit "ok"))
      (mkState (Some Session.longClip) (lit "describe") false None None []
         (Some 0%nat))
    = (s', [(lit "describe", [])]) /\
    analysisResult s' = Some (lit "ok") /\ error s' = None.
Proof.
  destruct (analyzer_handleSubmit_settles ResponseSpec.silentVideo
              (fun _ _ => Normal (lit "ok"))
              (mkState (Some Session.longClip) (lit "describe") false None
                 None [] (Some 0%nat))) as [_ H].
  destruct H as (s' & calls & Hrun & _); [discriminate | reflexivity
                                          | reflexivity |].
  exists s'. vm_compute in Hrun. injection Hrun as <- <-.
  split; [reflexivity|]. split; reflexivity.
Defined.

Lemma urls_accumulate_from (files : list (option ShortsCreator.File)) :
  forall w : World,
    (forall u, In u (objectUrls w) -> (u < nextUrl w)%nat) ->
    NoDup (objectUrls w) ->
    let w' := fold_left (fun w file => handleFileChange file w) files w in
    (forall u, In u (objectUrls w') -> (u < nextUrl w')%nat) /\
    NoDup (objectUrls w') /\
    (forall u, In u (objectUrls w) -> In u (objectUrls w')) /\
    length (objectUrls w')
    = (length (objectUrls w)
       + length (List.filter (fun file => match file with
                                          | Some _ => true
                                          | None => false
                                          end) files))%nat.
Proof.
  induction files as [|file files IH]; intros w Hold Hnodup.
  - cbn. repeat split; auto.
  - cbn [fold_left List.filter].
    destruct file as [f|].
    + destruct (IH (handleFileChange (Some f) w)) as (H1 & H2 & H3 & H4).
      * cbn [handleFileChange objectUrls nextUrl].
        intros u [<-|Hu]; [lia | apply Hold in Hu; lia].
      * cbn [handleFileChange objectUrls nextUrl].
        constructor; [|exact Hnodup]. intros H.
        apply list_elem_of_In, Hold in H. lia.
      * cbn zeta. split; [exact H1|]. split; [exact H2|].
        split; [intros u Hu; apply H3; now right|].
        rewrite H4. cbn [handleFileChange objectUrls length]. lia.
    + specialize (IH w Hold Hnodup). cbn [handleFileChange].
      destruct IH as (H1 & H2 & H3 & H4).
      cbn zeta. split; [exact H1|]. split; [exact H2|].
      split; [exact H3|]. rewrite H4. lia.
Qed.

(** X27.  The video analyzer never revokes an object URL.  After any
    sequence of selections that started with no URL, as many distinct
    URLs are live as files were chosen, though only the last one is
    previewed: every earlier selection leaves its URL behind. *)
Theorem analyzer_urls_accumulate (files : list (option ShortsCreator.File))
    (s : State) :
  NoDup (objectUrls
           (fold_left (fun w file => handleFileChange file w) files
              (mkWorld s [] 0%nat))) /\
  length (objectUrls
            (fold_left (fun w file => handleFileChange file w) files
               (mkWorld s [] 0%nat)))
  = length (List.filter (fun file => match file with
                                     | Some _ => true
                                     | None => false
                                     end) files) /\
  forall (file : option ShortsCreator.File) (w : World) (u : nat),
    In u (objectUrls w) -> In u (objectUrls (handleFileChange file w)).
Proof.
  destruct (urls_accumulate_from files (mkWorld s [] 0%nat))
    as (_ & Hnodup & _ & Hlen).
  - intros u [].
  - constructor.
  - split; [exact Hnodup|]. split; [exact Hlen|].
    intros [f|] w u Hu; [now right | exact Hu].
Qed.

End AnalyzerProofs.
